(** * ShadowChronicles: the command parser and the game engine

    A shallow embedding of [CommandParser.parse] (server/src/parser) and of
    [GameEngine] (server/src/engine, read from its compiled module), with the
    properties of the design specification stated and settled over it.

    Modelling conventions.
    - Strings are sequences of ASCII characters; [toLowerCase], [trim] and the
      whitespace class of the tokenizer are the restrictions of the JavaScript
      operations to that alphabet.
    - Numbers (hp, mp, quantities, stat values) are the integers among the
      doubles, in [Z]; sums and differences are rounded to the nearest double
      ([roundDouble]), comparisons are exact.
    - Optional properties ([noun?], [equipmentSlot?], [requires | null]) are
      [option]s; JavaScript truthiness of a string is [truthy].
    - A JavaScript [Map] iterated in insertion order ([GameEngine.rooms]) and
      object literals iterated with [Object.entries] ([room.exits],
      [descriptions.dynamicVariants], [player.equippedItems]) are association
      lists in insertion order; maps that are only read and written by key
      ([worldState], [room.state], [player.flags]) are [gmap]s.
    - A property read [obj[key]] with a key typed by the user (the first
      token of a command, the direction of go) goes through [get_prop], which
      also sees the members every object literal inherits from
      [Object.prototype]. So does the truth test of a room-state flag
      ([Room.flag]), whose name comes from the room content. The flags of the
      player are read under names that end in [_on], which no inherited
      member has, and stat names and equipment slots are those of the
      types.
    - Handlers mutate the session and the shared rooms in place; here they
      take and return the engine and the session explicitly. *)

From Stdlib Require Import ZArith Bool List String Ascii Lia DecimalString.
From stdpp Require Import base option list gmap strings.
Import ListNotations.

Local Open Scope string_scope.
Local Open Scope list_scope.

(** ** JavaScript string and object primitives *)

Module JS.

(** The ASCII members of the ECMAScript WhiteSpace and LineTerminator
    classes: TAB, LF, VT, FF, CR and SPACE. [String.prototype.trim] and the
    regular expression class [\s] agree on them. *)
Definition isWhiteSpace (c : ascii) : bool :=
  let n := nat_of_ascii c in
  ((9 <=? n)%nat && (n <=? 13)%nat) || (n =? 32)%nat.

Definition lowerChar (c : ascii) : ascii :=
  let n := nat_of_ascii c in
  if ((65 <=? n)%nat && (n <=? 90)%nat) then ascii_of_nat (n + 32) else c.

Fixpoint toLowerCase (s : string) : string :=
  match s with
  | EmptyString => EmptyString
  | String c s' => String (lowerChar c) (toLowerCase s')
  end.

Fixpoint trimStart (s : string) : string :=
  match s with
  | EmptyString => EmptyString
  | String c s' => if isWhiteSpace c then trimStart s' else s
  end.

Definition trimEnd (s : string) : string :=
  String.rev (trimStart (String.rev s)).

Definition trim (s : string) : string := trimEnd (trimStart s).

(** A string is falsy exactly when it is empty. *)
Definition truthy (s : string) : bool :=
  match s with EmptyString => false | _ => true end.

(** [s || undefined] for a string [s]. *)
Definition orUndefined (s : string) : option string :=
  if truthy s then Some s else None.

(** [o || d] for an optional string [o]. *)
Definition orElse (o : option string) (d : string) : string :=
  match o with
  | Some s => if truthy s then s else d
  | None => d
  end.

(** [s.startsWith(p)] *)
Fixpoint startsWith (s p : string) : bool :=
  match p, s with
  | EmptyString, _ => true
  | String _ _, EmptyString => false
  | String a p', String b s' => Ascii.eqb a b && startsWith s' p'
  end.

(** [s.includes(sub)] *)
Fixpoint includes (s sub : string) : bool :=
  startsWith s sub ||
  match s with
  | EmptyString => false
  | String _ s' => includes s' sub
  end.

(** [s.split(sep)] for a one-character separator. *)
Fixpoint splitChar (sep : ascii) (cur : string) (s : string) : list string :=
  match s with
  | EmptyString => [cur]
  | String c s' =>
      if Ascii.eqb c sep then cur :: splitChar sep EmptyString s'
      else splitChar sep (cur +:+ String c EmptyString) s'
  end.

Definition split (s : string) (sep : ascii) : list string :=
  splitChar sep EmptyString s.

(** [s.split(/\s+/)]: every maximal run of whitespace is one separator. *)
Fixpoint splitSpaces (cur : string) (inSep : bool) (s : string) : list string :=
  match s with
  | EmptyString => [cur]
  | String c s' =>
      if isWhiteSpace c then
        if inSep then splitSpaces EmptyString true s'
        else cur :: splitSpaces EmptyString true s'
      else splitSpaces (cur +:+ String c EmptyString) false s'
  end.

(** [l.join(sep)] *)
Fixpoint join (sep : string) (l : list string) : string :=
  match l with
  | [] => EmptyString
  | [x] => x
  | x :: l' => x +:+ sep +:+ join sep l'
  end.

(** [l.includes(x)] for an array of strings. *)
Definition arrayIncludes (l : list string) (x : string) : bool :=
  existsb (String.eqb x) l.

(** [l.findIndex(p)]; [None] stands for [-1]. *)
Fixpoint findIndexFrom {A} (p : A -> bool) (i : nat) (l : list A) : option nat :=
  match l with
  | [] => None
  | x :: l' => if p x then Some i else findIndexFrom p (S i) l'
  end.

Definition findIndex {A} (p : A -> bool) (l : list A) : option nat :=
  findIndexFrom p 0 l.

(** [l.splice(i, 1)] *)
Definition splice1 {A} (i : nat) (l : list A) : list A :=
  take i l ++ drop (S i) l.

(** The double nearest to an integer, ties to the even significand: the
    integers up to 2^53 in magnitude are doubles; above, a double has 53
    significant bits. *)
Definition roundDouble (z : Z) : Z :=
  let a := Z.abs z in
  if (a <=? 2 ^ 53)%Z then z
  else
    let e := (Z.log2 a - 52)%Z in
    let q := (a / 2 ^ e)%Z in
    let r := (a mod 2 ^ e)%Z in
    let half := (2 ^ (e - 1))%Z in
    let q' :=
      if (r <? half)%Z then q
      else if (half <? r)%Z then (q + 1)%Z
      else if Z.even q then q else (q + 1)%Z in
    (Z.sgn z * (q' * 2 ^ e))%Z.

(** [a + b] and [a - b] on numbers. *)
Definition numAdd (a b : Z) : Z := roundDouble (a + b).
Definition numSub (a b : Z) : Z := roundDouble (a - b).

(** Decimal rendering of an integer inside a template string (the digits
    in full, as JavaScript prints an integer below 10^21 in magnitude). *)
Definition numberToString (z : Z) : string :=
  NilZero.string_of_int (Z.to_int z).

Definition quote : string := String (ascii_of_nat 34) EmptyString.
Definition nl : string := String (ascii_of_nat 10) EmptyString.

(** Names every object literal inherits from [Object.prototype]. Their
    values are functions (an object for [__proto__]): truthy, not strings,
    and without the properties of the records stored in the literal. *)
Definition objectPrototypeMembers : list string :=
  [ "constructor"; "__proto__"; "hasOwnProperty"; "isPrototypeOf";
    "propertyIsEnumerable"; "toLocaleString"; "toString"; "valueOf";
    "__defineGetter__"; "__defineSetter__"; "__lookupGetter__";
    "__lookupSetter__" ].

Inductive Lookup (A : Type) : Type :=
| Own (a : A)
| Inherited
| Undefined.
Arguments Own {A} a.
Arguments Inherited {A}.
Arguments Undefined {A}.

(** First entry of an association list with the given key. *)
Fixpoint assoc {A} (o : list (string * A)) (k : string) : option A :=
  match o with
  | [] => None
  | (k', v) :: o' => if String.eqb k k' then Some v else assoc o' k
  end.

(** [o[k]] on an object literal [o]. *)
Definition get_prop {A} (o : list (string * A)) (k : string) : Lookup A :=
  match assoc o k with
  | Some v => Own v
  | None => if arrayIncludes objectPrototypeMembers k then Inherited else Undefined
  end.

(** What a call returns: a value, or a thrown [TypeError]. *)
Inductive Outcome (A : Type) : Type :=
| Returns (a : A)
| ThrowsTypeError.
Arguments Returns {A} a.
Arguments ThrowsTypeError {A}.

End JS.

(** ** The command parser (server/src/parser/CommandParser.ts) *)

Record ParsedCommand := mkParsedCommand {
  verb : string;
  noun : option string;
  preposition : option string;
  indirectObject : option string;
  raw : string;
  valid : bool;
  errorMessage : option string
}.

Module CommandParser.
Import JS.

Definition VERB_SYNONYMS : list (string * string) :=
[
  ("go", "go"); ("walk", "go"); ("run", "go"); ("move", "go");
  ("travel", "go"); ("head", "go"); ("n", "go north");
  ("north", "go north"); ("s", "go south"); ("south", "go south");
  ("e", "go east"); ("east", "go east"); ("w", "go west");
  ("west", "go west"); ("u", "go up"); ("up", "go up"); ("d", "go down");
  ("down", "go down"); ("enter", "go"); ("exit", "go"); ("climb", "climb");
  ("jump", "jump"); ("swim", "swim"); ("dive", "dive"); ("look", "look");
  ("l", "look"); ("examine", "examine"); ("x", "examine");
  ("inspect", "examine"); ("read", "read"); ("search", "search");
  ("listen", "listen"); ("smell", "smell"); ("taste", "taste");
  ("take", "take"); ("get", "take"); ("grab", "take"); ("pick", "take");
  ("pickup", "take"); ("drop", "drop"); ("leave", "drop"); ("put", "put");
  ("place", "put"); ("insert", "insert"); ("remove", "remove");
  ("wear", "equip"); ("equip", "equip"); ("wield", "equip");
  ("unequip", "unequip"); ("unwield", "unequip"); ("doff", "unequip");
  ("open", "open"); ("close", "close"); ("shut", "close"); ("lock", "lock");
  ("unlock", "unlock"); ("push", "push"); ("pull", "pull");
  ("turn", "turn"); ("rotate", "turn"); ("break", "break");
  ("smash", "break"); ("hit", "attack"); ("attack", "attack");
  ("fight", "attack"); ("kill", "attack"); ("stab", "attack");
  ("strike", "attack"); ("touch", "touch"); ("rub", "rub"); ("use", "use");
  ("light", "light"); ("extinguish", "extinguish"); ("burn", "burn");
  ("pour", "pour"); ("fill", "fill"); ("drink", "drink"); ("eat", "eat");
  ("throw", "throw"); ("toss", "throw"); ("raise", "raise");
  ("lower", "lower"); ("ring", "ring"); ("knock", "knock");
  ("press", "press"); ("wave", "wave"); ("tie", "tie"); ("untie", "untie");
  ("say", "say"); ("speak", "say"); ("shout", "shout"); ("yell", "shout");
  ("ask", "ask"); ("tell", "tell"); ("talk", "talk"); ("pray", "pray");
  ("cast", "cast"); ("think", "think"); ("wait", "wait"); ("z", "wait");
  ("sleep", "sleep"); ("rest", "rest"); ("inventory", "inventory");
  ("i", "inventory"); ("inv", "inventory"); ("help", "help"); ("?", "help");
  ("save", "save"); ("load", "load"); ("restore", "load"); ("quit", "quit");
  ("q", "quit"); ("restart", "restart"); ("reset", "restart");
  ("status", "status"); ("stats", "status"); ("score", "score");
  ("map", "map"); ("hint", "hint"); ("hints", "hint")
].

Definition PREPOSITIONS : list string :=
  [ "in"; "into"; "on"; "onto"; "with"; "using"; "to"; "at";
    "from"; "off"; "under"; "behind"; "through"; "about"; "around" ].

Definition ARTICLES : list string := [ "a"; "an"; "the"; "some"; "my" ].

Definition tokenize (input : string) : list string :=
  filter (fun token => truthy token = true) (splitSpaces EmptyString false input).

(** The [for] loop looking for the first preposition: the index and the
    token where it breaks, [None] when it runs to the end
    ([prepositionIndex] stays [-1]). *)
Fixpoint prepositionLoop (i : nat) (objectTokens : list string) : option (nat * string) :=
  match objectTokens with
  | [] => None
  | t :: rest =>
      if arrayIncludes PREPOSITIONS t then Some (i, t)
      else prepositionLoop (S i) rest
  end.

Definition invalidCommand (v input msg : string) : ParsedCommand :=
  {| verb := v; noun := None; preposition := None; indirectObject := None;
     raw := input; valid := false; errorMessage := Some msg |}.

Definition bareCommand (v input : string) : ParsedCommand :=
  {| verb := v; noun := None; preposition := None; indirectObject := None;
     raw := input; valid := true; errorMessage := None |}.

Definition parse (input : string) : Outcome ParsedCommand :=
  let normalized := trim (toLowerCase input) in
  if negb (truthy normalized) then
    Returns (invalidCommand "" input "Please enter a command.")
  else
    let tokens := tokenize normalized in
    match tokens with
    | [] => Returns (invalidCommand "" input "I don't understand that.")
    | firstToken :: restTokens =>
        match get_prop VERB_SYNONYMS firstToken with
        | Inherited =>
            (* directionShortcut is a function or an object: truthy, and
               directionShortcut.startsWith is not a function *)
            ThrowsTypeError
        | Undefined =>
            Returns (invalidCommand firstToken input
              ("I don't know how to " +:+ quote +:+ firstToken +:+ quote +:+ "."))
        | Own canonicalVerb =>
            if startsWith canonicalVerb "go " then
              Returns {| verb := "go";
                         noun := split canonicalVerb " "%char !! 1%nat;
                         preposition := None; indirectObject := None;
                         raw := input; valid := true; errorMessage := None |}
            else if (length tokens =? 1)%nat then
              Returns (bareCommand canonicalVerb input)
            else
              let objectTokens :=
                filter (fun t => arrayIncludes ARTICLES t = false) restTokens in
              match objectTokens with
              | [] => Returns (bareCommand canonicalVerb input)
              | _ :: _ =>
                  match prepositionLoop 0 objectTokens with
                  | Some (S k, p) =>
                      let prepositionIndex := S k in
                      Returns {| verb := canonicalVerb;
                                 noun := orUndefined (join " " (take prepositionIndex objectTokens));
                                 preposition := Some p;
                                 indirectObject :=
                                   orUndefined (join " " (drop (prepositionIndex + 1) objectTokens));
                                 raw := input; valid := true; errorMessage := None |}
                  | Some (O, _) =>
                      Returns {| verb := canonicalVerb;
                                 noun := orUndefined (join " " (drop 1 objectTokens));
                                 preposition := objectTokens !! 0%nat;
                                 indirectObject := None;
                                 raw := input; valid := true; errorMessage := None |}
                  | None =>
                      Returns {| verb := canonicalVerb;
                                 noun := orUndefined (join " " objectTokens);
                                 preposition := None; indirectObject := None;
                                 raw := input; valid := true; errorMessage := None |}
                  end
              end
        end
    end.


(** [getSuggestions]: at most ten keys of the table, in the order of the
    literal, that start with the normalised partial input. *)
Definition getSuggestions (partial : string) : list string :=
  let normalized := trim (toLowerCase partial) in
  if negb (truthy normalized) then []
  else
    take 10 (List.filter (fun verb => startsWith verb normalized)
                         (map fst VERB_SYNONYMS)).

(** [[...new Set(values)]]: the first occurrence of every value, in order. *)
Fixpoint distinctFrom (seen : list string) (values : list string) : list string :=
  match values with
  | [] => []
  | v :: rest =>
      if arrayIncludes seen v then distinctFrom seen rest
      else v :: distinctFrom (v :: seen) rest
  end.

(** [Array.prototype.sort] without a comparator, on strings: ascending
    order of the code units. The result does not depend on the algorithm
    when the strings are pairwise distinct; insertion sort is used here. *)
Fixpoint insertSorted (x : string) (sorted : list string) : list string :=
  match sorted with
  | [] => [x]
  | y :: rest => if String.leb x y then x :: y :: rest else y :: insertSorted x rest
  end.

Definition sortStrings (l : list string) : list string :=
  fold_right insertSorted [] l.

Definition validVerbsOf (table : list (string * string)) : list string :=
  sortStrings (distinctFrom [] (map snd table)).

Definition getValidVerbs : list string := validVerbsOf VERB_SYNONYMS.
End CommandParser.


(** ** The shared data model (shared/types/game.ts) *)

Inductive EquipmentSlot := weapon | armor | accessory | light_source.

Global Instance EquipmentSlot_eq_dec : EqDecision EquipmentSlot.
Proof. solve_decision. Defined.

Definition slotName (s : EquipmentSlot) : string :=
  match s with
  | weapon => "weapon"
  | armor => "armor"
  | accessory => "accessory"
  | light_source => "light_source"
  end.

Module Stats.
Record t := mk {
  Physical : Z;
  Mental : Z;
  Resilience : Z
}.
(** [stats[key]]; every other key reads [undefined] or a value that
    compares like it. *)
Definition get (s : t) (key : string) : option Z :=
  if String.eqb key "Physical" then Some (Physical s)
  else if String.eqb key "Mental" then Some (Mental s)
  else if String.eqb key "Resilience" then Some (Resilience s)
  else None.
End Stats.

Module Item.
Record t := mk {
  id : string;
  name : string;
  description : string;
  quantity : Z;
  equippable : bool;
  equipmentSlot : option EquipmentSlot;
  usable : bool;
  weight : Z
}.
End Item.

Module StatusEffect.
Record t := mk {
  id : string;
  name : string;
  duration : Z;
  effects : list (string * Z)
}.
End StatusEffect.

(** [EquippedItems]: the properties in insertion order. *)
Definition EquippedItems := list (EquipmentSlot * string).

Module Equipped.
Fixpoint get (e : EquippedItems) (slot : EquipmentSlot) : option string :=
  match e with
  | [] => None
  | (k, v) :: e' => if decide (k = slot) then Some v else get e' slot
  end.
(** [e[slot] = v]: an existing property keeps its place. *)
Fixpoint set (e : EquippedItems) (slot : EquipmentSlot) (v : string) : EquippedItems :=
  match e with
  | [] => [(slot, v)]
  | (k, w) :: e' => if decide (k = slot) then (k, v) :: e' else (k, w) :: set e' slot v
  end.
(** [delete e[slot]] *)
Definition remove (e : EquippedItems) (slot : EquipmentSlot) : EquippedItems :=
  filter (fun kv => fst kv <> slot) e.
End Equipped.

Module Player.
Record t := mk {
  name : string;
  gold : Z;
  hp : Z;
  maxHp : Z;
  mp : Z;
  maxMp : Z;
  xp : Z;
  level : Z;
  stats : Stats.t;
  inventory : list Item.t;
  equippedItems : EquippedItems;
  statusEffects : list StatusEffect.t;
  skills : list string;
  location : string;
  notes : list string;
  (** an entry is [None] where the code pushed [undefined] *)
  visitedRooms : list (option string);
  flags : gmap string bool
}.

Definition set_location (v : string) (p : t) : t :=
  mk (name p) (gold p) (hp p) (maxHp p) (mp p) (maxMp p) (xp p) (level p)
     (stats p) (inventory p) (equippedItems p) (statusEffects p) (skills p)
     v (notes p) (visitedRooms p) (flags p).

Definition set_visitedRooms (v : list (option string)) (p : t) : t :=
  mk (name p) (gold p) (hp p) (maxHp p) (mp p) (maxMp p) (xp p) (level p)
     (stats p) (inventory p) (equippedItems p) (statusEffects p) (skills p)
     (location p) (notes p) v (flags p).

Definition set_inventory (v : list Item.t) (p : t) : t :=
  mk (name p) (gold p) (hp p) (maxHp p) (mp p) (maxMp p) (xp p) (level p)
     (stats p) v (equippedItems p) (statusEffects p) (skills p)
     (location p) (notes p) (visitedRooms p) (flags p).

Definition set_equippedItems (v : EquippedItems) (p : t) : t :=
  mk (name p) (gold p) (hp p) (maxHp p) (mp p) (maxMp p) (xp p) (level p)
     (stats p) (inventory p) v (statusEffects p) (skills p)
     (location p) (notes p) (visitedRooms p) (flags p).

Definition set_skills (v : list string) (p : t) : t :=
  mk (name p) (gold p) (hp p) (maxHp p) (mp p) (maxMp p) (xp p) (level p)
     (stats p) (inventory p) (equippedItems p) (statusEffects p) v
     (location p) (notes p) (visitedRooms p) (flags p).

Definition set_flags (v : gmap string bool) (p : t) : t :=
  mk (name p) (gold p) (hp p) (maxHp p) (mp p) (maxMp p) (xp p) (level p)
     (stats p) (inventory p) (equippedItems p) (statusEffects p) (skills p)
     (location p) (notes p) (visitedRooms p) v.

Definition set_hp (v : Z) (p : t) : t :=
  mk (name p) (gold p) v (maxHp p) (mp p) (maxMp p) (xp p) (level p)
     (stats p) (inventory p) (equippedItems p) (statusEffects p) (skills p)
     (location p) (notes p) (visitedRooms p) (flags p).

Definition set_mp (v : Z) (p : t) : t :=
  mk (name p) (gold p) (hp p) (maxHp p) v (maxMp p) (xp p) (level p)
     (stats p) (inventory p) (equippedItems p) (statusEffects p) (skills p)
     (location p) (notes p) (visitedRooms p) (flags p).

(** [flags[key] || false] *)
Definition flag (p : t) (key : string) : bool := default false (flags p !! key).
End Player.

Inductive RequirementType := req_item | req_state | req_skill | req_stat.

Module Requirement.
Record t := mk {
  type : RequirementType;
  id : string;
  value : option Z
}.
End Requirement.

Module Exit.
Record t := mk {
  to : string;
  visible : bool;
  oneWay : bool;
  requires : option Requirement.t;
  blockedMessage : option string;
  travelText : string
}.
End Exit.

Inductive ObjectLocation := loc_room | loc_container | loc_hidden.
Inductive Visibility := vis_always | vis_conditional | vis_hidden.

Module Obj.
Record t := mk {
  id : string;
  name : string;
  synonyms : option (list string);
  description : string;
  initialLocation : ObjectLocation;
  visibility : Visibility;
  requiresLight : bool;
  takeable : bool;
  taken : bool;
  interactable : bool;
  examineText : string;
  equipmentSlot : option EquipmentSlot;
  stateChanges : option (list (string * string))
}.

Definition set_taken (v : bool) (o : t) : t :=
  mk (id o) (name o) (synonyms o) (description o) (initialLocation o)
     (visibility o) (requiresLight o) (takeable o) v (interactable o)
     (examineText o) (equipmentSlot o) (stateChanges o).
End Obj.

Module NPC.
Record t := mk {
  id : string;
  name : string;
  description : string;
  hostile : bool;
  spawnConditions : list string;
  despawnConditions : list string;
  behavior : string
}.
End NPC.

Module Descriptions.
Record t := mk {
  initial : string;
  long : string;
  short : string;
  visited : string;
  dark : string;
  dynamicVariants : list (string * string)
}.

End Descriptions.

(** The engine reads [identity.id], [descriptions], [lighting.isLit], [exits],
    [objects], [npcs] and [state]; the remaining blocks of a room record
    (environment, hooks, special verbs, progression, meta) are never read or
    written by it and are left out. *)
Module Room.
Record t := mk {
  identity_id : string;
  identity_canonicalName : string;
  descriptions : Descriptions.t;
  lighting_isLit : bool;
  exits : list (string * Exit.t);
  objects : list Obj.t;
  npcs : list NPC.t;
  state : gmap string bool
}.

Definition set_objects (v : list Obj.t) (r : t) : t :=
  mk (identity_id r) (identity_canonicalName r) (descriptions r)
     (lighting_isLit r) (exits r) v (npcs r) (state r).

Definition set_state (v : gmap string bool) (r : t) : t :=
  mk (identity_id r) (identity_canonicalName r) (descriptions r)
     (lighting_isLit r) (exits r) (objects r) (npcs r) v.


(** [state[key]] as a condition; [key] is a flag name taken from the room
    content. A name that is no own key of the state but a member inherited
    from [Object.prototype] reads as a function, which is truthy. *)
Definition flag (r : t) (key : string) : bool :=
  match state r !! key with
  | Some b => b
  | None => JS.arrayIncludes JS.objectPrototypeMembers key
  end.
End Room.

Record GameConfig := mkGameConfig {
  maxInventoryWeight : Z;
  baseHp : Z;
  baseMp : Z;
  xpPerLevel : Z;
  deathHpPenalty : Z;
  deathMpPenalty : Z;
  restHpRecovery : Z;
  restMpRecovery : Z
}.

(** [GameSession], without the transport's fields (id, socket, connected,
    lastActivity). *)
Module Session.
Record t := mk {
  player : Player.t;
  inCombat : bool;
  currentEnemy : option string
}.

Definition set_player (v : Player.t) (s : t) : t :=
  mk v (inCombat s) (currentEnemy s).
End Session.

(** [Partial<PlayerState>] as the handlers fill it. *)
Record StateChanges := mkStateChanges {
  sc_skills : option (list string);
  sc_location : option string;
  sc_visitedRooms : option (list (option string));
  sc_inventory : option (list Item.t);
  sc_equippedItems : option EquippedItems;
  sc_flags : option (gmap string bool);
  sc_hp : option Z;
  sc_mp : option Z
}.

Definition noChanges : StateChanges :=
  mkStateChanges None None None None None None None None.

Record CommandResult := mkCommandResult {
  success : bool;
  message : string;
  stateChanges : option StateChanges;
  roomChanged : option bool;
  combatTriggered : option bool
}.

Definition result (ok : bool) (msg : string) : CommandResult :=
  mkCommandResult ok msg None None None.

Definition resultWith (ok : bool) (msg : string) (sc : StateChanges) : CommandResult :=
  mkCommandResult ok msg (Some sc) None None.

(** ** The game engine (server/src/engine/GameEngine) *)

Module GameEngine.
Import JS.

Definition DEFAULT_CONFIG : GameConfig :=
  {| maxInventoryWeight := 100; baseHp := 100; baseMp := 50;
     xpPerLevel := 1000; deathHpPenalty := 20; deathMpPenalty := 10;
     restHpRecovery := 25; restMpRecovery := 15 |}.

(** The fields of a [GameEngine] instance; [rooms] is the [Map] in insertion
    order. *)
Record t := mk {
  rooms : list (string * Room.t);
  config : GameConfig;
  worldState : gmap string bool
}.

Definition set_rooms (v : list (string * Room.t)) (e : t) : t :=
  mk v (config e) (worldState e).

(** [Map.prototype.set] *)
Fixpoint mapSet (m : list (string * Room.t)) (k : string) (v : Room.t)
  : list (string * Room.t) :=
  match m with
  | [] => [(k, v)]
  | (k', w) :: m' =>
      if String.eqb k k' then (k', v) :: m' else (k', w) :: mapSet m' k v
  end.

(** An in-place mutation [f] of the room object stored under [k]. *)
Fixpoint mutateRoom (m : list (string * Room.t)) (k : string) (f : Room.t -> Room.t)
  : list (string * Room.t) :=
  match m with
  | [] => []
  | (k', w) :: m' =>
      if String.eqb k k' then (k', f w) :: m' else (k', w) :: mutateRoom m' k f
  end.

Definition loadRooms (e : t) (roomData : list Room.t) : t :=
  set_rooms (fold_left (fun m room => mapSet m (Room.identity_id room) room)
                       roomData (rooms e)) e.

Definition createNewPlayer (e : t) (name startingRoom : string) : Player.t :=
  {| Player.name := name;
     Player.gold := 0;
     Player.hp := baseHp (config e);
     Player.maxHp := baseHp (config e);
     Player.mp := baseMp (config e);
     Player.maxMp := baseMp (config e);
     Player.xp := 0;
     Player.level := 1;
     Player.stats := {| Stats.Physical := 10; Stats.Mental := 10; Stats.Resilience := 10 |};
     Player.inventory := [];
     Player.equippedItems := [];
     Player.statusEffects := [];
     Player.skills := [];
     Player.location := startingRoom;
     Player.notes := [];
     Player.visitedRooms := [];
     Player.flags := ∅ |}.

Definition getRoom (e : t) (roomId : string) : option Room.t :=
  assoc (rooms e) roomId.

Definition getCurrentRoom (e : t) (session : Session.t) : option Room.t :=
  getRoom e (Player.location (Session.player session)).

Definition hasLight (room : Room.t) (player : Player.t) : bool :=
  if Room.lighting_isLit room then true
  else
    match Equipped.get (Player.equippedItems player) light_source with
    | Some lightId =>
        if truthy lightId then Player.flag player (lightId +:+ "_on") else false
    | None => false
    end.

Definition checkNpcSpawnConditions (conditions : list string) (room : Room.t)
    (player : Player.t) : bool :=
  forallb (fun condition =>
             if String.eqb condition "darkness" then negb (hasLight room player)
             else if String.eqb condition "light_present" then hasLight room player
             else true)
          conditions.

(** [visitedRooms.includes(roomId)] *)
Definition visitedIncludes (l : list (option string)) (roomId : string) : bool :=
  bool_decide (Some roomId ∈ l).

Definition objectVisible (hasLight : bool) (obj : Obj.t) : bool :=
  negb (Obj.taken obj) &&
  match Obj.visibility obj with
  | vis_always => true
  | vis_conditional => negb (Obj.requiresLight obj) || hasLight
  | vis_hidden => false
  end.

Definition visibleObjects (room : Room.t) (hasLight : bool) : list Obj.t :=
  List.filter (objectVisible hasLight) (Room.objects room).

(** The loop over [Object.entries(room.descriptions.dynamicVariants)]: the
    text of the first variant whose room-state flag is set. *)
Fixpoint dynamicVariant (room : Room.t) (variants : list (string * string))
  : option string :=
  match variants with
  | [] => None
  | (variant, text) :: rest =>
      if Room.flag room variant then Some text else dynamicVariant room rest
  end.

(** The tail of getRoomDescription: the object list, the exit list and the
    NPC paragraphs appended to the chosen description. *)
Definition appendListings (room : Room.t) (player : Player.t) (hasLight : bool)
    (description : string) : string :=
  let visibleObjects := visibleObjects room hasLight in
  let description :=
    if (0 <? length visibleObjects)%nat then
      description +:+ nl +:+ nl +:+ "You can see: "
                  +:+ join ", " (map Obj.name visibleObjects)
    else description in
  let visibleExits :=
    map fst (List.filter (fun de => Exit.visible (snd de)) (Room.exits room)) in
  let description :=
    if (0 <? length visibleExits)%nat && hasLight then
      description +:+ nl +:+ nl +:+ "Exits: " +:+ join ", " visibleExits
    else description in
  let visibleNpcs :=
    List.filter (fun npc => checkNpcSpawnConditions (NPC.spawnConditions npc) room player)
                (Room.npcs room) in
  fold_left (fun description npc => description +:+ nl +:+ nl +:+ NPC.description npc)
            visibleNpcs description.

(** [room.descriptions.visited || room.descriptions.short] *)
Definition visitedOrShort (d : Descriptions.t) : string :=
  if truthy (Descriptions.visited d) then Descriptions.visited d
  else Descriptions.short d.

Definition getRoomDescription (room : Room.t) (player : Player.t) (verbose : bool)
  : string :=
  let hasLight := hasLight room player in
  if negb hasLight then Descriptions.dark (Room.descriptions room)
  else
    let visited := visitedIncludes (Player.visitedRooms player) (Room.identity_id room) in
    let d := Room.descriptions room in
    let description :=
      if negb (Room.lighting_isLit room) && hasLight then Descriptions.long d
      else if verbose || negb visited then
        (if visited then Descriptions.long d else Descriptions.initial d)
      else visitedOrShort d in
    let description :=
      match dynamicVariant room (Descriptions.dynamicVariants d) with
      | Some text => text
      | None => description
      end in
    appendListings room player hasLight description.

(** [{ allowed, message }] *)
Definition canUseExit (e : t) (exit : Exit.t) (player : Player.t)
  : bool * option string :=
  match Exit.requires exit with
  | None => (true, None)
  | Some req =>
      match Requirement.type req with
      | req_item =>
          let hasItem :=
            existsb (fun item => String.eqb (Item.id item) (Requirement.id req))
                    (Player.inventory player) in
          if negb hasItem then
            (false, Some (orElse (Exit.blockedMessage exit) "You can't go that way."))
          else (true, None)
      | req_state =>
          let stateValue := default false (worldState e !! Requirement.id req) in
          if negb stateValue then
            (false, Some (orElse (Exit.blockedMessage exit) "The way is blocked."))
          else (true, None)
      | req_skill =>
          let hasSkill := arrayIncludes (Player.skills player) (Requirement.id req) in
          if negb hasSkill then
            (false, Some (orElse (Exit.blockedMessage exit) "You lack the required skill."))
          else (true, None)
      | req_stat =>
          match Stats.get (Player.stats player) (Requirement.id req) with
          | Some statValue =>
              if (statValue <? default 0 (Requirement.value req))%Z then
                (false, Some (orElse (Exit.blockedMessage exit) "You're not capable of that."))
              else (true, None)
          | None => (true, None)
          end
      end
  end.

(** [command.noun] where the code tests it for truth. *)
Definition nounOf (command : ParsedCommand) : option string :=
  match noun command with
  | Some n => if truthy n then Some n else None
  | None => None
  end.

(** The predicate shared by look, take, light, extinguish and unequip:
    the noun is the object's id, or occurs in its lower-cased name or in one
    of its lower-cased synonyms. *)
Definition objectMatches (n : string) (o : Obj.t) : bool :=
  String.eqb (Obj.id o) n
  || includes (toLowerCase (Obj.name o)) (toLowerCase n)
  || match Obj.synonyms o with
     | Some syns =>
         existsb (fun synonym => includes (toLowerCase synonym) (toLowerCase n)) syns
     | None => false
     end.

Definition itemMatches (n : string) (i : Item.t) : bool :=
  String.eqb (Item.id i) n
  || includes (toLowerCase (Item.name i)) (toLowerCase n).

Definition npcMatches (n : string) (c : NPC.t) : bool :=
  String.eqb (NPC.id c) n
  || includes (toLowerCase (NPC.name c)) (toLowerCase n).

(** [obj.examineText || obj.description] *)
Definition examineOrDescription (obj : Obj.t) : string :=
  if truthy (Obj.examineText obj) then Obj.examineText obj else Obj.description obj.

(** [obj.stateChanges?.ability_learned] where the code tests it for truth. *)
Definition abilityLearned (obj : Obj.t) : option string :=
  match Obj.stateChanges obj with
  | Some sc =>
      match assoc sc "ability_learned" with
      | Some k => if truthy k then Some k else None
      | None => None
      end
  | None => None
  end.

(** *** Command handlers

    Each handler returns the engine and the session as it leaves them and
    the [CommandResult]. *)

Definition Step : Type := t * Session.t * CommandResult.

Definition handleLook (e : t) (session : Session.t) (command : ParsedCommand) : Step :=
  match getCurrentRoom e session with
  | None => (e, session, result false "Error: You are nowhere.")
  | Some room =>
      match nounOf command with
      | Some n =>
          match find (objectMatches n) (Room.objects room) with
          | Some obj =>
              let plain := (e, session, result true (examineOrDescription obj)) in
              match abilityLearned obj with
              | Some skillId =>
                  if negb (Room.flag room skillId) then
                    let e' :=
                      set_rooms
                        (mutateRoom (rooms e) (Player.location (Session.player session))
                           (fun r => Room.set_state (<[skillId := true]> (Room.state r)) r))
                        e in
                    let player := Session.player session in
                    if negb (arrayIncludes (Player.skills player) skillId) then
                      let skills' := Player.skills player ++ [skillId] in
                      (e', Session.set_player (Player.set_skills skills' player) session,
                       resultWith true (examineOrDescription obj)
                         (mkStateChanges (Some skills') None None None None None None None))
                    else (e', session, result true (examineOrDescription obj))
                  else plain
              | None => plain
              end
          | None =>
              match find (npcMatches n) (Room.npcs room) with
              | Some npc => (e, session, result true (NPC.description npc))
              | None =>
                  (e, session,
                   result false ("You don't see any " +:+ quote +:+ n +:+ quote +:+ " here."))
              end
          end
      | None =>
          (e, session, result true (getRoomDescription room (Session.player session) true))
      end
  end.

(** [visitedRooms.push(exit.to)] unless [visitedRooms.includes(exit.to)]. *)
Definition markVisited (dest : option string) (l : list (option string))
  : list (option string) :=
  if bool_decide (dest ∈ l) then l else l ++ [dest].

Definition handleGo (e : t) (session : Session.t) (command : ParsedCommand) : Step :=
  match getCurrentRoom e session with
  | None => (e, session, result false "Error: You are nowhere.")
  | Some room =>
      match option_map toLowerCase (noun command) with
      | None => (e, session, result false "Go where?")
      | Some direction =>
          if negb (truthy direction) then (e, session, result false "Go where?")
          else
            let player := Session.player session in
            match get_prop (Room.exits room) direction with
            | Undefined => (e, session, result false "You can't go that way.")
            | Inherited =>
                (* exit is a member of Object.prototype: exit.requires and
                   exit.to are undefined, so the gate allows it, undefined is
                   pushed on visitedRooms and no room is found *)
                let player' :=
                  Player.set_visitedRooms (markVisited None (Player.visitedRooms player))
                                          player in
                (e, Session.set_player player' session,
                 result false "Error: That room doesn't exist.")
            | Own exit =>
                match canUseExit e exit player with
                | (false, msg) => (e, session, result false (default "" msg))
                | (true, _) =>
                    let previousRoom := Player.location player in
                    let visited' :=
                      markVisited (Some (Exit.to exit)) (Player.visitedRooms player) in
                    let moved :=
                      Player.set_visitedRooms visited'
                        (Player.set_location (Exit.to exit) player) in
                    match getRoom e (Exit.to exit) with
                    | None =>
                        (e,
                         Session.set_player (Player.set_location previousRoom moved) session,
                         result false "Error: That room doesn't exist.")
                    | Some newRoom =>
                        let hostileNpc :=
                          find (fun npc =>
                                  NPC.hostile npc &&
                                  checkNpcSpawnConditions (NPC.spawnConditions npc) newRoom moved)
                               (Room.npcs newRoom) in
                        let message :=
                          (if truthy (Exit.travelText exit)
                           then Exit.travelText exit +:+ nl +:+ nl else "")
                          +:+ getRoomDescription newRoom moved false in
                        let changes :=
                          mkStateChanges None (Some (Exit.to exit)) (Some visited')
                                         None None None None None in
                        match hostileNpc with
                        | Some npc =>
                            (e,
                             Session.mk moved true (Some (NPC.id npc)),
                             mkCommandResult true
                               (message +:+ nl +:+ nl +:+ "**" +:+ NPC.name npc +:+ " attacks!**")
                               (Some changes) (Some true) (Some true))
                        | None =>
                            (e, Session.set_player moved session,
                             mkCommandResult true message (Some changes)
                                             (Some true) (Some false))
                        end
                    end
                end
            end
      end
  end.

Definition takenItem (obj : Obj.t) : Item.t :=
  {| Item.id := Obj.id obj;
     Item.name := Obj.name obj;
     Item.description := Obj.description obj;
     Item.quantity := 1;
     Item.equippable := bool_decide (is_Some (Obj.equipmentSlot obj));
     Item.equipmentSlot := Obj.equipmentSlot obj;
     Item.usable := true;
     Item.weight := 1 |}.

Definition takeable (n : string) (o : Obj.t) : bool :=
  Obj.takeable o && negb (Obj.taken o) && objectMatches n o.

Definition handleTake (e : t) (session : Session.t) (command : ParsedCommand) : Step :=
  match getCurrentRoom e session with
  | None => (e, session, result false "Error: You are nowhere.")
  | Some room =>
      match nounOf command with
      | None => (e, session, result false "Take what?")
      | Some n =>
          match findIndex (takeable n) (Room.objects room) with
          | None =>
              (e, session,
               result false ("You can't take " +:+ quote +:+ n +:+ quote +:+ "."))
          | Some i =>
              match Room.objects room !! i with
              | None => (* no such case: i is an index of the list *)
                  (e, session,
                   result false ("You can't take " +:+ quote +:+ n +:+ quote +:+ "."))
              | Some obj =>
                  if Obj.taken obj then
                    (e, session, result false "You've already taken that.")
                  else
                    let player := Session.player session in
                    let inventory' := Player.inventory player ++ [takenItem obj] in
                    let e' :=
                      set_rooms
                        (mutateRoom (rooms e) (Player.location player)
                           (fun r =>
                              Room.set_objects
                                (alter (Obj.set_taken true) i (Room.objects r)) r))
                        e in
                    (e', Session.set_player (Player.set_inventory inventory' player) session,
                     resultWith true ("You take the " +:+ Obj.name obj +:+ ".")
                       (mkStateChanges None None None (Some inventory') None None None None))
              end
          end
      end
  end.

Definition handleDrop (e : t) (session : Session.t) (command : ParsedCommand) : Step :=
  match nounOf command with
  | None => (e, session, result false "Drop what?")
  | Some n =>
      let player := Session.player session in
      match findIndex (itemMatches n) (Player.inventory player) with
      | None =>
          (e, session,
           result false ("You don't have " +:+ quote +:+ n +:+ quote +:+ "."))
      | Some itemIndex =>
          match Player.inventory player !! itemIndex with
          | None => (* no such case: itemIndex is an index of the list *)
              (e, session,
               result false ("You don't have " +:+ quote +:+ n +:+ quote +:+ "."))
          | Some item =>
              let inventory' := splice1 itemIndex (Player.inventory player) in
              (e, Session.set_player (Player.set_inventory inventory' player) session,
               resultWith true ("You drop the " +:+ Item.name item +:+ ".")
                 (mkStateChanges None None None (Some inventory') None None None None))
          end
      end
  end.

Definition handleExamine (e : t) (session : Session.t) (command : ParsedCommand) : Step :=
  handleLook e session command.

Definition handleInventory (e : t) (session : Session.t) (_command : ParsedCommand) : Step :=
  let inventory := Player.inventory (Session.player session) in
  if (length inventory =? 0)%nat then (e, session, result true "You are carrying nothing.")
  else
    let items :=
      join nl
        (map (fun item =>
                "  - " +:+ Item.name item
                +:+ (if (1 <? Item.quantity item)%Z
                     then " (x" +:+ numberToString (Item.quantity item) +:+ ")"
                     else ""))
             inventory) in
    (e, session, result true ("You are carrying:" +:+ nl +:+ items)).

Definition handleUse (e : t) (session : Session.t) (command : ParsedCommand) : Step :=
  match nounOf command with
  | None => (e, session, result false "Use what?")
  | Some n =>
      match find (itemMatches n) (Player.inventory (Session.player session)) with
      | None =>
          (e, session,
           result false ("You don't have " +:+ quote +:+ n +:+ quote +:+ "."))
      | Some item =>
          if negb (Item.usable item) then
            (e, session, result false ("You can't use the " +:+ Item.name item +:+ "."))
          else (e, session, result true ("You use the " +:+ Item.name item +:+ "."))
      end
  end.

(** The scan of every room for the definition of the equipped object under
    the name the player typed. *)
Definition definitionMatches (e : t) (itemId n : string) : bool :=
  existsb (fun kr =>
             bool_decide (is_Some
               (find (fun o => String.eqb (Obj.id o) itemId && objectMatches n o)
                     (Room.objects (snd kr)))))
          (rooms e).

(** [player.equippedItems.light_source] where the code tests it for truth. *)
Definition equippedLight (player : Player.t) : option string :=
  match Equipped.get (Player.equippedItems player) light_source with
  | Some lightId => if truthy lightId then Some lightId else None
  | None => None
  end.

Definition handleLight (e : t) (session : Session.t) (command : ParsedCommand) : Step :=
  match nounOf command with
  | None => (e, session, result false "Light what?")
  | Some n =>
      let player := Session.player session in
      match equippedLight player with
      | None =>
          (e, session,
           result false "You need to equip a light source first before you can turn it on.")
      | Some equippedLightId =>
          if negb (definitionMatches e equippedLightId n) then
            (e, session,
             result false ("You don't have " +:+ quote +:+ n +:+ quote
                           +:+ " equipped as a light source."))
          else if Player.flag player (equippedLightId +:+ "_on") then
            (e, session, result false "The light is already on.")
          else
            let flags' := <[equippedLightId +:+ "_on" := true]> (Player.flags player) in
            (e, Session.set_player (Player.set_flags flags' player) session,
             resultWith true "You turn on the flashlight. A bright beam illuminates the area."
               (mkStateChanges None None None None None (Some flags') None None))
      end
  end.

Definition handleExtinguish (e : t) (session : Session.t) (command : ParsedCommand) : Step :=
  match nounOf command with
  | None => (e, session, result false "Extinguish what?")
  | Some n =>
      let player := Session.player session in
      match equippedLight player with
      | None => (e, session, result false "You don't have a light source equipped.")
      | Some equippedLightId =>
          if negb (definitionMatches e equippedLightId n) then
            (e, session,
             result false ("You don't have " +:+ quote +:+ n +:+ quote
                           +:+ " equipped as a light source."))
          else if negb (Player.flag player (equippedLightId +:+ "_on")) then
            (e, session, result false "The light is not on.")
          else
            let flags' := <[equippedLightId +:+ "_on" := false]> (Player.flags player) in
            (e, Session.set_player (Player.set_flags flags' player) session,
             resultWith true "You turn off the flashlight. The beam of light disappears."
               (mkStateChanges None None None None None (Some flags') None None))
      end
  end.

Definition withNoun (command : ParsedCommand) (n : string) : ParsedCommand :=
  {| verb := verb command; noun := Some n; preposition := preposition command;
     indirectObject := indirectObject command; raw := raw command;
     valid := valid command; errorMessage := errorMessage command |}.

Definition handleTurn (e : t) (session : Session.t) (command : ParsedCommand) : Step :=
  match nounOf command with
  | None => (e, session, result false "Turn what?")
  | Some n =>
      let given :=
        match preposition command with
        | Some a => if truthy a then Some (a, n) else None
        | None => None
        end in
      let split :=
        match given with
        | Some ai => Some ai
        | None =>
            match split n " "%char with
            | first :: ((_ :: _) as others) => Some (toLowerCase first, join " " others)
            | _ => None
            end
        end in
      match split with
      | None => (e, session, result false "Turn what on or off?")
      | Some (action, itemName) =>
          if String.eqb action "on" then handleLight e session (withNoun command itemName)
          else if String.eqb action "off" then
            handleExtinguish e session (withNoun command itemName)
          else (e, session, result false "You can only turn things on or off.")
      end
  end.

Definition handleOpen (e : t) (session : Session.t) (command : ParsedCommand) : Step :=
  match nounOf command with
  | None => (e, session, result false "Open what?")
  | Some n => (e, session, result false ("You can't open the " +:+ n +:+ "."))
  end.

Definition handleClose (e : t) (session : Session.t) (command : ParsedCommand) : Step :=
  match nounOf command with
  | None => (e, session, result false "Close what?")
  | Some n => (e, session, result false ("You can't close the " +:+ n +:+ "."))
  end.

Definition handleAttack (e : t) (session : Session.t) (command : ParsedCommand) : Step :=
  if negb (Session.inCombat session) then
    (e, session, result false "There's nothing to attack here.")
  else (e, session, result true "You attack!").

Definition handleCast (e : t) (session : Session.t) (command : ParsedCommand) : Step :=
  match nounOf command with
  | None => (e, session, result false "Cast what spell?")
  | Some n =>
      if (Player.mp (Session.player session) <=? 0)%Z then
        (e, session, result false "You don't have enough mental energy to cast spells.")
      else
        (e, session,
         result false ("You don't know a spell called " +:+ quote +:+ n +:+ quote +:+ "."))
  end.

Definition handleRest (e : t) (session : Session.t) (_command : ParsedCommand) : Step :=
  if Session.inCombat session then
    (e, session, result false "You can't rest during combat!")
  else
    let player := Session.player session in
    let hpRecovered :=
      Z.min (restHpRecovery (config e)) (numSub (Player.maxHp player) (Player.hp player)) in
    let mpRecovered :=
      Z.min (restMpRecovery (config e)) (numSub (Player.maxMp player) (Player.mp player)) in
    let hp' := numAdd (Player.hp player) hpRecovered in
    let mp' := numAdd (Player.mp player) mpRecovered in
    (e, Session.set_player (Player.set_mp mp' (Player.set_hp hp' player)) session,
     resultWith true
       ("You rest for a while." +:+ nl +:+ "HP recovered: " +:+ numberToString hpRecovered
        +:+ nl +:+ "MP recovered: " +:+ numberToString mpRecovered)
       (mkStateChanges None None None None None None (Some hp') (Some mp'))).

Definition helpText : string := "
**Available Commands:**

**Movement:** go [direction], north, south, east, west, up, down
**Looking:** look, examine [object]
**Items:** take [item], drop [item], use [item], inventory
**Equipment:** equip [item], unequip [item]
**Light:** turn on [item], turn off [item], light [item], extinguish [item]
**Interaction:** open [object], close [object]
**Combat:** attack, cast [spell]
**Other:** rest, help, restart

**Tips:**
- Examine everything carefully
- Equip weapons, armor, accessories, and lights from your inventory
- Watch your HP and MP
- Some paths may require items or skills
- Use flashlights to light up dark areas
- Use 'restart' to begin again from the start
".

Definition handleHelp (e : t) (session : Session.t) (_command : ParsedCommand) : Step :=
  (e, session, result true helpText).

Definition handleEquip (e : t) (session : Session.t) (command : ParsedCommand) : Step :=
  match nounOf command with
  | None => (e, session, result false "Equip what?")
  | Some n =>
      let player := Session.player session in
      let missing :=
        (e, session,
         result false ("You don't have " +:+ quote +:+ n +:+ quote +:+ ".")) in
      match findIndex (itemMatches n) (Player.inventory player) with
      | None => missing
      | Some itemIndex =>
          match Player.inventory player !! itemIndex with
          | None => missing (* no such case: itemIndex is an index of the list *)
          | Some item =>
              match Item.equipmentSlot item with
              | Some slot =>
                  if negb (Item.equippable item) then
                    (e, session,
                     result false ("You can't equip the " +:+ Item.name item +:+ "."))
                  else
                    let currentItem :=
                      match Equipped.get (Player.equippedItems player) slot with
                      | Some currentEquipped =>
                          if truthy currentEquipped then
                            find (fun i => String.eqb (Item.id i) currentEquipped)
                                 (Player.inventory player)
                          else None
                      | None => None
                      end in
                    match currentItem with
                    | Some current =>
                        (e, session,
                         result false
                           ("You already have " +:+ Item.name current +:+ " equipped in the "
                            +:+ slotName slot +:+ " slot. Unequip it first."))
                    | None =>
                        let equipped' :=
                          Equipped.set (Player.equippedItems player) slot (Item.id item) in
                        let inventory' := splice1 itemIndex (Player.inventory player) in
                        (e,
                         Session.set_player
                           (Player.set_inventory inventory'
                              (Player.set_equippedItems equipped' player))
                           session,
                         resultWith true ("You equip the " +:+ Item.name item +:+ ".")
                           (mkStateChanges None None None (Some inventory') (Some equipped')
                                           None None None))
                    end
              | None =>
                  (e, session,
                   result false ("You can't equip the " +:+ Item.name item +:+ "."))
              end
          end
      end
  end.

(** The second scan of handleUnequip: the object with the given id in the
    first room, in [Map] order, that holds one. *)
Fixpoint findDefinitionIn (rooms : list (string * Room.t)) (itemId : string)
  : option Obj.t :=
  match rooms with
  | [] => None
  | (_, room) :: rest =>
      match find (fun o => String.eqb (Obj.id o) itemId) (Room.objects room) with
      | Some obj => Some obj
      | None => findDefinitionIn rest itemId
      end
  end.

Definition findDefinition (e : t) (itemId : string) : option Obj.t :=
  findDefinitionIn (rooms e) itemId.

Definition handleUnequip (e : t) (session : Session.t) (command : ParsedCommand) : Step :=
  match nounOf command with
  | None => (e, session, result false "Unequip what?")
  | Some n =>
      let player := Session.player session in
      let found :=
        find (fun si => truthy (snd si) && definitionMatches e (snd si) n)
             (Player.equippedItems player) in
      match found with
      | None =>
          (e, session,
           result false ("You don't have " +:+ quote +:+ n +:+ quote +:+ " equipped."))
      | Some (foundSlot, equippedItemId) =>
          match findDefinition e equippedItemId with
          | None => (e, session, result false "Error: Could not find item data.")
          | Some obj =>
              let item :=
                {| Item.id := Obj.id obj;
                   Item.name := Obj.name obj;
                   Item.description := Obj.description obj;
                   Item.quantity := 1;
                   Item.equippable := true;
                   Item.equipmentSlot := Obj.equipmentSlot obj;
                   Item.usable := true;
                   Item.weight := 1 |} in
              let inventory' := Player.inventory player ++ [item] in
              let equipped' := Equipped.remove (Player.equippedItems player) foundSlot in
              (e,
               Session.set_player
                 (Player.set_equippedItems equipped'
                    (Player.set_inventory inventory' player))
                 session,
               resultWith true ("You unequip the " +:+ Obj.name obj +:+ ".")
                 (mkStateChanges None None None (Some inventory') (Some equipped')
                                 None None None))
          end
      end
  end.

(** The reset of one room by restart: every object's [taken] cleared and
    [state.visited] set to false. *)
Definition resetRoom (room : Room.t) : Room.t :=
  Room.set_state (<["visited" := false]> (Room.state room))
    (Room.set_objects (map (Obj.set_taken false) (Room.objects room)) room).

Definition handleRestart (e : t) (session : Session.t) (_command : ParsedCommand) : Step :=
  let player' := createNewPlayer e (Player.name (Session.player session)) "ROOM_001" in
  let e' := set_rooms (map (fun kr => (fst kr, resetRoom (snd kr))) (rooms e)) e in
  (e', Session.set_player player' session,
   resultWith true "Game restarted. You awaken once again in the cryogenic chamber..."
     (mkStateChanges None (Some "ROOM_001") (Some []) (Some (Player.inventory player'))
                     None None None None)).

Definition setWorldState (e : t) (key : string) (value : bool) : t :=
  mk (rooms e) (config e) (<[key := value]> (worldState e)).

Definition getWorldState (e : t) (key : string) : bool :=
  default false (worldState e !! key).

Definition dispatch (e : t) (session : Session.t) (command : ParsedCommand) : Step :=
  let v := verb command in
  if String.eqb v "look" then handleLook e session command
  else if String.eqb v "go" then handleGo e session command
  else if String.eqb v "take" then handleTake e session command
  else if String.eqb v "drop" then handleDrop e session command
  else if String.eqb v "examine" then handleExamine e session command
  else if String.eqb v "inventory" then handleInventory e session command
  else if String.eqb v "use" then handleUse e session command
  else if String.eqb v "turn" then handleTurn e session command
  else if String.eqb v "light" then handleLight e session command
  else if String.eqb v "extinguish" then handleExtinguish e session command
  else if String.eqb v "open" then handleOpen e session command
  else if String.eqb v "close" then handleClose e session command
  else if String.eqb v "attack" then handleAttack e session command
  else if String.eqb v "cast" then handleCast e session command
  else if String.eqb v "rest" then handleRest e session command
  else if String.eqb v "help" then handleHelp e session command
  else if String.eqb v "restart" then handleRestart e session command
  else if String.eqb v "equip" then handleEquip e session command
  else if String.eqb v "unequip" then handleUnequip e session command
  else (e, session,
        result false ("I don't know how to " +:+ quote +:+ v +:+ quote +:+ ".")).

(** [processCommand]: a [TypeError] thrown by the parser propagates to the
    caller before any handler has run. *)
Definition processCommand (e : t) (session : Session.t) (input : string)
  : Outcome Step :=
  match CommandParser.parse input with
  | ThrowsTypeError => ThrowsTypeError
  | Returns command =>
      if negb (valid command) then
        Returns (e, session,
                 result false (orElse (errorMessage command)
                                      "I don't understand that command."))
      else Returns (dispatch e session command)
  end.

End GameEngine.

(** ** The configured starting room (server/src/websocket/WebSocketServer.ts,
    server/src/index.ts)

    Of the transport only the configuration the engine statements refer
    to: the starting room the handler is constructed with, and the session
    it creates for a new connection. *)

Module WebSocketHandler.

Record t := mk {
  engine : GameEngine.t;
  startingRoom : string
}.


(** The session [handleConnection] creates. *)
Definition handleConnection (h : t) : Session.t :=
  Session.mk (GameEngine.createNewPlayer (engine h) "Unknown" (startingRoom h)) false None.

End WebSocketHandler.

Module Server.


End Server.

(** ** Vocabulary of the statements *)

Section Vocabulary.
Import JS CommandParser.

(** The tokens after the split point, joined; absent when there are none. *)
Definition joined (l : list string) : option string :=
  match l with
  | [] => None
  | _ :: _ => Some (join " " l)
  end.

Definition notPreposition (t : string) : Prop := arrayIncludes PREPOSITIONS t = false.
Definition notArticle (t : string) : Prop := arrayIncludes ARTICLES t = false.

(** The verb a table value stands for: [go] for the direction shortcuts. *)
Definition canonicalOf (value : string) : string :=
  if startsWith value "go " then "go" else value.

(** The noun of [key foo]: the direction for a shortcut, [foo] otherwise. *)
Definition nounOfFoo (value : string) : option string :=
  if startsWith value "go " then split value " "%char !! 1%nat else Some "foo".

End Vocabulary.

(** ** A small world for the examples

    Four rooms around the starting room: a lit room with a hostile NPC to
    the north, a lit room whose alarm variant is active to the west, a dark
    room below, and an exit to the east whose destination was never loaded. *)

Module Sample.
Import JS GameEngine.

Definition object (id name : string) (slot : option EquipmentSlot) : Obj.t :=
  {| Obj.id := id; Obj.name := name; Obj.synonyms := None;
     Obj.description := "It looks ordinary."; Obj.initialLocation := loc_room;
     Obj.visibility := vis_always; Obj.requiresLight := false;
     Obj.takeable := true; Obj.taken := false; Obj.interactable := true;
     Obj.examineText := ""; Obj.equipmentSlot := slot; Obj.stateChanges := None |}.

Definition openExit (dest travel : string) : Exit.t :=
  {| Exit.to := dest; Exit.visible := true; Exit.oneWay := false;
     Exit.requires := None; Exit.blockedMessage := None; Exit.travelText := travel |}.

Definition chamber : Room.t :=
  {| Room.identity_id := "ROOM_001";
     Room.identity_canonicalName := "Cryogenic Chamber";
     Room.descriptions :=
       Descriptions.mk "You wake in a cold chamber." "A chamber of frosted pods."
                       "The chamber." "The chamber again." "It is pitch black." [];
     Room.lighting_isLit := true;
     Room.exits := [ ("north", openExit "ROOM_002" "You walk north.");
                     ("east", openExit "ROOM_404" "");
                     ("west", openExit "ROOM_003" "");
                     ("down", openExit "ROOM_004" "") ];
     Room.objects := [ object "flashlight" "Flashlight" (Some light_source);
                       object "lantern" "Old Lantern" (Some light_source);
                       object "rusty_key" "rusty key" None ];
     Room.npcs := [];
     Room.state := {[ "visited" := true ]} |}.

Definition corridor : Room.t :=
  {| Room.identity_id := "ROOM_002";
     Room.identity_canonicalName := "Corridor";
     Room.descriptions :=
       Descriptions.mk "A corridor you have never seen." "A long corridor."
                       "" "The corridor." "Darkness." [];
     Room.lighting_isLit := true;
     Room.exits := [ ("south", openExit "ROOM_001" "") ];
     Room.objects := [];
     Room.npcs := [ {| NPC.id := "rat"; NPC.name := "Giant Rat";
                       NPC.description := "A giant rat bares its teeth.";
                       NPC.hostile := true; NPC.spawnConditions := [];
                       NPC.despawnConditions := []; NPC.behavior := "aggressive" |} ];
     Room.state := {[ "visited" := false ]} |}.

Definition controlRoom : Room.t :=
  {| Room.identity_id := "ROOM_003";
     Room.identity_canonicalName := "Control Room";
     Room.descriptions :=
       Descriptions.mk "Consoles line the walls." "A room of dead consoles."
                       "Consoles." "The control room." "Darkness."
                       [ ("alarm", "Red lights flash.") ];
     Room.lighting_isLit := true;
     Room.exits := [ ("east", openExit "ROOM_001" "") ];
     Room.objects := [];
     Room.npcs := [];
     Room.state := {[ "visited" := false; "alarm" := true ]} |}.

Definition cellar : Room.t :=
  {| Room.identity_id := "ROOM_004";
     Room.identity_canonicalName := "Cellar";
     Room.descriptions :=
       Descriptions.mk "A damp cellar." "A damp cellar with a drain."
                       "The cellar." "The cellar." "You cannot see a thing." [];
     Room.lighting_isLit := false;
     Room.exits := [ ("up", openExit "ROOM_001" "") ];
     Room.objects := [ object "crowbar" "crowbar" (Some weapon) ];
     Room.npcs := [];
     Room.state := {[ "visited" := false ]} |}.

Definition engine : GameEngine.t :=
  loadRooms (GameEngine.mk [] DEFAULT_CONFIG {[ "power_on" := true ]})
            [chamber; corridor; controlRoom; cellar].

Definition session : Session.t :=
  Session.mk (createNewPlayer engine "Ripley" "ROOM_001") false None.

(** The engine and the session after a list of commands typed in order. *)
Definition play (inputs : list string) : GameEngine.t * Session.t :=
  fold_left (fun st input =>
               match processCommand (fst st) (snd st) input with
               | Returns (e, s, _) => (e, s)
               | ThrowsTypeError => st
               end)
            inputs (engine, session).

End Sample.

(** ** Vocabulary of the engine statements *)

Section EngineVocabulary.
Import JS CommandParser GameEngine.

(** The reading of [hasLight] in the design: the room is lit, or the light
    source the player has equipped is switched on. *)
Definition lightAvailable (room : Room.t) (player : Player.t) : Prop :=
  Room.lighting_isLit room = true
  \/ exists lightId,
       Equipped.get (Player.equippedItems player) light_source = Some lightId
       /\ lightId <> ""
       /\ Player.flags player !! (lightId +:+ "_on") = Some true.

(** Every room is stored under its own id, as [loadRooms] stores it. *)
Definition storeKeyed (e : GameEngine.t) : Prop :=
  forall id room, getRoom e id = Some room -> Room.identity_id room = id.



Definition engineOf (st : Step) : GameEngine.t := fst (fst st).
Definition sessionOf (st : Step) : Session.t := snd (fst st).
Definition resultOf (st : Step) : CommandResult := snd st.

(** A handler that leaves the combat mark and the location as they are. *)
Definition stays (h : GameEngine.t -> Session.t -> ParsedCommand -> Step) : Prop :=
  forall e s c,
    Session.inCombat (sessionOf (h e s c)) = Session.inCombat s
    /\ Player.location (Session.player (sessionOf (h e s c)))
       = Player.location (Session.player s).

(** A handler that leaves the engine as it is. *)
Definition readsOnly (h : GameEngine.t -> Session.t -> ParsedCommand -> Step) : Prop :=
  forall e s c, engineOf (h e s c) = e.


(** The text go puts before the description of the destination. *)
Definition travelPrefix (exit : Exit.t) : string :=
  if truthy (Exit.travelText exit) then Exit.travelText exit +:+ nl +:+ nl else "".










(** The verbs the help text lists under combat. *)
Definition combatVerb (v : string) : bool :=
  String.eqb v "attack" || String.eqb v "cast".

(** Sessions the engine can produce: a new player outside combat, and what
    [processCommand] makes of a session already produced. *)
Inductive reachable : GameEngine.t -> Session.t -> Prop :=
| reach_new (e : GameEngine.t) (name start : string) :
    reachable e (Session.mk (createNewPlayer e name start) false None)
| reach_command (e e' : GameEngine.t) (s s' : Session.t) (input : string)
    (r : CommandResult) :
    reachable e s ->
    processCommand e s input = Returns (e', s', r) ->
    reachable e' s'.

(** The claim that combat cannot be left by other commands: in a session
    marked in-combat, a command whose verb is not a combat verb neither moves
    the player nor clears the mark. *)
Definition combatCannotBeBypassed : Prop :=
  forall e s, reachable e s -> Session.inCombat s = true ->
  forall input command e' s' r,
    parse input = Returns command -> valid command = true ->
    combatVerb (verb command) = false ->
    processCommand e s input = Returns (e', s', r) ->
    Player.location (Session.player s') = Player.location (Session.player s)
    /\ Session.inCombat s' = true.

End EngineVocabulary.

(** ** Vocabulary of the further statements *)

Section FurtherVocabulary.
Import JS CommandParser GameEngine.

(** A string of whitespace only; the empty string is one. *)
Fixpoint blank (s : string) : bool :=
  match s with
  | EmptyString => true
  | String c s' => isWhiteSpace c && blank s'
  end.

(** The outcome of a parse with the echo of the input left out. *)
Definition forgetRaw (o : Outcome ParsedCommand) : Outcome ParsedCommand :=
  match o with
  | Returns c =>
      Returns {| verb := verb c; noun := noun c; preposition := preposition c;
                 indirectObject := indirectObject c; raw := "";
                 valid := valid c; errorMessage := errorMessage c |}
  | ThrowsTypeError => ThrowsTypeError
  end.

(** What [parse] makes of a canonical verb that is not a direction shortcut
    and of the tokens left once the articles are removed. *)
Definition parseObjects (canonicalVerb input : string) (objectTokens : list string)
  : ParsedCommand :=
  match objectTokens with
  | [] => bareCommand canonicalVerb input
  | _ :: _ =>
      match prepositionLoop 0 objectTokens with
      | Some (S k, p) =>
          {| verb := canonicalVerb;
             noun := orUndefined (join " " (take (S k) objectTokens));
             preposition := Some p;
             indirectObject := orUndefined (join " " (drop (S k + 1) objectTokens));
             raw := input; valid := true; errorMessage := None |}
      | Some (O, _) =>
          {| verb := canonicalVerb;
             noun := orUndefined (join " " (drop 1 objectTokens));
             preposition := objectTokens !! 0%nat;
             indirectObject := None;
             raw := input; valid := true; errorMessage := None |}
      | None =>
          {| verb := canonicalVerb;
             noun := orUndefined (join " " objectTokens);
             preposition := None; indirectObject := None;
             raw := input; valid := true; errorMessage := None |}
      end
  end.

(** The verbs a valid parse can carry. *)
Definition canonicalVerbs : list string :=
  map (fun kv => canonicalOf (snd kv)) VERB_SYNONYMS.

(** The requirement of an exit, as [canUseExit] tests it. A stat the
    player record does not have never blocks. *)
Definition requirementMet (e : GameEngine.t) (player : Player.t) (req : Requirement.t)
  : Prop :=
  match Requirement.type req with
  | req_item =>
      exists item, In item (Player.inventory player) /\ Item.id item = Requirement.id req
  | req_state => worldState e !! Requirement.id req = Some true
  | req_skill => In (Requirement.id req) (Player.skills player)
  | req_stat =>
      forall v, Stats.get (Player.stats player) (Requirement.id req) = Some v ->
                (default 0 (Requirement.value req) <= v)%Z
  end.

(** The message of a denial when the exit has no message of its own. *)
Definition defaultBlocked (ty : RequirementType) : string :=
  match ty with
  | req_item => "You can't go that way."
  | req_state => "The way is blocked."
  | req_skill => "You lack the required skill."
  | req_stat => "You're not capable of that."
  end.

(** An NPC that attacks on arrival: hostile, with every spawn condition
    holding. *)
Definition attacksOnArrival (room : Room.t) (player : Player.t) (npc : NPC.t) : bool :=
  NPC.hostile npc && checkNpcSpawnConditions (NPC.spawnConditions npc) room player.

(** What no command but restart changes of a player. *)
Definition constants (p : Player.t) :=
  (Player.name p, Player.gold p, Player.xp p, Player.level p, Player.stats p,
   Player.maxHp p, Player.maxMp p, Player.statusEffects p, Player.notes p).

(** A handler that leaves the world state, the configuration and the
    constants of the player alone, keeps hp and mp, and changes nothing at
    all when it fails. *)
Definition orderly (h : GameEngine.t -> Session.t -> ParsedCommand -> Step) : Prop :=
  forall e s c,
    worldState (engineOf (h e s c)) = worldState e
    /\ config (engineOf (h e s c)) = config e
    /\ constants (Session.player (sessionOf (h e s c))) = constants (Session.player s)
    /\ Player.hp (Session.player (sessionOf (h e s c))) = Player.hp (Session.player s)
    /\ Player.mp (Session.player (sessionOf (h e s c))) = Player.mp (Session.player s)
    /\ (success (resultOf (h e s c)) = false ->
        engineOf (h e s c) = e /\ sessionOf (h e s c) = s).

(** The frame of one dispatched command. *)
Definition framed (v : string) (e : GameEngine.t) (s : Session.t) (st : Step) : Prop :=
  worldState (engineOf st) = worldState e
  /\ config (engineOf st) = config e
  /\ Player.name (Session.player (sessionOf st)) = Player.name (Session.player s)
  /\ (v <> "restart" ->
      constants (Session.player (sessionOf st)) = constants (Session.player s))
  /\ (v <> "rest" -> v <> "restart" ->
      Player.hp (Session.player (sessionOf st)) = Player.hp (Session.player s)
      /\ Player.mp (Session.player (sessionOf st)) = Player.mp (Session.player s))
  /\ (success (resultOf st) = false ->
      engineOf st = e
      /\ Session.inCombat (sessionOf st) = Session.inCombat s
      /\ Session.currentEnemy (sessionOf st) = Session.currentEnemy s
      /\ Player.set_visitedRooms (Player.visitedRooms (Session.player s))
           (Session.player (sessionOf st)) = Session.player s
      /\ (v <> "go" -> sessionOf st = s)).

(** The inventory entry unequip rebuilds from the definition of an object. *)
Definition unequippedItem (obj : Obj.t) : Item.t :=
  {| Item.id := Obj.id obj;
     Item.name := Obj.name obj;
     Item.description := Obj.description obj;
     Item.quantity := 1;
     Item.equippable := true;
     Item.equipmentSlot := Obj.equipmentSlot obj;
     Item.usable := true;
     Item.weight := 1 |}.

(** The last room of the data with the given id. *)
Definition lastWithId (roomData : list Room.t) (id : string) : option Room.t :=
  find (fun room => String.eqb (Room.identity_id room) id) (rev roomData).

(** The ids of the loaded rooms, in the order of the [Map]. *)
Definition roomIds (e : GameEngine.t) : list string := map fst (rooms e).

Definition set_requiresLight (v : bool) (o : Obj.t) : Obj.t :=
  Obj.mk (Obj.id o) (Obj.name o) (Obj.synonyms o) (Obj.description o)
         (Obj.initialLocation o) (Obj.visibility o) v (Obj.takeable o) (Obj.taken o)
         (Obj.interactable o) (Obj.examineText o) (Obj.equipmentSlot o)
         (Obj.stateChanges o).

(** The room with the [requiresLight] marks of its objects chosen anew. *)
Definition withRequiresLight (f : Obj.t -> bool) (room : Room.t) : Room.t :=
  Room.set_objects (map (fun o => set_requiresLight (f o) o) (Room.objects room)) room.



(** Every character is an ASCII character (a code below 128). *)
Fixpoint asciiOnly (s : string) : bool :=
  match s with
  | EmptyString => true
  | String c s' => (nat_of_ascii c <? 128)%nat && asciiOnly s'
  end.

(** The verbs [processCommand] has a case for. *)
Definition handledVerbs : list string :=
  [ "look"; "go"; "take"; "drop"; "examine"; "inventory"; "use"; "turn"; "light";
    "extinguish"; "open"; "close"; "attack"; "cast"; "rest"; "help"; "restart";
    "equip"; "unequip" ].

(** The verbs whose handler assigns to the session or to a room. *)
Definition changingVerbs : list string :=
  [ "look"; "go"; "take"; "drop"; "examine"; "turn"; "light"; "extinguish"; "rest";
    "restart"; "equip"; "unequip" ].

(** An inventory entry as take and unequip build it: usable, one piece. *)
Definition engineMade (item : Item.t) : Prop :=
  Item.usable item = true /\ Item.quantity item = 1%Z /\ Item.weight item = 1%Z.

(** The inventory of the player of a session holds entries built by the
    engine only. *)
Definition stocked (s : Session.t) : Prop :=
  Forall engineMade (Player.inventory (Session.player s)).

(** A handler that keeps the inventory so. *)
Definition keepsStock (h : GameEngine.t -> Session.t -> ParsedCommand -> Step) : Prop :=
  forall e s c, stocked s -> stocked (sessionOf (h e s c)).

End FurtherVocabulary.

(** A room with an object that teaches a skill, and a player standing in
    it. *)
Module Archive.
Import JS GameEngine.

Definition terminal : Obj.t :=
  {| Obj.id := "terminal"; Obj.name := "Dusty Terminal";
     Obj.synonyms := Some ["console"];
     Obj.description := "A terminal under a film of dust.";
     Obj.initialLocation := loc_room;
     Obj.visibility := vis_conditional; Obj.requiresLight := true;
     Obj.takeable := false; Obj.taken := false; Obj.interactable := true;
     Obj.examineText := "Lines of code scroll by. You begin to follow them.";
     Obj.equipmentSlot := None;
     Obj.stateChanges := Some [("ability_learned", "hacking")] |}.

Definition archive : Room.t :=
  {| Room.identity_id := "ROOM_005";
     Room.identity_canonicalName := "Archive";
     Room.descriptions :=
       Descriptions.mk "Shelves of tapes." "An archive of tapes." "The archive."
                       "The archive." "Darkness." [];
     Room.lighting_isLit := true;
     Room.exits := [];
     Room.objects := [terminal];
     Room.npcs := [];
     Room.state := {[ "visited" := false ]} |}.

Definition engine : GameEngine.t := loadRooms Sample.engine [archive].

Definition session : Session.t :=
  Session.mk (createNewPlayer engine "Ash" "ROOM_005") false None.

(** The engine and the session after a list of commands typed in order. *)
Definition play (inputs : list string) : GameEngine.t * Session.t :=
  fold_left (fun st input =>
               match processCommand (fst st) (snd st) input with
               | Returns (e, s, _) => (e, s)
               | ThrowsTypeError => st
               end)
            inputs (engine, session).

End Archive.

(** * Properties *)

(** ** The parser *)

Section Parser.
Import JS CommandParser.

Lemma truthy_app_l (a b : string) : truthy a = true -> truthy (a +:+ b) = true.
Proof. destruct a; [discriminate | reflexivity]. Qed.

Lemma truthy_app_r (a b : string) : truthy b = true -> truthy (a +:+ b) = true.
Proof. destruct a; [simpl; auto | reflexivity]. Qed.

Lemma join_truthy (sep : string) (l : list string) :
  l <> [] -> Forall (fun t => truthy t = true) l -> truthy (join sep l) = true.
Proof.
  destruct l as [|x l]; [congruence|].
  intros _ H. apply Forall_cons_1 in H as [Hx _].
  destruct l; simpl; [assumption | by apply truthy_app_l].
Qed.

Lemma orUndefined_joined (l : list string) :
  Forall (fun t => truthy t = true) l -> orUndefined (join " " l) = joined l.
Proof.
  intros H. destruct l as [|x l]; [reflexivity|].
  unfold orUndefined. rewrite join_truthy; [reflexivity | congruence | assumption].
Qed.

Lemma tokenize_truthy (s : string) : Forall (fun t => truthy t = true) (tokenize s).
Proof.
  unfold tokenize. apply list.Forall_forall. intros t Ht.
  apply list_elem_of_filter in Ht. tauto.
Qed.

Lemma prepositionLoop_none (l : list string) (i : nat) :
  Forall notPreposition l -> prepositionLoop i l = None.
Proof.
  revert i. induction l as [|t l IH]; intros i H; [reflexivity|].
  apply Forall_cons_1 in H as [Ht Hl]. cbn [prepositionLoop].
  unfold notPreposition in Ht. rewrite Ht. by apply IH.
Qed.

Lemma prepositionLoop_first (before after : list string) (p : string) (i : nat) :
  Forall notPreposition before -> arrayIncludes PREPOSITIONS p = true ->
  prepositionLoop i (before ++ p :: after) = Some (i + length before, p)%nat.
Proof.
  revert i. induction before as [|t l IH]; intros i H Hp.
  - cbn [app prepositionLoop length]. rewrite Hp. do 2 f_equal. lia.
  - apply Forall_cons_1 in H as [Ht Hl]. cbn [app prepositionLoop length].
    unfold notPreposition in Ht. rewrite Ht.
    rewrite IH by assumption. do 2 f_equal. lia.
Qed.

(** What [parse] does once the first token has resolved to a canonical verb
    that is not a direction shortcut and object tokens remain. *)
Lemma parse_objects (input v canonicalVerb : string) (rest : list string) :
  tokenize (trim (toLowerCase input)) = v :: rest ->
  assoc VERB_SYNONYMS v = Some canonicalVerb ->
  startsWith canonicalVerb "go " = false ->
  filter notArticle rest <> [] ->
  parse input =
    match prepositionLoop 0 (filter notArticle rest) with
    | Some (S k, p) =>
        Returns {| verb := canonicalVerb;
                   noun := orUndefined (join " " (take (S k) (filter notArticle rest)));
                   preposition := Some p;
                   indirectObject :=
                     orUndefined (join " " (drop (S k + 1) (filter notArticle rest)));
                   raw := input; valid := true; errorMessage := None |}
    | Some (O, _) =>
        Returns {| verb := canonicalVerb;
                   noun := orUndefined (join " " (drop 1 (filter notArticle rest)));
                   preposition := filter notArticle rest !! 0%nat;
                   indirectObject := None;
                   raw := input; valid := true; errorMessage := None |}
    | None =>
        Returns {| verb := canonicalVerb;
                   noun := orUndefined (join " " (filter notArticle rest));
                   preposition := None; indirectObject := None;
                   raw := input; valid := true; errorMessage := None |}
    end.
Proof.
  intros Htok Hv Hgo Hobj. unfold parse.
  assert (Hn : truthy (trim (toLowerCase input)) = true).
  { destruct (trim (toLowerCase input)); [discriminate Htok | reflexivity]. }
  rewrite Hn. cbn [negb]. rewrite Htok. unfold get_prop. rewrite Hv, Hgo.
  destruct rest as [|r rest]; [by destruct Hobj|].
  cbn [length Nat.eqb].
  change (fun t : string => arrayIncludes ARTICLES t = false) with notArticle.
  destruct (filter notArticle (r :: rest)) as [|o objs] eqn:Ho; [by destruct Hobj|].
  reflexivity.
Qed.

Lemma take_split (before : list string) (p : string) (after : list string) (n : nat) :
  n = length before -> take n (before ++ p :: after) = before.
Proof. intros ->. apply take_app_length. Qed.

Lemma drop_split (before : list string) (p : string) (after : list string) (n : nat) :
  n = (length before + 1)%nat -> drop n (before ++ p :: after) = after.
Proof.
  intros ->. replace (before ++ p :: after) with ((before ++ [p]) ++ after)
    by (by rewrite <- app_assoc).
  replace (length before + 1)%nat with (length (before ++ [p]))
    by (rewrite length_app; simpl; lia).
  apply drop_app_length.
Qed.

(** C7. When the first token is a recognized verb that is not a direction
    shortcut, the tokens left after the determiners are removed are split at
    the first preposition: a preposition at an interior position gives the
    tokens before it as noun and the tokens after it (later prepositions
    included) as indirect object; a preposition in first position is recorded
    and the tokens after it are the noun, with no indirect object; without a
    preposition all the tokens are the noun. *)
Theorem parse_splits_at_first_preposition
    (input v canonicalVerb : string) (rest objectTokens : list string) :
  tokenize (trim (toLowerCase input)) = v :: rest ->
  assoc VERB_SYNONYMS v = Some canonicalVerb ->
  startsWith canonicalVerb "go " = false ->
  filter notArticle rest = objectTokens ->
  (forall before p after,
      objectTokens = before ++ p :: after ->
      before <> [] ->
      Forall notPreposition before ->
      arrayIncludes PREPOSITIONS p = true ->
      parse input =
        Returns {| verb := canonicalVerb;
                   noun := Some (join " " before);
                   preposition := Some p;
                   indirectObject := joined after;
                   raw := input; valid := true; errorMessage := None |})
  /\ (forall p after,
      objectTokens = p :: after ->
      arrayIncludes PREPOSITIONS p = true ->
      parse input =
        Returns {| verb := canonicalVerb;
                   noun := joined after;
                   preposition := Some p;
                   indirectObject := None;
                   raw := input; valid := true; errorMessage := None |})
  /\ (objectTokens <> [] ->
      Forall notPreposition objectTokens ->
      parse input =
        Returns {| verb := canonicalVerb;
                   noun := Some (join " " objectTokens);
                   preposition := None;
                   indirectObject := None;
                   raw := input; valid := true; errorMessage := None |}).
Proof.
  intros Htok Hv Hgo Hobj.
  assert (Htruthy : Forall (fun t => truthy t = true) objectTokens).
  { subst objectTokens. apply list.Forall_forall. intros t Ht.
    apply list_elem_of_filter in Ht as [_ Ht].
    pose proof (tokenize_truthy (trim (toLowerCase input))) as Hall.
    rewrite Htok in Hall. apply Forall_cons_1 in Hall as [_ Hall].
    by apply (proj1 (list.Forall_forall _ _) Hall). }
  repeat split.
  - intros before p after Heq Hne Hbefore Hp.
    rewrite (parse_objects input v canonicalVerb rest Htok Hv Hgo)
      by (rewrite Hobj, Heq; by destruct before).
    rewrite Hobj, Heq, (prepositionLoop_first before after p 0 Hbefore Hp).
    destruct before as [|b before]; [congruence|]. cbn [length Nat.add].
    rewrite Heq in Htruthy. apply Forall_app in Htruthy as [Hb Ha].
    apply Forall_cons_1 in Ha as [_ Ha].
    match goal with
    | |- context [take ?n ?l] =>
        replace (take n l) with (b :: before)
          by (symmetry; apply (take_split (b :: before) p after); simpl; lia)
    end.
    match goal with
    | |- context [drop ?n ?l] =>
        replace (drop n l) with after
          by (symmetry; apply (drop_split (b :: before) p after); simpl; lia)
    end.
    rewrite !orUndefined_joined by assumption. reflexivity.
  - intros p after Heq Hp.
    rewrite (parse_objects input v canonicalVerb rest Htok Hv Hgo)
      by (rewrite Hobj, Heq; discriminate).
    rewrite Hobj, Heq. cbn [prepositionLoop]. rewrite Hp.
    rewrite Heq in Htruthy. apply Forall_cons_1 in Htruthy as [_ Ha].
    cbn [drop]. rewrite orUndefined_joined by assumption. reflexivity.
  - intros Hne Hnone.
    rewrite (parse_objects input v canonicalVerb rest Htok Hv Hgo)
      by (by rewrite Hobj).
    rewrite Hobj, (prepositionLoop_none objectTokens 0 Hnone).
    rewrite orUndefined_joined by assumption.
    destruct objectTokens; [congruence | reflexivity].
Qed.

(** The three shapes on one sentence each: an interior preposition followed
    by a second one, a leading preposition, and no preposition. *)
Lemma parse_splits_at_first_preposition_witness :
  parse "  Put the LAMP on  the table with care " =
    Returns {| verb := "put"; noun := Some "lamp"; preposition := Some "on";
               indirectObject := Some "table with care";
               raw := "  Put the LAMP on  the table with care ";
               valid := true; errorMessage := None |}
  /\ parse "look at my book" =
    Returns {| verb := "look"; noun := Some "book"; preposition := Some "at";
               indirectObject := None; raw := "look at my book";
               valid := true; errorMessage := None |}
  /\ parse "take the rusty key" =
    Returns {| verb := "take"; noun := Some "rusty key"; preposition := None;
               indirectObject := None; raw := "take the rusty key";
               valid := true; errorMessage := None |}.
Proof.
  split; [|split].
  - apply (proj1 (parse_splits_at_first_preposition
             "  Put the LAMP on  the table with care " "put" "put"
             ["the"; "lamp"; "on"; "the"; "table"; "with"; "care"]
             ["lamp"; "on"; "table"; "with"; "care"]
             eq_refl eq_refl eq_refl eq_refl)
           ["lamp"] "on" ["table"; "with"; "care"]);
      [reflexivity | discriminate | repeat constructor | reflexivity].
  - apply (proj1 (proj2 (parse_splits_at_first_preposition
             "look at my book" "look" "look" ["at"; "my"; "book"] ["at"; "book"]
             eq_refl eq_refl eq_refl eq_refl))
           "at" ["book"]); reflexivity.
  - apply (proj2 (proj2 (parse_splits_at_first_preposition
             "take the rusty key" "take" "take" ["the"; "rusty"; "key"] ["rusty"; "key"]
             eq_refl eq_refl eq_refl eq_refl)));
      [discriminate | repeat constructor].
Defined.

(** Every value of the table is a non-empty string, so the test of
    [canonicalVerb] for truth never fails on a key of the table; the keys are
    pairwise distinct. *)
Lemma VERB_SYNONYMS_well_formed :
  Forall (fun kv => truthy (snd kv) = true) VERB_SYNONYMS
  /\ NoDup (map fst VERB_SYNONYMS).
Proof.
  split.
  - unfold VERB_SYNONYMS. repeat (constructor; [reflexivity|]). constructor.
  - apply (bool_decide_eq_true_1 (NoDup (map fst VERB_SYNONYMS))).
    vm_compute. reflexivity.
Qed.

(** Every key of the table, followed by [foo], parses to a valid command
    carrying the canonical verb of its table value; two keys with the same
    value therefore agree. *)
Lemma synonym_keys_resolve :
  Forall (fun kv =>
            parse (fst kv +:+ " foo") =
              Returns {| verb := canonicalOf (snd kv); noun := nounOfFoo (snd kv);
                         preposition := None; indirectObject := None;
                         raw := fst kv +:+ " foo"; valid := true;
                         errorMessage := None |})
         VERB_SYNONYMS.
Proof.
  unfold VERB_SYNONYMS.
  repeat (constructor; [vm_compute; reflexivity|]). constructor.
Qed.

Lemma synonyms_agree (k1 k2 value : string) (c1 c2 : ParsedCommand) :
  (k1, value) ∈ VERB_SYNONYMS -> (k2, value) ∈ VERB_SYNONYMS ->
  parse (k1 +:+ " foo") = Returns c1 -> parse (k2 +:+ " foo") = Returns c2 ->
  valid c1 = true /\ valid c2 = true /\ verb c1 = verb c2.
Proof.
  intros H1 H2 P1 P2.
  pose proof (proj1 (list.Forall_forall _ _) synonym_keys_resolve) as Hall.
  pose proof (Hall _ H1) as E1. pose proof (Hall _ H2) as E2. simpl in E1, E2.
  rewrite P1 in E1. rewrite P2 in E2.
  injection E1 as ->. injection E2 as ->. auto.
Qed.

(** A first token that is neither a key of the table nor a member of
    [Object.prototype] gives an invalid command whose message quotes it. *)
Lemma unknown_token_invalid (input firstToken : string) (rest : list string) :
  tokenize (trim (toLowerCase input)) = firstToken :: rest ->
  get_prop VERB_SYNONYMS firstToken = Undefined ->
  parse input =
    Returns (invalidCommand firstToken input
               ("I don't know how to " +:+ quote +:+ firstToken +:+ quote +:+ ".")).
Proof.
  intros Htok Hv. unfold parse.
  assert (Hn : truthy (trim (toLowerCase input)) = true).
  { destruct (trim (toLowerCase input)); [discriminate Htok | reflexivity]. }
  rewrite Hn. cbn [negb]. rewrite Htok, Hv. reflexivity.
Qed.

(** C8, at the input [constructor foo]. The first token is not a key of the
    synonym table, yet the lookup finds the member every object literal
    inherits and the call of [startsWith] on it throws: no invalid result
    naming the token is returned. The same happens for [__proto__]. *)
Theorem parse_inherited_member_throws :
  assoc VERB_SYNONYMS "constructor" = None
  /\ tokenize (trim (toLowerCase "constructor foo")) = ["constructor"; "foo"]
  /\ parse "constructor foo" = ThrowsTypeError
  /\ parse "__proto__" = ThrowsTypeError.
Proof. repeat split; reflexivity. Qed.

End Parser.

(** ** Lighting and room descriptions *)

Section Lighting.
Import JS CommandParser GameEngine.

Lemma truthy_true_iff (s : string) : truthy s = true <-> s <> "".
Proof. destruct s; simpl; split; congruence. Qed.

Lemma hasLight_lightAvailable (room : Room.t) (player : Player.t) :
  hasLight room player = true <-> lightAvailable room player.
Proof.
  unfold hasLight, lightAvailable, Player.flag.
  destruct (Room.lighting_isLit room); [tauto|].
  destruct (Equipped.get (Player.equippedItems player) light_source) as [lightId|].
  - destruct (truthy lightId) eqn:Ht.
    + apply truthy_true_iff in Ht. split.
      * intros H. right. exists lightId. repeat split; [assumption|].
        destruct (Player.flags player !! (lightId +:+ "_on")) as [[]|];
          simpl in H; congruence.
      * intros [H | (l & Hl & _ & Hf)]; [discriminate|].
        injection Hl as ->. by rewrite Hf.
    + split; [discriminate|].
      intros [H | (l & Hl & Hne & _)]; [discriminate|].
      injection Hl as ->. apply truthy_true_iff in Hne. congruence.
  - split; [discriminate|]. intros [H | (l & Hl & _)]; discriminate.
Qed.

(** C5. [hasLight] holds exactly when the room is lit or the equipped light
    source is switched on, and without light the description of a room is
    its dark text and nothing else: no object list, no exits, no NPCs. *)
Theorem dark_room_shows_only_dark_text
    (room : Room.t) (player : Player.t) (verbose : bool) :
  (hasLight room player = true <-> lightAvailable room player)
  /\ (hasLight room player = false ->
      getRoomDescription room player verbose = Descriptions.dark (Room.descriptions room)).
Proof.
  split; [apply hasLight_lightAvailable|].
  intros H. unfold getRoomDescription. by rewrite H.
Qed.

Lemma dark_room_shows_only_dark_text_witness :
  getRoomDescription Sample.cellar (Session.player Sample.session) true
  = "You cannot see a thing.".
Proof.
  apply (proj2 (dark_room_shows_only_dark_text
                  Sample.cellar (Session.player Sample.session) true)).
  reflexivity.
Defined.

End Lighting.

(** ** Restart *)

Section Restart.
Import JS CommandParser GameEngine.

Lemma processCommand_restart (e : GameEngine.t) (session : Session.t)
    (input : string) (command : ParsedCommand) :
  parse input = Returns command -> valid command = true -> verb command = "restart" ->
  processCommand e session input = Returns (handleRestart e session command).
Proof.
  intros Hp Hv Hverb. unfold processCommand, dispatch.
  rewrite Hp, Hv, Hverb. reflexivity.
Qed.





(** C9. Restart touches nothing but the [taken] flag of the objects, the
    [visited] flag of the rooms and the player of the session: the world
    state map and the configuration, every other room-state flag, the rest of
    every room and of every object, and the combat fields of the session are
    what they were. *)
Theorem restart_frame (e : GameEngine.t) (session : Session.t)
    (input : string) (command : ParsedCommand) :
  parse input = Returns command -> valid command = true -> verb command = "restart" ->
  exists e' session' r,
    processCommand e session input = Returns (e', session', r)
    /\ worldState e' = worldState e
    /\ config e' = config e
    /\ Session.inCombat session' = Session.inCombat session
    /\ Session.currentEnemy session' = Session.currentEnemy session
    /\ Forall2 (fun kr kr' =>
                  fst kr' = fst kr
                  /\ (forall key, key <> "visited" ->
                        Room.state (snd kr') !! key = Room.state (snd kr) !! key)
                  /\ Room.identity_id (snd kr') = Room.identity_id (snd kr)
                  /\ Room.identity_canonicalName (snd kr')
                     = Room.identity_canonicalName (snd kr)
                  /\ Room.descriptions (snd kr') = Room.descriptions (snd kr)
                  /\ Room.lighting_isLit (snd kr') = Room.lighting_isLit (snd kr)
                  /\ Room.exits (snd kr') = Room.exits (snd kr)
                  /\ Room.npcs (snd kr') = Room.npcs (snd kr)
                  /\ Forall2 (fun o o' => Obj.set_taken (Obj.taken o) o' = o)
                             (Room.objects (snd kr)) (Room.objects (snd kr')))
               (rooms e) (rooms e').
Proof.
  intros Hp Hv Hverb.
  rewrite (processCommand_restart e session input command Hp Hv Hverb).
  unfold handleRestart. eexists _, _, _. split; [reflexivity|].
  do 4 (split; [reflexivity|]).
  cbn [rooms set_rooms]. apply Forall2_fmap_r. apply Forall_Forall2_diag.
  apply list.Forall_forall. intros [k room] _. cbn [fst snd].
  split; [reflexivity|]. split.
  { intros key Hkey. unfold resetRoom. cbn [Room.state Room.set_state].
    by apply lookup_insert_ne. }
  do 6 (split; [reflexivity|]).
  unfold resetRoom. cbn [Room.objects Room.set_state Room.set_objects].
  apply Forall2_fmap_r. apply Forall_Forall2_diag.
  apply list.Forall_forall. intros o _. by destruct o.
Qed.

Lemma restart_frame_witness :
  exists e' session' r,
    processCommand (fst (Sample.play ["go west"; "go east"; "go north"]))
                   (snd (Sample.play ["go west"; "go east"; "go north"])) "restart"
      = Returns (e', session', r)
    /\ worldState e' !! "power_on" = Some true
    /\ Session.inCombat session' = true.
Proof.
  destruct (restart_frame
              (fst (Sample.play ["go west"; "go east"; "go north"]))
              (snd (Sample.play ["go west"; "go east"; "go north"]))
              "restart" (bareCommand "restart" "restart") eq_refl eq_refl eq_refl)
    as (e' & s' & r & H & Hw & _ & Hc & _ & _).
  exists e', s', r. split; [exact H|]. split; [by rewrite Hw | by rewrite Hc].
Defined.

End Restart.

(** ** Equipment *)

Section Equipment.
Import JS CommandParser GameEngine.

(** The check of handleEquip refuses when the id in the slot is also the id
    of an item still carried; nothing is changed then. *)
Lemma handleEquip_refuses_when_current_is_carried
    (e : GameEngine.t) (session : Session.t) (command : ParsedCommand)
    (n : string) (itemIndex : nat) (item current : Item.t) (slot : EquipmentSlot)
    (currentEquipped : string) :
  nounOf command = Some n ->
  findIndex (itemMatches n) (Player.inventory (Session.player session)) = Some itemIndex ->
  Player.inventory (Session.player session) !! itemIndex = Some item ->
  Item.equipmentSlot item = Some slot -> Item.equippable item = true ->
  Equipped.get (Player.equippedItems (Session.player session)) slot = Some currentEquipped ->
  truthy currentEquipped = true ->
  find (fun i => String.eqb (Item.id i) currentEquipped)
       (Player.inventory (Session.player session)) = Some current ->
  exists r, handleEquip e session command = (e, session, r) /\ success r = false.
Proof.
  intros Hn Hi Hitem Hslot Heq Hcur Ht Hfind. unfold handleEquip.
  rewrite Hn, Hi, Hitem, Hslot, Heq, Hcur, Ht, Hfind. cbn [negb]. eauto.
Qed.

(** C1, at a failing input. With the flashlight equipped (and so no longer
    carried) and the lantern carried, [equip lantern] finds the light-source
    slot occupied, succeeds all the same and overwrites the slot: the
    flashlight is then neither equipped nor carried. *)
Theorem equip_overwrites_occupied_slot :
  let e := fst (Sample.play ["take flashlight"; "equip flashlight"; "take lantern"]) in
  let s := snd (Sample.play ["take flashlight"; "equip flashlight"; "take lantern"]) in
  Equipped.get (Player.equippedItems (Session.player s)) light_source = Some "flashlight"
  /\ map Item.id (Player.inventory (Session.player s)) = ["lantern"]
  /\ exists e' s' r,
       processCommand e s "equip lantern" = Returns (e', s', r)
       /\ success r = true
       /\ message r = "You equip the Old Lantern."
       /\ Player.equippedItems (Session.player s') = [(light_source, "lantern")]
       /\ Player.inventory (Session.player s') = [].
Proof.
  cbv zeta. split; [reflexivity|]. split; [reflexivity|].
  eexists _, _, _. split; [vm_compute; reflexivity|]. repeat split.
Qed.

End Equipment.

(** ** Movement *)

Section Movement.
Import JS CommandParser GameEngine.

(** What go does on an exit that passes the gate and leads to a room that
    is not loaded: it fails with the internal error and restores the
    location, and of the player only [visitedRooms] may differ, by the
    destination pushed before the room was looked up. *)
Lemma handleGo_dangling_destination (e : GameEngine.t) (s : Session.t)
    (c : ParsedCommand) (room : Room.t) (direction : string) (exit : Exit.t)
    (m : option string) :
  getCurrentRoom e s = Some room ->
  option_map toLowerCase (noun c) = Some direction -> truthy direction = true ->
  get_prop (Room.exits room) direction = Own exit ->
  canUseExit e exit (Session.player s) = (true, m) ->
  getRoom e (Exit.to exit) = None ->
  exists s',
    handleGo e s c = (e, s', result false "Error: That room doesn't exist.")
    /\ Session.inCombat s' = Session.inCombat s
    /\ Session.currentEnemy s' = Session.currentEnemy s
    /\ Player.location (Session.player s') = Player.location (Session.player s)
    /\ Player.visitedRooms (Session.player s')
       = markVisited (Some (Exit.to exit)) (Player.visitedRooms (Session.player s))
    /\ Player.set_visitedRooms (Player.visitedRooms (Session.player s)) (Session.player s')
       = Session.player s.
Proof.
  intros Hroom Hdir Ht Hexit Hgate Hnone. unfold handleGo.
  rewrite Hroom, Hdir, Ht. cbn [negb]. rewrite Hexit, Hgate, Hnone.
  eexists. split; [reflexivity|]. repeat split.
  cbn [Session.player Session.set_player]. by destruct (Session.player s).
Qed.

(** C2, at a failing input. In the starting room the exit to the east leads
    to ROOM_404, which is not loaded. [go east] fails with the internal
    error and puts the location back, but the destination pushed on
    [visitedRooms] before the lookup stays there: the player is not the
    player of before the call. *)
Theorem go_dangling_exit_keeps_visited_entry :
  getRoom Sample.engine "ROOM_404" = None
  /\ exists e' s' r,
       processCommand Sample.engine Sample.session "go east" = Returns (e', s', r)
       /\ success r = false
       /\ message r = "Error: That room doesn't exist."
       /\ Player.location (Session.player s') = Player.location (Session.player Sample.session)
       /\ Player.visitedRooms (Session.player Sample.session) = []
       /\ Player.visitedRooms (Session.player s') = [Some "ROOM_404"]
       /\ Session.player s' <> Session.player Sample.session.
Proof.
  split; [reflexivity|].
  eexists _, _, _. split; [vm_compute; reflexivity|].
  repeat split. discriminate.
Qed.

End Movement.

(** ** Combat *)

Section Combat.
Import JS CommandParser GameEngine.

Ltac session_fields :=
  cbn [fst snd Session.inCombat Session.set_player Session.player];
  first [reflexivity | assumption | congruence].

Ltac handler_cases :=
  intros e s c; unfold sessionOf;
  repeat case_match; split; session_fields.

Lemma handleLook_stays : stays handleLook.
Proof. unfold handleLook. handler_cases. Qed.

Lemma handleExamine_stays : stays handleExamine.
Proof. apply handleLook_stays. Qed.

Lemma handleTake_stays : stays handleTake.
Proof. unfold handleTake. handler_cases. Qed.

Lemma handleDrop_stays : stays handleDrop.
Proof. unfold handleDrop. handler_cases. Qed.

Lemma handleInventory_stays : stays handleInventory.
Proof. unfold handleInventory. handler_cases. Qed.

Lemma handleUse_stays : stays handleUse.
Proof. unfold handleUse. handler_cases. Qed.

Lemma handleLight_stays : stays handleLight.
Proof. unfold handleLight. handler_cases. Qed.

Lemma handleExtinguish_stays : stays handleExtinguish.
Proof. unfold handleExtinguish. handler_cases. Qed.

Lemma handleTurn_stays : stays handleTurn.
Proof.
  intros e s c. unfold handleTurn.
  repeat case_match;
    first [apply handleLight_stays | apply handleExtinguish_stays
          | split; unfold sessionOf; session_fields].
Qed.

Lemma handleOpen_stays : stays handleOpen.
Proof. unfold handleOpen. handler_cases. Qed.

Lemma handleClose_stays : stays handleClose.
Proof. unfold handleClose. handler_cases. Qed.

Lemma handleAttack_stays : stays handleAttack.
Proof. unfold handleAttack. handler_cases. Qed.

Lemma handleCast_stays : stays handleCast.
Proof. unfold handleCast. handler_cases. Qed.

Lemma handleRest_stays : stays handleRest.
Proof. unfold handleRest. handler_cases. Qed.

Lemma handleHelp_stays : stays handleHelp.
Proof. unfold handleHelp. handler_cases. Qed.

Lemma handleEquip_stays : stays handleEquip.
Proof. unfold handleEquip. handler_cases. Qed.

Lemma handleUnequip_stays : stays handleUnequip.
Proof. unfold handleUnequip. handler_cases. Qed.

Lemma handleGo_keeps_combat (e : GameEngine.t) (s : Session.t) (c : ParsedCommand) :
  Session.inCombat s = true -> Session.inCombat (sessionOf (handleGo e s c)) = true.
Proof.
  intros H. unfold handleGo, sessionOf.
  repeat case_match; session_fields.
Qed.

Lemma handleRestart_keeps_combat (e : GameEngine.t) (s : Session.t) (c : ParsedCommand) :
  Session.inCombat (sessionOf (handleRestart e s c)) = Session.inCombat s.
Proof. reflexivity. Qed.

Lemma stays_in_combat (h : GameEngine.t -> Session.t -> ParsedCommand -> Step)
    (e : GameEngine.t) (s : Session.t) (c : ParsedCommand) :
  stays h -> Session.inCombat s = true ->
  Session.inCombat (sessionOf (h e s c)) = true
  /\ (verb c <> "go" -> verb c <> "restart" ->
      Player.location (Session.player (sessionOf (h e s c)))
      = Player.location (Session.player s)).
Proof. intros Hh H. destruct (Hh e s c) as [Hc Hl]. rewrite Hc, Hl. auto. Qed.

Ltac verb_case lem :=
  match goal with
  | |- context [sessionOf (if String.eqb (verb ?c) ?v then _ else _)] =>
      destruct (String.eqb_spec (verb c) v) as [Hverb | _]; cbv iota;
      [ lem | ]
  end.

Lemma dispatch_in_combat (e : GameEngine.t) (s : Session.t) (c : ParsedCommand) :
  Session.inCombat s = true ->
  Session.inCombat (sessionOf (dispatch e s c)) = true
  /\ (verb c <> "go" -> verb c <> "restart" ->
      Player.location (Session.player (sessionOf (dispatch e s c)))
      = Player.location (Session.player s)).
Proof.
  intros H. unfold dispatch. cbv zeta.
  verb_case ltac:(apply stays_in_combat; [apply handleLook_stays | assumption]).
  verb_case ltac:(split; [by apply handleGo_keeps_combat | intros; congruence]).
  verb_case ltac:(apply stays_in_combat; [apply handleTake_stays | assumption]).
  verb_case ltac:(apply stays_in_combat; [apply handleDrop_stays | assumption]).
  verb_case ltac:(apply stays_in_combat; [apply handleExamine_stays | assumption]).
  verb_case ltac:(apply stays_in_combat; [apply handleInventory_stays | assumption]).
  verb_case ltac:(apply stays_in_combat; [apply handleUse_stays | assumption]).
  verb_case ltac:(apply stays_in_combat; [apply handleTurn_stays | assumption]).
  verb_case ltac:(apply stays_in_combat; [apply handleLight_stays | assumption]).
  verb_case ltac:(apply stays_in_combat; [apply handleExtinguish_stays | assumption]).
  verb_case ltac:(apply stays_in_combat; [apply handleOpen_stays | assumption]).
  verb_case ltac:(apply stays_in_combat; [apply handleClose_stays | assumption]).
  verb_case ltac:(apply stays_in_combat; [apply handleAttack_stays | assumption]).
  verb_case ltac:(apply stays_in_combat; [apply handleCast_stays | assumption]).
  verb_case ltac:(apply stays_in_combat; [apply handleRest_stays | assumption]).
  verb_case ltac:(apply stays_in_combat; [apply handleHelp_stays | assumption]).
  verb_case ltac:(split; [by rewrite handleRestart_keeps_combat | intros; congruence]).
  verb_case ltac:(apply stays_in_combat; [apply handleEquip_stays | assumption]).
  verb_case ltac:(apply stays_in_combat; [apply handleUnequip_stays | assumption]).
  split; [exact H | reflexivity].
Qed.

(** What the code does keep of combat: while the session is marked
    in-combat no command clears the mark, every command other than go and
    restart leaves the player where they are, and rest is refused without
    any effect. *)
Lemma combat_mark_persists (e e' : GameEngine.t) (s s' : Session.t)
    (input : string) (r : CommandResult) :
  Session.inCombat s = true ->
  processCommand e s input = Returns (e', s', r) ->
  Session.inCombat s' = true
  /\ (forall command, parse input = Returns command ->
        verb command <> "go" -> verb command <> "restart" ->
        Player.location (Session.player s') = Player.location (Session.player s))
  /\ (forall command, parse input = Returns command -> valid command = true ->
        verb command = "rest" -> e' = e /\ s' = s /\ success r = false).
Proof.
  intros H Hrun. unfold processCommand in Hrun.
  destruct (parse input) as [command|]; [|discriminate].
  destruct (valid command) eqn:Hvalid; cbn [negb] in Hrun.
  - injection Hrun as Hrun.
    destruct (dispatch_in_combat e s command H) as [Hc Hl].
    rewrite Hrun in Hc, Hl. cbn [sessionOf fst snd] in Hc, Hl.
    split; [exact Hc|]. split.
    + intros c' Hc'. injection Hc' as <-. exact Hl.
    + intros c' Hc' _ Hrest. injection Hc' as <-.
      unfold dispatch in Hrun. rewrite Hrest in Hrun.
      cbn [String.eqb Ascii.eqb Bool.eqb] in Hrun.
      unfold handleRest in Hrun. rewrite H in Hrun.
      injection Hrun as <- <- <-. auto.
  - injection Hrun as <- <- <-.
    split; [exact H|]. split; [reflexivity|].
    intros c' Hc' Hv. injection Hc' as <-. congruence.
Qed.

Lemma combat_mark_persists_witness :
  exists e' s' r,
    processCommand (fst (Sample.play ["go north"])) (snd (Sample.play ["go north"]))
                   "take the rat" = Returns (e', s', r)
    /\ Session.inCombat s' = true
    /\ Player.location (Session.player s') = "ROOM_002".
Proof.
  eexists _, _, _. split; [vm_compute; reflexivity|].
  match goal with
  | |- Session.inCombat ?s' = _ /\ Player.location (Session.player ?s') = _ =>
      pose proof (combat_mark_persists
                    (fst (Sample.play ["go north"])) _
                    (snd (Sample.play ["go north"])) s' "take the rat" _
                    eq_refl eq_refl) as (Hc & Hl & _)
  end.
  split; [exact Hc|].
  rewrite (Hl _ eq_refl); [reflexivity | discriminate | discriminate].
Defined.

(** The rule that combat cannot be bypassed does not hold of the engine:
    walking north from the starting room meets the hostile rat and marks the
    session in-combat; [go south] then walks the player out of the room. *)
Lemma combat_bypassed_by_go : ~ combatCannotBeBypassed.
Proof.
  intros claim.
  assert (Hreach : reachable (fst (Sample.play ["go north"]))
                             (snd (Sample.play ["go north"]))).
  { eapply (reach_command Sample.engine _ Sample.session _ "go north").
    - apply reach_new.
    - vm_compute. reflexivity. }
  assert (Hgo : exists r,
             processCommand (fst (Sample.play ["go north"]))
                            (snd (Sample.play ["go north"])) "go south"
             = Returns (fst (Sample.play ["go north"; "go south"]),
                        snd (Sample.play ["go north"; "go south"]), r)).
  { eexists. vm_compute. reflexivity. }
  destruct Hgo as [r Hgo].
  destruct (claim _ _ Hreach eq_refl "go south" _ _ _ r eq_refl eq_refl eq_refl Hgo)
    as [Hloc _].
  vm_compute in Hloc. discriminate Hloc.
Qed.

(** Go does not look at the combat mark: with the mark set or not it
    answers the same and leaves the same player. *)
Lemma handleGo_ignores_combat (e : GameEngine.t) (p : Player.t)
    (enemy : option string) (c : ParsedCommand) :
  resultOf (handleGo e (Session.mk p true enemy) c)
  = resultOf (handleGo e (Session.mk p false enemy) c)
  /\ Session.player (sessionOf (handleGo e (Session.mk p true enemy) c))
     = Session.player (sessionOf (handleGo e (Session.mk p false enemy) c)).
Proof.
  unfold handleGo, getCurrentRoom, resultOf, sessionOf.
  cbn [Session.player Session.set_player].
  repeat case_match; split; reflexivity.
Qed.

(** C3, at a failing input. [go north] from the starting room enters the
    corridor, where the hostile rat attacks: the session is marked in-combat
    with the rat as enemy. [go south], which is no combat command, then
    succeeds and walks the player back to the starting room, the mark and the
    enemy still set. The design rules this out (no bypassing combat while an
    enemy is present), and rest does check the mark; go never reads it. *)
Theorem go_walks_out_of_combat :
  let e := fst (Sample.play ["go north"]) in
  let s := snd (Sample.play ["go north"]) in
  Session.inCombat s = true
  /\ Session.currentEnemy s = Some "rat"
  /\ Player.location (Session.player s) = "ROOM_002"
  /\ (exists e' s' r,
        processCommand e s "go south" = Returns (e', s', r)
        /\ success r = true
        /\ Player.location (Session.player s') = "ROOM_001"
        /\ Session.inCombat s' = true
        /\ Session.currentEnemy s' = Some "rat")
  /\ (exists e' s' r,
        processCommand e s "rest" = Returns (e', s', r)
        /\ success r = false
        /\ message r = "You can't rest during combat!")
  /\ (forall e0 p enemy c,
        resultOf (handleGo e0 (Session.mk p true enemy) c)
        = resultOf (handleGo e0 (Session.mk p false enemy) c)).
Proof.
  cbv zeta. do 3 (split; [reflexivity|]). split; [|split].
  - eexists _, _, _. split; [vm_compute; reflexivity|]. repeat split.
  - eexists _, _, _. split; [vm_compute; reflexivity|]. repeat split.
  - intros e0 p enemy c. apply handleGo_ignores_combat.
Qed.

End Combat.

(** ** Taking and dropping *)

Section Taking.
Import JS CommandParser GameEngine.

Lemma assoc_mutateRoom (m : list (string * Room.t)) (k id : string)
    (f : Room.t -> Room.t) :
  assoc (mutateRoom m k f) id
  = if String.eqb id k then f <$> assoc m id else assoc m id.
Proof.
  induction m as [|[k' w] m IH]; cbn [mutateRoom assoc].
  - by destruct (String.eqb id k).
  - destruct (String.eqb_spec k k') as [<-|Hk]; cbn [assoc].
    + destruct (String.eqb_spec id k) as [->|Hid]; [reflexivity|].
      reflexivity.
    + destruct (String.eqb_spec id k') as [->|Hid'].
      * destruct (String.eqb_spec k' k); [congruence | reflexivity].
      * exact IH.
Qed.


Ltac engine_cases :=
  intros e s c; unfold engineOf; repeat case_match; reflexivity.

Lemma handleDrop_readsOnly : readsOnly handleDrop.
Proof. unfold handleDrop. engine_cases. Qed.

Lemma handleGo_readsOnly : readsOnly handleGo.
Proof. unfold handleGo. engine_cases. Qed.

Lemma handleInventory_readsOnly : readsOnly handleInventory.
Proof. unfold handleInventory. engine_cases. Qed.

Lemma handleUse_readsOnly : readsOnly handleUse.
Proof. unfold handleUse. engine_cases. Qed.

Lemma handleLight_readsOnly : readsOnly handleLight.
Proof. unfold handleLight. engine_cases. Qed.

Lemma handleExtinguish_readsOnly : readsOnly handleExtinguish.
Proof. unfold handleExtinguish. engine_cases. Qed.

Lemma handleTurn_readsOnly : readsOnly handleTurn.
Proof.
  intros e s c. unfold handleTurn.
  repeat case_match;
    first [apply handleLight_readsOnly | apply handleExtinguish_readsOnly | reflexivity].
Qed.

Lemma handleOpen_readsOnly : readsOnly handleOpen.
Proof. unfold handleOpen. engine_cases. Qed.

Lemma handleClose_readsOnly : readsOnly handleClose.
Proof. unfold handleClose. engine_cases. Qed.

Lemma handleAttack_readsOnly : readsOnly handleAttack.
Proof. unfold handleAttack. engine_cases. Qed.

Lemma handleCast_readsOnly : readsOnly handleCast.
Proof. unfold handleCast. engine_cases. Qed.

Lemma handleRest_readsOnly : readsOnly handleRest.
Proof. unfold handleRest. engine_cases. Qed.

Lemma handleHelp_readsOnly : readsOnly handleHelp.
Proof. unfold handleHelp. engine_cases. Qed.

Lemma handleEquip_readsOnly : readsOnly handleEquip.
Proof. unfold handleEquip. engine_cases. Qed.

Lemma handleUnequip_readsOnly : readsOnly handleUnequip.
Proof. unfold handleUnequip. engine_cases. Qed.









Lemma findIndexFrom_Some {A} (p : A -> bool) (l : list A) (k i : nat) :
  findIndexFrom p k l = Some i ->
  exists j x, i = (k + j)%nat /\ l !! j = Some x /\ p x = true.
Proof.
  revert k. induction l as [|y l IH]; intros k H; [discriminate|].
  cbn [findIndexFrom] in H. destruct (p y) eqn:Hy.
  - injection H as <-. exists 0%nat, y. repeat split; [lia | assumption].
  - destruct (IH _ H) as (j & x & -> & Hx & Hp).
    exists (S j), x. repeat split; [lia | assumption | assumption].
Qed.


Lemma findIndexFrom_first {A} (p : A -> bool) (l : list A) (k i : nat) :
  findIndexFrom p k l = Some i ->
  forall j x, (k + j < i)%nat -> l !! j = Some x -> p x = false.
Proof.
  revert k. induction l as [|y l IH]; intros k H j x Hj Hx; [discriminate|].
  cbn [findIndexFrom] in H. destruct (p y) eqn:Hy.
  - injection H as <-. lia.
  - destruct j as [|j]; cbn in Hx; [congruence|].
    apply (IH (S k) H j x); [lia | assumption].
Qed.

Lemma findIndexFrom_None {A} (p : A -> bool) (l : list A) (k : nat) :
  findIndexFrom p k l = None -> forall x, In x l -> p x = false.
Proof.
  revert k. induction l as [|y l IH]; intros k H x Hx; [destruct Hx|].
  cbn [findIndexFrom] in H. destruct (p y) eqn:Hy; [discriminate|].
  destruct Hx as [<-|Hx]; [assumption | by apply (IH (S k))].
Qed.

Lemma findIndex_lookup {A} (p : A -> bool) (l : list A) (i : nat) :
  findIndex p l = Some i ->
  exists x, l !! i = Some x /\ p x = true
            /\ forall j y, (j < i)%nat -> l !! j = Some y -> p y = false.
Proof.
  intros H. destruct (findIndexFrom_Some p l 0 i H) as (j & x & -> & Hx & Hp).
  exists x. split; [exact Hx|]. split; [exact Hp|].
  intros j' y Hj. by apply (findIndexFrom_first p l 0 _ H).
Qed.





Lemma assoc_resetRooms (m : list (string * Room.t)) (id : string) :
  assoc (map (fun kr => (fst kr, resetRoom (snd kr))) m) id = resetRoom <$> assoc m id.
Proof.
  induction m as [|[k w] m IH]; [reflexivity|].
  cbn [map assoc fst snd]. by destruct (String.eqb id k).
Qed.





End Taking.

(** ** What go shows of the destination *)

Section GoDescription.
Import JS CommandParser GameEngine.

Lemma append_assoc (a b c : string) : (a +:+ b) +:+ c = a +:+ b +:+ c.
Proof.
  induction a as [|x a IH]; [reflexivity|].
  change (String x ((a +:+ b) +:+ c) = String x (a +:+ b +:+ c)). by rewrite IH.
Qed.

Lemma append_empty_r (a : string) : a +:+ "" = a.
Proof.
  induction a as [|x a IH]; [reflexivity|].
  change (String x (a +:+ "") = String x a). by rewrite IH.
Qed.







(** What a successful go has done. *)
Lemma handleGo_success (e e' : GameEngine.t) (s s' : Session.t)
    (c : ParsedCommand) (r : CommandResult) :
  handleGo e s c = (e', s', r) -> success r = true ->
  exists room direction exit newRoom attack,
    getCurrentRoom e s = Some room
    /\ get_prop (Room.exits room) direction = Own exit
    /\ getRoom e (Exit.to exit) = Some newRoom
    /\ e' = e
    /\ Session.player s'
       = Player.set_visitedRooms
           (markVisited (Some (Exit.to exit)) (Player.visitedRooms (Session.player s)))
           (Player.set_location (Exit.to exit) (Session.player s))
    /\ message r
       = travelPrefix exit +:+ getRoomDescription newRoom (Session.player s') false
         +:+ attack.
Proof.
  unfold handleGo. intros H Hok.
  destruct (getCurrentRoom e s) as [room|]; [|injection H as <- <- <-; discriminate].
  destruct (option_map toLowerCase (noun c)) as [direction|];
    [|injection H as <- <- <-; discriminate].
  destruct (truthy direction); cbn [negb] in H;
    [|injection H as <- <- <-; discriminate].
  destruct (get_prop (Room.exits room) direction) as [exit| |] eqn:Hexit;
    [|injection H as <- <- <-; discriminate|injection H as <- <- <-; discriminate].
  destruct (canUseExit e exit (Session.player s)) as [[] msg];
    [|injection H as <- <- <-; discriminate].
  destruct (getRoom e (Exit.to exit)) as [newRoom|] eqn:Hnew;
    [|injection H as <- <- <-; discriminate].
  match type of H with
  | context [find ?f ?l] => destruct (find f l) as [npc|]
  end; injection H as <- <- <-.
  - exists room, direction, exit, newRoom,
      (nl +:+ nl +:+ "**" +:+ NPC.name npc +:+ " attacks!**").
    repeat split; try reflexivity; try assumption.
    cbn [message Session.player]. unfold travelPrefix. by rewrite !append_assoc.
  - exists room, direction, exit, newRoom, "".
    repeat split; try reflexivity; try assumption.
    cbn [message Session.player Session.set_player]. unfold travelPrefix.
    by rewrite append_empty_r.
Qed.

(** [loadRooms] stores every room under its own id, and no command changes
    the id of a room or the key it is stored under. *)
Lemma assoc_mapSet (m : list (string * Room.t)) (k id : string) (v : Room.t) :
  assoc (mapSet m k v) id = if String.eqb id k then Some v else assoc m id.
Proof.
  induction m as [|[k' w] m IH]; cbn [mapSet assoc].
  - by destruct (String.eqb id k).
  - destruct (String.eqb_spec k k') as [<-|Hk]; cbn [assoc].
    + by destruct (String.eqb_spec id k).
    + destruct (String.eqb_spec id k') as [->|Hid'].
      * destruct (String.eqb_spec k' k); [congruence | reflexivity].
      * exact IH.
Qed.



Lemma mutateRoom_storeKeyed (e : GameEngine.t) (k : string) (f : Room.t -> Room.t) :
  (forall room, Room.identity_id (f room) = Room.identity_id room) ->
  storeKeyed e -> storeKeyed (set_rooms (mutateRoom (rooms e) k f) e).
Proof.
  intros Hf He id room. unfold getRoom. cbn [rooms set_rooms].
  rewrite assoc_mutateRoom.
  destruct (String.eqb id k).
  - destruct (assoc (rooms e) id) as [room0|] eqn:H0; [|discriminate].
    intros [= <-]. rewrite Hf. by apply He.
  - apply He.
Qed.

Lemma handleLook_storeKeyed (e : GameEngine.t) (s : Session.t) (c : ParsedCommand) :
  storeKeyed e -> storeKeyed (engineOf (handleLook e s c)).
Proof.
  intros H. unfold handleLook, engineOf.
  repeat case_match; cbn [fst]; try exact H; by apply mutateRoom_storeKeyed.
Qed.

Lemma handleTake_storeKeyed (e : GameEngine.t) (s : Session.t) (c : ParsedCommand) :
  storeKeyed e -> storeKeyed (engineOf (handleTake e s c)).
Proof.
  intros H. unfold handleTake, engineOf.
  repeat case_match; cbn [fst]; try exact H; by apply mutateRoom_storeKeyed.
Qed.

Lemma handleRestart_storeKeyed (e : GameEngine.t) (s : Session.t) (c : ParsedCommand) :
  storeKeyed e -> storeKeyed (engineOf (handleRestart e s c)).
Proof.
  intros H id room. unfold handleRestart, engineOf, getRoom. cbn [fst rooms set_rooms].
  rewrite assoc_resetRooms.
  destruct (assoc (rooms e) id) as [room0|] eqn:H0; [|discriminate].
  intros [= <-]. change (Room.identity_id room0 = id). by apply H.
Qed.

Ltac keyed_verb_case lem :=
  match goal with
  | |- context [engineOf (if String.eqb (verb ?c) ?v then _ else _)] =>
      destruct (String.eqb (verb c) v); cbv iota;
      [ lem | ]
  end.

Ltac same_engine lem :=
  idtac;
  match goal with
  | |- storeKeyed (engineOf (?h ?e ?s ?c)) => rewrite (lem e s c); assumption
  end.

(** Every command keeps the rooms stored under their own ids. *)
Lemma processCommand_storeKeyed (e e' : GameEngine.t) (s s' : Session.t)
    (input : string) (r : CommandResult) :
  storeKeyed e -> processCommand e s input = Returns (e', s', r) -> storeKeyed e'.
Proof.
  intros H Hrun. unfold processCommand in Hrun.
  destruct (parse input) as [c|]; [|discriminate].
  destruct (valid c); cbn [negb] in Hrun; [|by injection Hrun as <- _ _].
  injection Hrun as Hrun.
  assert (Hd : storeKeyed (engineOf (dispatch e s c))); [|by rewrite Hrun in Hd].
  clear Hrun. unfold dispatch. cbv zeta.
  keyed_verb_case ltac:(by apply handleLook_storeKeyed).
  keyed_verb_case ltac:(same_engine handleGo_readsOnly).
  keyed_verb_case ltac:(by apply handleTake_storeKeyed).
  keyed_verb_case ltac:(same_engine handleDrop_readsOnly).
  keyed_verb_case ltac:(by apply handleLook_storeKeyed).
  keyed_verb_case ltac:(same_engine handleInventory_readsOnly).
  keyed_verb_case ltac:(same_engine handleUse_readsOnly).
  keyed_verb_case ltac:(same_engine handleTurn_readsOnly).
  keyed_verb_case ltac:(same_engine handleLight_readsOnly).
  keyed_verb_case ltac:(same_engine handleExtinguish_readsOnly).
  keyed_verb_case ltac:(same_engine handleOpen_readsOnly).
  keyed_verb_case ltac:(same_engine handleClose_readsOnly).
  keyed_verb_case ltac:(same_engine handleAttack_readsOnly).
  keyed_verb_case ltac:(same_engine handleCast_readsOnly).
  keyed_verb_case ltac:(same_engine handleRest_readsOnly).
  keyed_verb_case ltac:(same_engine handleHelp_readsOnly).
  keyed_verb_case ltac:(by apply handleRestart_storeKeyed).
  keyed_verb_case ltac:(same_engine handleEquip_readsOnly).
  keyed_verb_case ltac:(same_engine handleUnequip_readsOnly).
  exact H.
Qed.

































End GoDescription.

(** * Further properties of the parser *)

Section ParserMore.
Import JS CommandParser.

Lemma lowerChar_whitespace (c : ascii) : isWhiteSpace (lowerChar c) = isWhiteSpace c.
Proof. destruct c as [[] [] [] [] [] [] [] []]; reflexivity. Qed.

Lemma lowerChar_idempotent (c : ascii) : lowerChar (lowerChar c) = lowerChar c.
Proof. destruct c as [[] [] [] [] [] [] [] []]; reflexivity. Qed.

Lemma toLowerCase_idempotent (s : string) : toLowerCase (toLowerCase s) = toLowerCase s.
Proof.
  induction s as [|c s IH]; [reflexivity|].
  cbn [toLowerCase]. by rewrite lowerChar_idempotent, IH.
Qed.

Lemma toLowerCase_blank (s : string) : blank (toLowerCase s) = blank s.
Proof.
  induction s as [|c s IH]; [reflexivity|].
  cbn [toLowerCase blank]. by rewrite lowerChar_whitespace, IH.
Qed.

Lemma trimStart_empty (s : string) : trimStart s = "" <-> blank s = true.
Proof.
  induction s as [|c s IH]; [done|].
  cbn [trimStart blank]. destruct (isWhiteSpace c); cbn [andb]; [exact IH | done].
Qed.

Lemma blank_rev_app (s t : string) :
  blank (String.rev_app s t) = blank s && blank t.
Proof.
  revert t. induction s as [|c s IH]; intros t; [reflexivity|].
  cbn [String.rev_app blank]. rewrite IH. cbn [blank].
  by destruct (isWhiteSpace c), (blank s), (blank t).
Qed.

Lemma blank_rev (s : string) : blank (String.rev s) = blank s.
Proof. unfold String.rev. rewrite blank_rev_app. cbn. by destruct (blank s). Qed.

Lemma rev_app_empty (s t : string) : String.rev_app s t = "" -> s = "" /\ t = "".
Proof.
  revert t. induction s as [|c s IH]; intros t; [done|].
  cbn [String.rev_app]. intros H. by destruct (IH _ H).
Qed.

Lemma trimStart_blank_tail (s : string) :
  blank s = false -> blank (trimStart s) = false.
Proof.
  induction s as [|c s IH]; [done|].
  cbn [trimStart blank]. destruct (isWhiteSpace c) eqn:Hc; cbn [andb]; [exact IH|].
  intros _. cbn [blank]. by rewrite Hc.
Qed.

Lemma trim_empty (s : string) : trim s = "" <-> blank s = true.
Proof.
  unfold trim, trimEnd. split.
  - intros H. destruct (blank s) eqn:Hb; [reflexivity|].
    apply rev_app_empty in H as [H _]. apply trimStart_empty in H.
    rewrite blank_rev in H. by rewrite trimStart_blank_tail in H.
  - intros H. apply trimStart_empty in H. by rewrite H.
Qed.

Lemma truthy_false (s : string) : truthy s = false <-> s = "".
Proof. by destruct s. Qed.

(** X1. An input of ASCII characters is answered with
    [Please enter a command.] exactly when it consists of the ASCII
    whitespace characters TAB, LF, VT, FF, CR and SPACE only (the empty input
    included); the result then has the empty verb and echoes the input.
    Outside ASCII the statement is silent: [trim] also removes the no-break
    space and the other Unicode spaces, which the strings here do not
    hold. *)
Theorem parse_blank_input (input : string) :
  asciiOnly input = true ->
  (parse input = Returns (invalidCommand "" input "Please enter a command.")
   <-> blank input = true).
Proof.
  intros _. unfold parse. split.
  - intros H. destruct (truthy (trim (toLowerCase input))) eqn:Hn; cbn [negb] in H.
    + exfalso.
      destruct (tokenize (trim (toLowerCase input))) as [|tok rest] eqn:Htok;
        [discriminate H|].
      assert (Htruthy : truthy tok = true).
      { pose proof (tokenize_truthy (trim (toLowerCase input))) as Hall.
        rewrite Htok in Hall. by apply Forall_cons_1 in Hall as [? _]. }
      destruct (get_prop VERB_SYNONYMS tok) as [v| |] eqn:Hv; [|discriminate H|].
      * repeat case_match; discriminate H.
      * assert (Hempty : tok = "") by (unfold invalidCommand in H; congruence).
        rewrite Hempty in Htruthy. discriminate.
    + apply truthy_false, trim_empty in Hn. by rewrite toLowerCase_blank in Hn.
  - intros H. rewrite <- toLowerCase_blank in H. apply trim_empty in H.
    by rewrite H.
Qed.

Lemma parse_blank_input_witness :
  parse "   " = Returns (invalidCommand "" "   " "Please enter a command.").
Proof. apply (proj2 (parse_blank_input "   " eq_refl)). reflexivity. Defined.

Lemma splitSpaces_current (cur s : string) :
  truthy cur = true ->
  filter (fun t => truthy t = true) (splitSpaces cur false s) <> [].
Proof.
  revert cur. induction s as [|c s IH]; intros cur Hcur.
  - cbn [splitSpaces]. rewrite filter_cons_True by assumption. discriminate.
  - cbn [splitSpaces]. destruct (isWhiteSpace c).
    + rewrite filter_cons_True by assumption. discriminate.
    + apply IH. by apply truthy_app_r.
Qed.

Lemma splitSpaces_not_blank (cur : string) (inSep : bool) (s : string) :
  blank s = false ->
  filter (fun t => truthy t = true) (splitSpaces cur inSep s) <> [].
Proof.
  revert cur inSep. induction s as [|c s IH]; intros cur inSep Hs; [discriminate|].
  cbn [blank] in Hs. cbn [splitSpaces]. destruct (isWhiteSpace c); cbn [andb] in Hs.
  - destruct inSep; [by apply IH|].
    destruct (decide (truthy cur = true)).
    + rewrite filter_cons_True by assumption. discriminate.
    + rewrite filter_cons_False by assumption. by apply IH.
  - by apply splitSpaces_current, truthy_app_r.
Qed.

Lemma tokenize_normalized (input : string) :
  blank input = false ->
  exists tok rest, tokenize (trim (toLowerCase input)) = tok :: rest /\ truthy tok = true.
Proof.
  intros Hb.
  assert (Hn : blank (trim (toLowerCase input)) = false).
  { destruct (blank (trim (toLowerCase input))) eqn:H; [|reflexivity].
    assert (Ht : trim (toLowerCase input) <> "").
    { intros Ht. apply trim_empty in Ht. rewrite toLowerCase_blank in Ht. congruence. }
    unfold trim, trimEnd in H. rewrite blank_rev in H.
    destruct (blank (String.rev (trimStart (toLowerCase input)))) eqn:Hr.
    - apply trimStart_empty in Hr. unfold trim, trimEnd in Ht. by rewrite Hr in Ht.
    - by rewrite trimStart_blank_tail in H. }
  pose proof (splitSpaces_not_blank "" false _ Hn) as Hne.
  pose proof (tokenize_truthy (trim (toLowerCase input))) as Hall.
  unfold tokenize in *.
  destruct (filter _ _) as [|tok rest]; [done|].
  exists tok, rest. split; [reflexivity|]. by apply Forall_cons_1 in Hall as [? _].
Qed.

(** Once the first token is a key of the table whose value is no direction
    shortcut, the result is settled by that value and by the other tokens
    with the articles removed. *)
Lemma parse_own (input v canonicalVerb : string) (rest : list string) :
  tokenize (trim (toLowerCase input)) = v :: rest ->
  assoc VERB_SYNONYMS v = Some canonicalVerb ->
  startsWith canonicalVerb "go " = false ->
  parse input = Returns (parseObjects canonicalVerb input (filter notArticle rest)).
Proof.
  intros Htok Hv Hgo. unfold parse.
  assert (Hn : truthy (trim (toLowerCase input)) = true).
  { destruct (trim (toLowerCase input)); [discriminate Htok | reflexivity]. }
  rewrite Hn. cbn [negb]. rewrite Htok. unfold get_prop. rewrite Hv, Hgo.
  destruct rest as [|r rest]; [reflexivity|].
  cbn [length Nat.eqb].
  change (fun t : string => arrayIncludes ARTICLES t = false) with notArticle.
  unfold parseObjects.
  destruct (filter notArticle (r :: rest)) as [|o objs]; [reflexivity|].
  destruct (prepositionLoop 0 (o :: objs)) as [[[|k] p]|]; reflexivity.
Qed.

(** X2. Apart from the echo of the input, the result of [parse] depends only
    on the first token of the normalised input and on the other tokens with
    the articles left out: letter case, the amount of whitespace and articles
    anywhere after the verb make no difference. *)
Theorem parse_depends_on_content_tokens (a b v : string) (restA restB : list string) :
  tokenize (trim (toLowerCase a)) = v :: restA ->
  tokenize (trim (toLowerCase b)) = v :: restB ->
  filter notArticle restA = filter notArticle restB ->
  forgetRaw (parse a) = forgetRaw (parse b).
Proof.
  intros Ha Hb Hrest.
  destruct (assoc VERB_SYNONYMS v) as [canonicalVerb|] eqn:Hv.
  - destruct (startsWith canonicalVerb "go ") eqn:Hgo.
    + unfold parse.
      assert (Hna : truthy (trim (toLowerCase a)) = true)
        by (destruct (trim (toLowerCase a)); [discriminate Ha | reflexivity]).
      assert (Hnb : truthy (trim (toLowerCase b)) = true)
        by (destruct (trim (toLowerCase b)); [discriminate Hb | reflexivity]).
      rewrite Hna, Hnb. cbn [negb]. rewrite Ha, Hb. unfold get_prop.
      rewrite Hv, Hgo. reflexivity.
    + rewrite (parse_own a v canonicalVerb restA Ha Hv Hgo).
      rewrite (parse_own b v canonicalVerb restB Hb Hv Hgo).
      rewrite Hrest. unfold parseObjects, forgetRaw.
      destruct (filter notArticle restB) as [|o objs]; [reflexivity|].
      destruct (prepositionLoop 0 (o :: objs)) as [[[|k] p]|]; reflexivity.
  - unfold parse.
    assert (Hna : truthy (trim (toLowerCase a)) = true)
      by (destruct (trim (toLowerCase a)); [discriminate Ha | reflexivity]).
    assert (Hnb : truthy (trim (toLowerCase b)) = true)
      by (destruct (trim (toLowerCase b)); [discriminate Hb | reflexivity]).
    rewrite Hna, Hnb. cbn [negb]. rewrite Ha, Hb. unfold get_prop. rewrite Hv.
    destruct (arrayIncludes objectPrototypeMembers v); reflexivity.
Qed.

Lemma parse_depends_on_content_tokens_witness :
  forgetRaw (parse "  TAKE   the Rusty  KEY ") = forgetRaw (parse "take a rusty key").
Proof.
  apply (parse_depends_on_content_tokens
           "  TAKE   the Rusty  KEY " "take a rusty key" "take"
           ["the"; "rusty"; "key"] ["a"; "rusty"; "key"]);
    reflexivity.
Defined.

Lemma assoc_In {A} (o : list (string * A)) (k : string) (v : A) :
  assoc o k = Some v -> In (k, v) o.
Proof.
  induction o as [|[k' w] o IH]; [discriminate|].
  cbn [assoc]. destruct (String.eqb_spec k k') as [->|_].
  - intros [= ->]. by left.
  - intros H. right. by apply IH.
Qed.

(** X3. Every input that is not blank has a first token, and that token
    settles the kind of outcome: a member inherited from [Object.prototype]
    makes [parse] throw; a token that is no key of the table gives an invalid
    command that carries the token as verb and quotes it in its message; a
    key gives a valid command, without message, whose verb is the canonical
    verb of the key. In every returned command [raw] is the input, and the
    message [I don't understand that.] is never produced. *)
Theorem parse_outcomes (input : string) :
  blank input = false ->
  (exists tok rest,
      tokenize (trim (toLowerCase input)) = tok :: rest
      /\ match get_prop VERB_SYNONYMS tok with
         | Inherited => parse input = ThrowsTypeError
         | Undefined =>
             parse input =
               Returns (invalidCommand tok input
                          ("I don't know how to " +:+ quote +:+ tok +:+ quote +:+ "."))
         | Own value =>
             exists c,
               parse input = Returns c
               /\ valid c = true /\ errorMessage c = None /\ raw c = input
               /\ verb c = canonicalOf value /\ In (verb c) canonicalVerbs
         end)
  /\ (forall c, parse input = Returns c ->
        raw c = input /\ errorMessage c <> Some "I don't understand that.").
Proof.
  intros Hb. destruct (tokenize_normalized input Hb) as (tok & rest & Htok & Htruthy).
  assert (Hn : truthy (trim (toLowerCase input)) = true)
    by (destruct (trim (toLowerCase input)); [discriminate Htok | reflexivity]).
  assert (Hcases :
    match get_prop VERB_SYNONYMS tok with
    | Inherited => parse input = ThrowsTypeError
    | Undefined =>
        parse input =
          Returns (invalidCommand tok input
                     ("I don't know how to " +:+ quote +:+ tok +:+ quote +:+ "."))
    | Own value =>
        exists c,
          parse input = Returns c
          /\ valid c = true /\ errorMessage c = None /\ raw c = input
          /\ verb c = canonicalOf value /\ In (verb c) canonicalVerbs
    end).
  { destruct (get_prop VERB_SYNONYMS tok) as [value| |] eqn:Hv.
    - assert (Hassoc : assoc VERB_SYNONYMS tok = Some value).
      { unfold get_prop in Hv. destruct (assoc VERB_SYNONYMS tok); [congruence|].
        destruct (arrayIncludes objectPrototypeMembers tok); discriminate. }
      assert (Hin : In (canonicalOf value) canonicalVerbs).
      { unfold canonicalVerbs. apply in_map_iff. exists (tok, value).
        split; [reflexivity | by apply assoc_In]. }
      destruct (startsWith value "go ") eqn:Hgo.
      + unfold parse. rewrite Hn. cbn [negb]. rewrite Htok, Hv, Hgo.
        eexists. split; [reflexivity|]. cbn [valid errorMessage raw verb].
        unfold canonicalOf in *. rewrite Hgo in *. auto.
      + rewrite (parse_own input tok value rest Htok Hassoc Hgo).
        eexists. split; [reflexivity|].
        unfold canonicalOf in *. rewrite Hgo in *. unfold parseObjects.
        destruct (filter notArticle rest) as [|o objs]; [by repeat split|].
        destruct (prepositionLoop 0 (o :: objs)) as [[[|k] p]|]; by repeat split.
    - unfold parse. rewrite Hn. cbn [negb]. by rewrite Htok, Hv.
    - unfold parse. rewrite Hn. cbn [negb]. by rewrite Htok, Hv. }
  split; [by exists tok, rest|].
  intros c Hc. destruct (get_prop VERB_SYNONYMS tok) as [value| |].
  - destruct Hcases as (c' & Hc' & _ & Hmsg & Hraw & _).
    rewrite Hc in Hc'. injection Hc' as <-. rewrite Hmsg. by split.
  - rewrite Hc in Hcases. discriminate.
  - rewrite Hc in Hcases. injection Hcases as ->. split; [reflexivity|].
    cbn [errorMessage invalidCommand]. by intros [= ?].
Qed.

Lemma parse_outcomes_witness :
  exists tok rest,
    tokenize (trim (toLowerCase "xyzzy the door")) = tok :: rest
    /\ match get_prop VERB_SYNONYMS tok with
       | Inherited => parse "xyzzy the door" = ThrowsTypeError
       | Undefined =>
           parse "xyzzy the door" =
             Returns (invalidCommand tok "xyzzy the door"
                        ("I don't know how to " +:+ quote +:+ tok +:+ quote +:+ "."))
       | Own value =>
           exists c,
             parse "xyzzy the door" = Returns c
             /\ valid c = true /\ errorMessage c = None /\ raw c = "xyzzy the door"
             /\ verb c = canonicalOf value /\ In (verb c) canonicalVerbs
       end.
Proof. exact (proj1 (parse_outcomes "xyzzy the door" eq_refl)). Defined.

Lemma listfilter_sublist {A} (p : A -> bool) (l : list A) :
  List.filter p l `sublist_of` l.
Proof.
  induction l as [|x l IH]; [constructor|].
  cbn [List.filter]. destruct (p x); by constructor.
Qed.

(** X4. [getSuggestions] returns at most ten table keys, in the order of the
    table and without repetition, each starting with the trimmed,
    lower-cased partial input; a blank input gives none; and when fewer than
    ten are returned, every key with that prefix is among them. *)
Theorem getSuggestions_sound (partial : string) :
  (blank partial = true -> getSuggestions partial = [])
  /\ length (getSuggestions partial) <= 10
  /\ getSuggestions partial `sublist_of` map fst VERB_SYNONYMS
  /\ NoDup (getSuggestions partial)
  /\ Forall (fun s => startsWith s (trim (toLowerCase partial)) = true)
            (getSuggestions partial)
  /\ (blank partial = false -> length (getSuggestions partial) < 10 ->
      forall key, In key (map fst VERB_SYNONYMS) ->
                  startsWith key (trim (toLowerCase partial)) = true ->
                  In key (getSuggestions partial)).
Proof.
  unfold getSuggestions.
  destruct (truthy (trim (toLowerCase partial))) eqn:Hn; cbn [negb].
  - assert (Hsub : take 10 (List.filter
                      (fun verb => startsWith verb (trim (toLowerCase partial)))
                      (map fst VERB_SYNONYMS)) `sublist_of` map fst VERB_SYNONYMS).
    { etrans; [apply sublist_take | apply listfilter_sublist]. }
    split.
    { intros Hb. rewrite <- toLowerCase_blank in Hb. apply trim_empty in Hb.
      rewrite Hb in Hn. discriminate. }
    split; [rewrite length_take; lia|]. split; [exact Hsub|].
    split; [eapply sublist_NoDup; [apply VERB_SYNONYMS_well_formed | exact Hsub]|].
    split.
    + apply list.Forall_forall. intros s Hs.
      apply (sublist_subseteq _ _ (sublist_take _ 10)) in Hs.
      apply list_elem_of_In, filter_In in Hs. tauto.
    + intros _ Hlen key Hkey Hprefix. rewrite length_take in Hlen.
      rewrite take_ge by lia. apply filter_In. by split.
  - split; [done|]. split; [cbn; lia|]. split; [apply sublist_nil_l|].
    split; [constructor|]. split; [constructor|].
    intros Hb. apply truthy_false, trim_empty in Hn.
    rewrite toLowerCase_blank in Hn. congruence.
Qed.

Lemma getSuggestions_sound_witness :
  getSuggestions "   " = []
  /\ forall key, In key (map fst VERB_SYNONYMS) ->
       startsWith key (trim (toLowerCase " UN")) = true ->
       In key (getSuggestions " UN").
Proof.
  split.
  - apply (proj1 (getSuggestions_sound "   ")). reflexivity.
  - apply (proj2 (proj2 (proj2 (proj2 (proj2 (getSuggestions_sound " UN")))))).
    + reflexivity.
    + vm_compute. lia.
Defined.

Lemma distinctFrom_In (seen values : list string) (v : string) :
  In v (distinctFrom seen values) <-> In v values /\ ~ In v seen.
Proof.
  revert seen. induction values as [|x values IH]; intros seen; [cbn; tauto|].
  cbn [distinctFrom]. unfold arrayIncludes.
  destruct (existsb (String.eqb x) seen) eqn:Hx.
  - rewrite IH. apply existsb_exists in Hx as (y & Hy & Heq).
    apply String.eqb_eq in Heq as <-. cbn [In]. split; [tauto|].
    intros [[<-|?] ?]; tauto.
  - assert (Hnot : ~ In x seen).
    { intros Hin. apply not_true_iff_false in Hx. apply Hx, existsb_exists.
      exists x. split; [assumption | apply String.eqb_refl]. }
    cbn [In]. rewrite IH. cbn [In]. split.
    + intros [<-|[? ?]]; [tauto|]. split; [tauto|]. tauto.
    + intros [[<-|?] ?]; [tauto|].
      destruct (String.eqb_spec x v) as [->|Hne]; [tauto|]. right. split; [assumption|].
      intros [?|?]; tauto.
Qed.

Lemma distinctFrom_NoDup (seen values : list string) : NoDup (distinctFrom seen values).
Proof.
  revert seen. induction values as [|x values IH]; intros seen; [constructor|].
  cbn [distinctFrom]. destruct (arrayIncludes seen x); [apply IH|].
  constructor; [|apply IH].
  rewrite list_elem_of_In, distinctFrom_In. cbn [In]. tauto.
Qed.

Lemma insertSorted_In (x v : string) (l : list string) :
  In v (insertSorted x l) <-> v = x \/ In v l.
Proof.
  induction l as [|y l IH]; [cbn; intuition congruence|].
  cbn [insertSorted]. destruct (String.leb x y); cbn [In]; [intuition congruence|].
  rewrite IH. intuition congruence.
Qed.

Lemma sortStrings_In (v : string) (l : list string) :
  In v (sortStrings l) <-> In v l.
Proof.
  induction l as [|x l IH]; [reflexivity|].
  cbn [sortStrings fold_right]. fold (sortStrings l).
  rewrite insertSorted_In, IH. cbn [In]. split; intros [?|?]; auto.
Qed.

Lemma insertSorted_NoDup (x : string) (l : list string) :
  ~ In x l -> NoDup l -> NoDup (insertSorted x l).
Proof.
  induction l as [|y l IH]; intros Hx Hl.
  - cbn. constructor; [|constructor]. by intros ?%elem_of_nil.
  - cbn [insertSorted]. apply NoDup_cons in Hl as [Hy Hl].
    destruct (String.leb x y).
    + constructor; [by rewrite list_elem_of_In | by constructor].
    + constructor.
      * rewrite list_elem_of_In, insertSorted_In. rewrite list_elem_of_In in Hy.
        cbn [In] in Hx. intros [->|?]; tauto.
      * apply IH; [|assumption]. cbn [In] in Hx. tauto.
Qed.

Lemma sortStrings_NoDup (l : list string) : NoDup l -> NoDup (sortStrings l).
Proof.
  induction l as [|x l IH]; intros Hl; [constructor|].
  apply NoDup_cons in Hl as [Hx Hl]. cbn [sortStrings fold_right]. fold (sortStrings l).
  apply insertSorted_NoDup; [|by apply IH].
  rewrite sortStrings_In. by rewrite list_elem_of_In in Hx.
Qed.

Lemma insertSorted_ascending (x : string) (l : list string) :
  (forall i a b, l !! i = Some a -> l !! S i = Some b -> String.leb a b = true) ->
  forall i a b, insertSorted x l !! i = Some a -> insertSorted x l !! S i = Some b ->
                String.leb a b = true.
Proof.
  induction l as [|y l IH]; intros Hl i a b; [by destruct i|].
  cbn [insertSorted]. destruct (String.leb x y) eqn:Hxy.
  - destruct i as [|i]; cbn; [by intros [= <-] [= <-]|]. apply Hl.
  - assert (Hyx : String.leb y x = true)
      by (destruct (String.leb_total x y); congruence).
    destruct i as [|i]; cbn.
    + intros Ha Hb. injection Ha as Ha. subst a.
      destruct l as [|z l]; cbn [insertSorted] in Hb.
      * cbn in Hb. by injection Hb as <-.
      * destruct (String.leb x z); cbn in Hb; injection Hb as <-; [assumption|].
        by apply (Hl 0%nat).
    + apply IH. intros j. apply (Hl (S j)).
Qed.

Lemma sortStrings_ascending (l : list string) (i : nat) (a b : string) :
  sortStrings l !! i = Some a -> sortStrings l !! S i = Some b ->
  String.leb a b = true.
Proof.
  revert i a b. induction l as [|x l IH]; [by intros []|].
  cbn [sortStrings fold_right]. fold (sortStrings l).
  by apply insertSorted_ascending.
Qed.

(** X5. [getValidVerbs] lists exactly the values of the synonym table, each
    once, in ascending order of their characters. The direction shortcuts
    are listed as they stand in the table ([go north] and the like), which
    are not verbs a parsed command ever carries. *)
Theorem getValidVerbs_sorted_distinct :
  (forall v, In v getValidVerbs <-> In v (map snd VERB_SYNONYMS))
  /\ NoDup getValidVerbs
  /\ (forall i a b, getValidVerbs !! i = Some a -> getValidVerbs !! S i = Some b ->
                    String.leb a b = true /\ a <> b)
  /\ In "go north" getValidVerbs /\ ~ In "go north" canonicalVerbs.
Proof.
  unfold getValidVerbs, validVerbsOf.
  assert (Hnodup : NoDup (sortStrings (distinctFrom [] (map snd VERB_SYNONYMS))))
    by apply sortStrings_NoDup, distinctFrom_NoDup.
  split; [|split; [exact Hnodup|split]].
  - intros v. rewrite sortStrings_In, distinctFrom_In. cbn [In]. tauto.
  - intros i a b Ha Hb. split; [by eapply sortStrings_ascending|].
    intros <-. pose proof (proj1 (NoDup_alt _) Hnodup _ _ _ Ha Hb). lia.
  - split.
    + rewrite sortStrings_In, distinctFrom_In. split; [|by intros []].
      apply in_map_iff. exists ("north", "go north"). split; [reflexivity|].
      by apply (assoc_In VERB_SYNONYMS "north").
    + intros Hin. unfold canonicalVerbs in Hin. apply in_map_iff in Hin as ([k v] & Heq & Hin).
      cbn [snd] in Heq. unfold canonicalOf in Heq.
      destruct (startsWith v "go ") eqn:Hgo; [discriminate Heq|].
      subst v. discriminate Hgo.
Qed.

End ParserMore.

(** * Further properties of the engine *)

(** ** Exits, light and arrival *)

Section Exits.
Import JS CommandParser GameEngine.

Lemma orElse_truthy (o : option string) (d : string) :
  truthy d = true -> truthy (orElse o d) = true.
Proof.
  intros Hd. unfold orElse. destruct o as [s|]; [|assumption].
  by destruct (truthy s) eqn:Hs.
Qed.

Lemma arrayIncludes_In (l : list string) (x : string) :
  arrayIncludes l x = true <-> In x l.
Proof.
  unfold arrayIncludes. rewrite existsb_exists. split.
  - intros (y & Hy & Heq). apply String.eqb_eq in Heq. by subst.
  - intros H. exists x. split; [assumption | apply String.eqb_refl].
Qed.

(** X6. [canUseExit] allows an exit without requirement, and an exit with
    one exactly when it is met: an inventory entry with the id, the world
    state flag set, the skill learned, or the stat at least the value
    (a missing value counts as 0, a stat the player does not have never
    blocks). A denial always carries a non-empty message: the one of the
    exit if it has a non-empty one, else the default of the kind. *)
Theorem canUseExit_decides_requirement (e : GameEngine.t) (exit : Exit.t)
    (player : Player.t) :
  match Exit.requires exit with
  | None => canUseExit e exit player = (true, None)
  | Some req =>
      (requirementMet e player req -> canUseExit e exit player = (true, None))
      /\ (~ requirementMet e player req ->
          canUseExit e exit player
          = (false, Some (orElse (Exit.blockedMessage exit)
                                 (defaultBlocked (Requirement.type req)))))
  end
  /\ (forall msg, canUseExit e exit player = (false, msg) ->
        exists text, msg = Some text /\ truthy text = true).
Proof.
  unfold canUseExit, requirementMet.
  destruct (Exit.requires exit) as [req|]; [|by split; [|intros ? [=]]].
  destruct (Requirement.type req); cbn [defaultBlocked].
  - destruct (existsb _ _) eqn:Hex; cbn [negb].
    + split; [split; [done|]|by intros ? [=]].
      intros Hno. exfalso. apply Hno. apply existsb_exists in Hex as (item & Hin & Heq).
      exists item. split; [assumption | by apply String.eqb_eq].
    + split; [split|].
      * intros (item & Hin & Heq). apply not_true_iff_false in Hex. exfalso. apply Hex.
        apply existsb_exists. exists item. split; [assumption | by apply String.eqb_eq].
      * done.
      * intros msg [= <-]. eexists. split; [reflexivity | by apply orElse_truthy].
  - destruct (worldState e !! Requirement.id req) as [[]|] eqn:Hw; cbn [default negb].
    + split; [split; [done|congruence]|by intros ? [=]].
    + split; [split; [congruence|done]|].
      intros msg [= <-]. eexists. split; [reflexivity | by apply orElse_truthy].
    + split; [split; [congruence|done]|].
      intros msg [= <-]. eexists. split; [reflexivity | by apply orElse_truthy].
  - destruct (arrayIncludes (Player.skills player) (Requirement.id req)) eqn:Hs;
      cbn [negb].
    + split; [split; [done|]|by intros ? [=]].
      intros Hno. exfalso. apply Hno. by apply arrayIncludes_In.
    + split; [split|].
      * intros Hin. apply arrayIncludes_In in Hin. congruence.
      * done.
      * intros msg [= <-]. eexists. split; [reflexivity | by apply orElse_truthy].
  - destruct (Stats.get (Player.stats player) (Requirement.id req)) as [v|].
    + destruct (Z.ltb_spec v (default 0%Z (Requirement.value req))).
      * split; [split|].
        -- intros Hmet. specialize (Hmet v eq_refl). lia.
        -- done.
        -- intros msg [= <-]. eexists. split; [reflexivity | by apply orElse_truthy].
      * split; [split; [done|]|by intros ? [=]].
        intros Hno. exfalso. apply Hno. intros v' [= <-]. lia.
    + split; [split; [done|]|by intros ? [=]].
      intros Hno. exfalso. apply Hno. intros v' [=].
Qed.

Lemma canUseExit_decides_requirement_witness :
  canUseExit Sample.engine
    {| Exit.to := "ROOM_002"; Exit.visible := true; Exit.oneWay := false;
       Exit.requires := Some (Requirement.mk req_state "power_on" None);
       Exit.blockedMessage := None; Exit.travelText := "" |}
    (Session.player Sample.session) = (true, None)
  /\ canUseExit Sample.engine
    {| Exit.to := "ROOM_002"; Exit.visible := true; Exit.oneWay := false;
       Exit.requires := Some (Requirement.mk req_stat "Physical" (Some 11%Z));
       Exit.blockedMessage := Some ""; Exit.travelText := "" |}
    (Session.player Sample.session) = (false, Some "You're not capable of that.").
Proof.
  split.
  - apply (proj1 (proj1 (canUseExit_decides_requirement Sample.engine
             {| Exit.to := "ROOM_002"; Exit.visible := true; Exit.oneWay := false;
                Exit.requires := Some (Requirement.mk req_state "power_on" None);
                Exit.blockedMessage := None; Exit.travelText := "" |}
             (Session.player Sample.session)))).
    reflexivity.
  - apply (proj2 (proj1 (canUseExit_decides_requirement Sample.engine
             {| Exit.to := "ROOM_002"; Exit.visible := true; Exit.oneWay := false;
                Exit.requires := Some (Requirement.mk req_stat "Physical" (Some 11%Z));
                Exit.blockedMessage := Some ""; Exit.travelText := "" |}
             (Session.player Sample.session)))).
    intros H. specialize (H 10%Z eq_refl). cbn in H. lia.
Defined.

(** X7. The spawn conditions of an NPC hold exactly when [darkness], if
    listed, finds no light and [light_present], if listed, finds light;
    every other condition name is ignored. An NPC that lists both never
    appears. *)
Theorem checkNpcSpawnConditions_spec (conditions : list string) (room : Room.t)
    (player : Player.t) :
  (checkNpcSpawnConditions conditions room player = true <->
     (In "darkness" conditions -> hasLight room player = false)
     /\ (In "light_present" conditions -> hasLight room player = true))
  /\ (In "darkness" conditions -> In "light_present" conditions ->
      checkNpcSpawnConditions conditions room player = false).
Proof.
  assert (Hiff : checkNpcSpawnConditions conditions room player = true <->
     (In "darkness" conditions -> hasLight room player = false)
     /\ (In "light_present" conditions -> hasLight room player = true)).
  { unfold checkNpcSpawnConditions. rewrite forallb_forall. split.
    - intros H. split; intros Hin; specialize (H _ Hin); cbn in H.
      + by destruct (hasLight room player).
      + exact H.
    - intros [Hd Hl] c Hc.
      destruct (String.eqb_spec c "darkness") as [->|_].
      + by rewrite (Hd Hc).
      + destruct (String.eqb_spec c "light_present") as [->|_]; [by apply Hl | reflexivity]. }
  split; [exact Hiff|].
  intros Hd Hl. apply not_true_is_false. intros H.
  apply Hiff in H as [H1 H2]. specialize (H1 Hd). specialize (H2 Hl). congruence.
Qed.

Lemma checkNpcSpawnConditions_spec_witness :
  checkNpcSpawnConditions ["lurking"; "darkness"; "light_present"] Sample.chamber
                          (Session.player Sample.session) = false.
Proof.
  apply (proj2 (checkNpcSpawnConditions_spec ["lurking"; "darkness"; "light_present"]
                  Sample.chamber (Session.player Sample.session)));
    cbn; auto.
Defined.

(** Everything a successful go has done. *)
Lemma handleGo_arrival (e e' : GameEngine.t) (s s' : Session.t)
    (c : ParsedCommand) (r : CommandResult) :
  handleGo e s c = (e', s', r) -> success r = true ->
  exists exit newRoom,
    getRoom e (Exit.to exit) = Some newRoom
    /\ e' = e
    /\ Session.player s'
       = Player.set_visitedRooms
           (markVisited (Some (Exit.to exit)) (Player.visitedRooms (Session.player s)))
           (Player.set_location (Exit.to exit) (Session.player s))
    /\ roomChanged r = Some true
    /\ stateChanges r
       = Some (mkStateChanges None (Some (Exit.to exit))
                 (Some (Player.visitedRooms (Session.player s')))
                 None None None None None)
    /\ match find (attacksOnArrival newRoom (Session.player s')) (Room.npcs newRoom) with
       | Some npc =>
           Session.inCombat s' = true /\ Session.currentEnemy s' = Some (NPC.id npc)
           /\ combatTriggered r = Some true
       | None =>
           Session.inCombat s' = Session.inCombat s
           /\ Session.currentEnemy s' = Session.currentEnemy s
           /\ combatTriggered r = Some false
       end.
Proof.
  unfold handleGo. intros H Hok.
  destruct (getCurrentRoom e s) as [room|]; [|injection H as <- <- <-; discriminate].
  destruct (option_map toLowerCase (noun c)) as [direction|];
    [|injection H as <- <- <-; discriminate].
  destruct (truthy direction); cbn [negb] in H;
    [|injection H as <- <- <-; discriminate].
  destruct (get_prop (Room.exits room) direction) as [exit| |];
    [|injection H as <- <- <-; discriminate|injection H as <- <- <-; discriminate].
  destruct (canUseExit e exit (Session.player s)) as [[] msg];
    [|injection H as <- <- <-; discriminate].
  destruct (getRoom e (Exit.to exit)) as [newRoom|] eqn:Hnew;
    [|injection H as <- <- <-; discriminate].
  exists exit, newRoom. split; [exact Hnew|].
  change (fun npc : NPC.t =>
            NPC.hostile npc
            && checkNpcSpawnConditions (NPC.spawnConditions npc) newRoom
                 (Player.set_visitedRooms
                    (markVisited (Some (Exit.to exit))
                       (Player.visitedRooms (Session.player s)))
                    (Player.set_location (Exit.to exit) (Session.player s))))
    with (attacksOnArrival newRoom
            (Player.set_visitedRooms
               (markVisited (Some (Exit.to exit))
                  (Player.visitedRooms (Session.player s)))
               (Player.set_location (Exit.to exit) (Session.player s)))) in H.
  destruct (find _ (Room.npcs newRoom)) as [npc|] eqn:Hfind;
    injection H as <- <- <-; cbn [Session.player Session.set_player];
    rewrite Hfind; by repeat split.
Qed.

(** X8. On a successful go, combat is triggered exactly when some NPC of
    the destination is hostile with all its spawn conditions holding for the
    player as arrived. The session is then marked in-combat with the first
    such NPC, in the order of the room, as current enemy; otherwise the
    combat fields of the session are untouched. A hostile NPC that lists
    [darkness] does not attack a player who has light. *)
Theorem go_triggers_combat (e e' : GameEngine.t) (s s' : Session.t)
    (c : ParsedCommand) (r : CommandResult) :
  handleGo e s c = (e', s', r) -> success r = true ->
  exists newRoom,
    getRoom e (Player.location (Session.player s')) = Some newRoom
    /\ (combatTriggered r = Some true <->
        exists npc, In npc (Room.npcs newRoom)
                    /\ attacksOnArrival newRoom (Session.player s') npc = true)
    /\ (combatTriggered r = Some true ->
        Session.inCombat s' = true
        /\ exists npc,
             find (attacksOnArrival newRoom (Session.player s')) (Room.npcs newRoom)
             = Some npc
             /\ Session.currentEnemy s' = Some (NPC.id npc))
    /\ (combatTriggered r <> Some true ->
        combatTriggered r = Some false
        /\ Session.inCombat s' = Session.inCombat s
        /\ Session.currentEnemy s' = Session.currentEnemy s)
    /\ (hasLight newRoom (Session.player s') = true ->
        (forall npc, In npc (Room.npcs newRoom) -> NPC.hostile npc = true ->
                     In "darkness" (NPC.spawnConditions npc)) ->
        combatTriggered r = Some false).
Proof.
  intros Hgo Hok.
  destruct (handleGo_arrival e e' s s' c r Hgo Hok)
    as (exit & newRoom & Hnew & _ & Hplayer & _ & _ & Hcombat).
  exists newRoom. split; [by rewrite Hplayer|].
  destruct (find (attacksOnArrival newRoom (Session.player s')) (Room.npcs newRoom))
    as [npc|] eqn:Hfind.
  - destruct Hcombat as (Hin & Hen & Htrig).
    pose proof (find_some _ _ Hfind) as [Hmem Hatt].
    split; [split; [by exists npc | done]|].
    split; [intros _; split; [done | by exists npc]|].
    split; [done|].
    intros Hlight Hdark. exfalso. unfold attacksOnArrival in Hatt.
    apply andb_true_iff in Hatt as [Hh Hc].
    apply (proj1 (checkNpcSpawnConditions_spec _ _ _)) in Hc as [Hd _].
    specialize (Hd (Hdark npc Hmem Hh)). congruence.
  - destruct Hcombat as (Hin & Hen & Htrig).
    split; [split; [congruence|]|].
    { intros (npc & Hmem & Hatt). pose proof (find_none _ _ Hfind npc Hmem). congruence. }
    split; [congruence|]. split; [done|]. done.
Qed.

Lemma go_triggers_combat_witness :
  exists newRoom,
    getRoom Sample.engine
            (Player.location (Session.player (snd (Sample.play ["go north"]))))
      = Some newRoom
    /\ (exists npc, In npc (Room.npcs newRoom)
                    /\ attacksOnArrival newRoom
                         (Session.player (snd (Sample.play ["go north"]))) npc = true).
Proof.
  destruct (go_triggers_combat
              Sample.engine (fst (Sample.play ["go north"]))
              Sample.session (snd (Sample.play ["go north"]))
              {| verb := "go"; noun := Some "north"; preposition := None;
                 indirectObject := None; raw := "go north"; valid := true;
                 errorMessage := None |}
              (resultOf (handleGo Sample.engine Sample.session
                 {| verb := "go"; noun := Some "north"; preposition := None;
                    indirectObject := None; raw := "go north"; valid := true;
                    errorMessage := None |}))
              eq_refl eq_refl)
    as (newRoom & Hnew & Hiff & _).
  exists newRoom. split; [exact Hnew|]. by apply Hiff.
Defined.

Lemma markVisited_NoDup (dest : option string) (l : list (option string)) :
  NoDup l -> NoDup (markVisited dest l).
Proof.
  intros Hl. unfold markVisited. case_bool_decide; [assumption|].
  apply NoDup_app. split; [assumption|]. split; [|apply NoDup_singleton].
  intros x Hx ->%list_elem_of_singleton. contradiction.
Qed.

(** X9. A successful go puts the player in the destination of the exit and
    leaves the engine as it is; the destination is appended to
    [visitedRooms] when it is not there yet and the list is left alone when
    it is, so a list without repetition stays without repetition; nothing
    else of the player changes, and the result reports the room change with
    the new location and list. *)
Theorem go_marks_destination_once (e e' : GameEngine.t) (s s' : Session.t)
    (c : ParsedCommand) (r : CommandResult) :
  handleGo e s c = (e', s', r) -> success r = true ->
  exists dest,
    e' = e
    /\ is_Some (getRoom e dest)
    /\ Player.location (Session.player s') = dest
    /\ (Some dest ∈ Player.visitedRooms (Session.player s) ->
        Player.visitedRooms (Session.player s') = Player.visitedRooms (Session.player s))
    /\ (Some dest ∉ Player.visitedRooms (Session.player s) ->
        Player.visitedRooms (Session.player s')
        = Player.visitedRooms (Session.player s) ++ [Some dest])
    /\ (NoDup (Player.visitedRooms (Session.player s)) ->
        NoDup (Player.visitedRooms (Session.player s')))
    /\ Player.set_location (Player.location (Session.player s))
         (Player.set_visitedRooms (Player.visitedRooms (Session.player s))
            (Session.player s')) = Session.player s
    /\ roomChanged r = Some true
    /\ stateChanges r
       = Some (mkStateChanges None (Some dest)
                 (Some (Player.visitedRooms (Session.player s')))
                 None None None None None).
Proof.
  intros Hgo Hok.
  destruct (handleGo_arrival e e' s s' c r Hgo Hok)
    as (exit & newRoom & Hnew & He & Hplayer & Hchanged & Hchanges & _).
  exists (Exit.to exit). split; [exact He|]. split; [by rewrite Hnew|].
  rewrite Hplayer. cbn [Player.location Player.visitedRooms Player.set_visitedRooms
                        Player.set_location].
  split; [reflexivity|]. unfold markVisited.
  split; [by intros H; rewrite bool_decide_eq_true_2|].
  split; [by intros H; rewrite bool_decide_eq_false_2|].
  split; [apply markVisited_NoDup|].
  split; [by destruct (Session.player s)|].
  split; [exact Hchanged|]. rewrite Hchanges, Hplayer. reflexivity.
Qed.

Lemma go_marks_destination_once_witness :
  exists dest,
    Player.location (Session.player (snd (Sample.play ["go north"; "go south"]))) = dest
    /\ is_Some (getRoom (fst (Sample.play ["go north"])) dest).
Proof.
  assert (Hrun :
    handleGo (fst (Sample.play ["go north"])) (snd (Sample.play ["go north"]))
      {| verb := "go"; noun := Some "south"; preposition := None;
         indirectObject := None; raw := "go south"; valid := true;
         errorMessage := None |}
    = (fst (Sample.play ["go north"; "go south"]),
       snd (Sample.play ["go north"; "go south"]),
       resultOf (handleGo (fst (Sample.play ["go north"])) (snd (Sample.play ["go north"]))
         {| verb := "go"; noun := Some "south"; preposition := None;
            indirectObject := None; raw := "go south"; valid := true;
            errorMessage := None |})))
    by (vm_compute; reflexivity).
  assert (Hok : success (resultOf (handleGo (fst (Sample.play ["go north"]))
                  (snd (Sample.play ["go north"]))
                  {| verb := "go"; noun := Some "south"; preposition := None;
                     indirectObject := None; raw := "go south"; valid := true;
                     errorMessage := None |})) = true)
    by (vm_compute; reflexivity).
  destruct (go_marks_destination_once _ _ _ _ _ _ Hrun Hok)
    as (dest & _ & Hroom & Hloc & _).
  exists dest. split; [exact Hloc | exact Hroom].
Defined.

End Exits.

(** ** What commands leave alone *)

Section Frames.
Import JS CommandParser GameEngine.

Ltac orderly_cases :=
  intros e s c; unfold engineOf, sessionOf, resultOf;
  repeat case_match;
  cbn [fst snd success result resultWith];
  repeat split; first [reflexivity | discriminate | congruence].

Lemma handleLook_orderly : orderly handleLook.
Proof. unfold handleLook. orderly_cases. Qed.

Lemma handleExamine_orderly : orderly handleExamine.
Proof. apply handleLook_orderly. Qed.

Lemma handleTake_orderly : orderly handleTake.
Proof. unfold handleTake. orderly_cases. Qed.

Lemma handleDrop_orderly : orderly handleDrop.
Proof. unfold handleDrop. orderly_cases. Qed.

Lemma handleInventory_orderly : orderly handleInventory.
Proof. unfold handleInventory. orderly_cases. Qed.

Lemma handleUse_orderly : orderly handleUse.
Proof. unfold handleUse. orderly_cases. Qed.

Lemma handleLight_orderly : orderly handleLight.
Proof. unfold handleLight. orderly_cases. Qed.

Lemma handleExtinguish_orderly : orderly handleExtinguish.
Proof. unfold handleExtinguish. orderly_cases. Qed.

Lemma handleTurn_orderly : orderly handleTurn.
Proof.
  intros e s c. unfold handleTurn.
  repeat case_match;
    first [apply handleLight_orderly | apply handleExtinguish_orderly
          | by repeat split ].
Qed.

Lemma handleOpen_orderly : orderly handleOpen.
Proof. unfold handleOpen. orderly_cases. Qed.

Lemma handleClose_orderly : orderly handleClose.
Proof. unfold handleClose. orderly_cases. Qed.

Lemma handleAttack_orderly : orderly handleAttack.
Proof. unfold handleAttack. orderly_cases. Qed.

Lemma handleCast_orderly : orderly handleCast.
Proof. unfold handleCast. orderly_cases. Qed.

Lemma handleHelp_orderly : orderly handleHelp.
Proof. unfold handleHelp. orderly_cases. Qed.

Lemma handleEquip_orderly : orderly handleEquip.
Proof. unfold handleEquip. orderly_cases. Qed.

Lemma handleUnequip_orderly : orderly handleUnequip.
Proof. unfold handleUnequip. orderly_cases. Qed.

Lemma player_visited_same (p : Player.t) :
  Player.set_visitedRooms (Player.visitedRooms p) p = p.
Proof. by destruct p. Qed.

Lemma orderly_framed (h : GameEngine.t -> Session.t -> ParsedCommand -> Step)
    (v : string) (e : GameEngine.t) (s : Session.t) (c : ParsedCommand) :
  orderly h -> framed v e s (h e s c).
Proof.
  intros Hh. destruct (Hh e s c) as (Hw & Hc & Hk & Hhp & Hmp & Hfail).
  unfold framed. split; [exact Hw|]. split; [exact Hc|].
  split; [unfold constants in Hk; congruence|].
  split; [auto|]. split; [auto|].
  intros Hf. destruct (Hfail Hf) as [He Hs]. rewrite He, Hs.
  repeat split; auto using player_visited_same.
Qed.

Lemma handleGo_framed (e : GameEngine.t) (s : Session.t) (c : ParsedCommand) :
  framed "go" e s (handleGo e s c).
Proof.
  unfold framed, handleGo, engineOf, sessionOf, resultOf.
  repeat case_match; cbn [fst snd success result];
    repeat split; intros;
      first [ reflexivity | discriminate | congruence
            | apply player_visited_same
            | by destruct (Session.player s) ].
Qed.

Lemma handleRest_framed (e : GameEngine.t) (s : Session.t) (c : ParsedCommand) :
  framed "rest" e s (handleRest e s c).
Proof.
  unfold framed, handleRest, engineOf, sessionOf, resultOf.
  repeat case_match; cbn [fst snd success result resultWith];
    repeat split; intros;
      first [ reflexivity | discriminate | congruence | apply player_visited_same ].
Qed.

Lemma handleRestart_framed (e : GameEngine.t) (s : Session.t) (c : ParsedCommand) :
  framed "restart" e s (handleRestart e s c).
Proof.
  unfold framed, handleRestart, engineOf, sessionOf, resultOf.
  cbn [fst snd success resultWith].
  repeat split; intros; first [ reflexivity | discriminate | congruence ].
Qed.

Ltac framed_case lem :=
  match goal with
  | |- framed (verb ?c) _ _ (if String.eqb (verb ?c) ?v then _ else _) =>
      destruct (String.eqb_spec (verb c) v) as [Hverb | _];
      [ lem | ]
  end.

Lemma dispatch_framed (e : GameEngine.t) (s : Session.t) (c : ParsedCommand) :
  framed (verb c) e s (dispatch e s c).
Proof.
  unfold dispatch. cbv zeta.
  framed_case ltac:(apply orderly_framed, handleLook_orderly).
  framed_case ltac:(rewrite Hverb; apply handleGo_framed).
  framed_case ltac:(apply orderly_framed, handleTake_orderly).
  framed_case ltac:(apply orderly_framed, handleDrop_orderly).
  framed_case ltac:(apply orderly_framed, handleExamine_orderly).
  framed_case ltac:(apply orderly_framed, handleInventory_orderly).
  framed_case ltac:(apply orderly_framed, handleUse_orderly).
  framed_case ltac:(apply orderly_framed, handleTurn_orderly).
  framed_case ltac:(apply orderly_framed, handleLight_orderly).
  framed_case ltac:(apply orderly_framed, handleExtinguish_orderly).
  framed_case ltac:(apply orderly_framed, handleOpen_orderly).
  framed_case ltac:(apply orderly_framed, handleClose_orderly).
  framed_case ltac:(apply orderly_framed, handleAttack_orderly).
  framed_case ltac:(apply orderly_framed, handleCast_orderly).
  framed_case ltac:(rewrite Hverb; apply handleRest_framed).
  framed_case ltac:(apply orderly_framed, handleHelp_orderly).
  framed_case ltac:(rewrite Hverb; apply handleRestart_framed).
  framed_case ltac:(apply orderly_framed, handleEquip_orderly).
  framed_case ltac:(apply orderly_framed, handleUnequip_orderly).
  unfold framed, engineOf, sessionOf, resultOf. cbn [fst snd].
  repeat split; auto using player_visited_same.
Qed.

(** The frame of a processed input: a command that did not parse to a
    valid one changes nothing. *)
Lemma processCommand_framed (e e' : GameEngine.t) (s s' : Session.t)
    (input : string) (r : CommandResult) :
  processCommand e s input = Returns (e', s', r) ->
  exists c, parse input = Returns c /\ framed (verb c) e s (e', s', r).
Proof.
  unfold processCommand. destruct (parse input) as [c|]; [|discriminate].
  intros H. exists c. split; [reflexivity|].
  destruct (valid c); cbn [negb] in H; injection H as H.
  - rewrite <- H. apply dispatch_framed.
  - subst. unfold framed, engineOf, sessionOf, resultOf. cbn [fst snd].
    repeat split; auto using player_visited_same.
Qed.

(** X10. A command that fails leaves the engine exactly as it was and, for
    every verb but go, the session too. A failed go keeps everything of the
    session except that [visitedRooms] may have grown (the case of the exit
    whose destination is not loaded). *)
Theorem failed_command_changes_nothing (e e' : GameEngine.t) (s s' : Session.t)
    (input : string) (r : CommandResult) :
  processCommand e s input = Returns (e', s', r) -> success r = false ->
  e' = e
  /\ Session.inCombat s' = Session.inCombat s
  /\ Session.currentEnemy s' = Session.currentEnemy s
  /\ Player.set_visitedRooms (Player.visitedRooms (Session.player s)) (Session.player s')
     = Session.player s
  /\ (forall c, parse input = Returns c -> verb c <> "go" -> s' = s).
Proof.
  intros Hrun Hfail.
  destruct (processCommand_framed e e' s s' input r Hrun)
    as (c & Hc & _ & _ & _ & _ & _ & Hf).
  destruct (Hf Hfail) as (He & Hin & Hen & Hp & Hs).
  repeat split; try assumption.
  intros c' Hc' Hgo. rewrite Hc in Hc'. injection Hc' as <-. by apply Hs.
Qed.

Lemma failed_command_changes_nothing_witness :
  fst (Sample.play ["take the moon"]) = Sample.engine
  /\ snd (Sample.play ["take the moon"]) = Sample.session.
Proof.
  destruct (failed_command_changes_nothing
              Sample.engine (fst (Sample.play ["take the moon"]))
              Sample.session (snd (Sample.play ["take the moon"]))
              "take the moon"
              (result false ("You can't take " +:+ quote +:+ "moon" +:+ quote +:+ "."))
              eq_refl eq_refl)
    as (He & _ & _ & _ & Hs).
  split; [exact He|]. apply (Hs _ eq_refl). discriminate.
Defined.

Lemma canUseExit_worldState (e e' : GameEngine.t) (exit : Exit.t) (player : Player.t) :
  worldState e' = worldState e -> canUseExit e' exit player = canUseExit e exit player.
Proof. intros H. unfold canUseExit. by rewrite H. Qed.

(** X11. No command changes the world state map or the configuration of
    the engine, restart included; the answer of the exit gate for a given
    player is therefore the same after the command as before it, and an
    exit that waits for a world state flag cannot be opened by playing. *)
Theorem commands_keep_world_state (e e' : GameEngine.t) (s s' : Session.t)
    (input : string) (r : CommandResult) :
  processCommand e s input = Returns (e', s', r) ->
  worldState e' = worldState e
  /\ config e' = config e
  /\ (forall exit player, canUseExit e' exit player = canUseExit e exit player).
Proof.
  intros Hrun.
  destruct (processCommand_framed e e' s s' input r Hrun)
    as (c & _ & Hw & Hc & _).
  cbn [engineOf fst] in Hw, Hc. split; [exact Hw|]. split; [exact Hc|].
  intros exit player. by apply canUseExit_worldState.
Qed.

Lemma commands_keep_world_state_witness :
  worldState (fst (Sample.play ["restart"])) = worldState Sample.engine.
Proof.
  apply (commands_keep_world_state
           Sample.engine (fst (Sample.play ["restart"]))
           Sample.session (snd (Sample.play ["restart"])) "restart"
           (resultOf (handleRestart Sample.engine Sample.session
                        (bareCommand "restart" "restart")))
           eq_refl).
Defined.

(** X12. No command changes the name of the player. Name, gold, xp, level,
    stats, maximal hp and mp, status effects and notes are changed by no
    command but restart, and hp and mp by no command but rest and
    restart. *)
Theorem commands_keep_player_constants (e e' : GameEngine.t) (s s' : Session.t)
    (input : string) (r : CommandResult) :
  processCommand e s input = Returns (e', s', r) ->
  Player.name (Session.player s') = Player.name (Session.player s)
  /\ (forall c, parse input = Returns c -> verb c <> "restart" ->
        constants (Session.player s') = constants (Session.player s))
  /\ (forall c, parse input = Returns c -> verb c <> "rest" -> verb c <> "restart" ->
        Player.hp (Session.player s') = Player.hp (Session.player s)
        /\ Player.mp (Session.player s') = Player.mp (Session.player s)).
Proof.
  intros Hrun.
  destruct (processCommand_framed e e' s s' input r Hrun)
    as (c & Hc & _ & _ & Hname & Hk & Hv & _).
  cbn [sessionOf fst snd] in Hname, Hk, Hv. split; [exact Hname|].
  split; intros c' Hc'; rewrite Hc in Hc'; injection Hc' as <-; assumption.
Qed.

Lemma commands_keep_player_constants_witness :
  Player.name (Session.player (snd (Sample.play ["restart"]))) = "Ripley".
Proof.
  apply (commands_keep_player_constants
           Sample.engine (fst (Sample.play ["restart"]))
           Sample.session (snd (Sample.play ["restart"])) "restart"
           (resultOf (handleRestart Sample.engine Sample.session
                        (bareCommand "restart" "restart")))
           eq_refl).
Defined.

End Frames.

(** ** Rest and light *)

Section RestAndLight.
Import JS CommandParser GameEngine.


(** Past the exact range a sum is rounded: 2^53 + 25 is no double, and the
    nearest one is 2^53 + 24. *)
Lemma numAdd_rounds :
  numAdd 9007199254740992 25 = 9007199254741016%Z
  /\ numAdd 9007199254740992 1 = 9007199254740992%Z
  /\ numAdd 4503599627370496 25 = 4503599627370521%Z.
Proof. repeat split. Qed.



Lemma equippedLight_hasLight (room : Room.t) (player : Player.t) (lightId : string) :
  equippedLight player = Some lightId ->
  hasLight room player
  = Room.lighting_isLit room || Player.flag player (lightId +:+ "_on").
Proof.
  unfold equippedLight, hasLight.
  destruct (Equipped.get (Player.equippedItems player) light_source) as [l|];
    [|discriminate].
  destruct (truthy l) eqn:Hl; [|discriminate]. intros [= <-].
  by destruct (Room.lighting_isLit room).
Qed.

(** What a successful light or extinguish has done. *)
Lemma handleLight_success (e e' : GameEngine.t) (s s' : Session.t)
    (c : ParsedCommand) (r : CommandResult) :
  handleLight e s c = (e', s', r) -> success r = true ->
  exists lightId,
    equippedLight (Session.player s) = Some lightId
    /\ Player.flag (Session.player s) (lightId +:+ "_on") = false
    /\ e' = e
    /\ s' = Session.set_player
              (Player.set_flags (<[lightId +:+ "_on" := true]>
                                   (Player.flags (Session.player s)))
                                (Session.player s)) s.
Proof.
  unfold handleLight. intros H Hok.
  destruct (nounOf c) as [n|]; [|injection H as <- <- <-; discriminate].
  destruct (equippedLight (Session.player s)) as [lightId|];
    [|injection H as <- <- <-; discriminate].
  destruct (definitionMatches e lightId n); cbn [negb] in H;
    [|injection H as <- <- <-; discriminate].
  destruct (Player.flag (Session.player s) (lightId +:+ "_on")) eqn:Hf;
    [injection H as <- <- <-; discriminate|].
  injection H as <- <- <-. by exists lightId.
Qed.

Lemma handleExtinguish_success (e e' : GameEngine.t) (s s' : Session.t)
    (c : ParsedCommand) (r : CommandResult) :
  handleExtinguish e s c = (e', s', r) -> success r = true ->
  exists lightId,
    equippedLight (Session.player s) = Some lightId
    /\ Player.flag (Session.player s) (lightId +:+ "_on") = true
    /\ e' = e
    /\ s' = Session.set_player
              (Player.set_flags (<[lightId +:+ "_on" := false]>
                                   (Player.flags (Session.player s)))
                                (Session.player s)) s.
Proof.
  unfold handleExtinguish. intros H Hok.
  destruct (nounOf c) as [n|]; [|injection H as <- <- <-; discriminate].
  destruct (equippedLight (Session.player s)) as [lightId|];
    [|injection H as <- <- <-; discriminate].
  destruct (definitionMatches e lightId n); cbn [negb] in H;
    [|injection H as <- <- <-; discriminate].
  destruct (Player.flag (Session.player s) (lightId +:+ "_on")) eqn:Hf;
    cbn [negb] in H; [|injection H as <- <- <-; discriminate].
  injection H as <- <- <-. by exists lightId.
Qed.

(** X14. After a successful light the player has light in every room, lit
    or not, and only the flags of the player have changed; the light was off
    before, and a further light command fails whatever it names. *)
Theorem light_gives_light_everywhere (e e' : GameEngine.t) (s s' : Session.t)
    (c : ParsedCommand) (r : CommandResult) :
  handleLight e s c = (e', s', r) -> success r = true ->
  e' = e
  /\ (forall room, hasLight room (Session.player s') = true)
  /\ (forall room, Room.lighting_isLit room = false ->
                   hasLight room (Session.player s) = false)
  /\ Player.set_flags (Player.flags (Session.player s)) (Session.player s')
     = Session.player s
  /\ (forall c', success (resultOf (handleLight e' s' c')) = false).
Proof.
  intros H Hok.
  destruct (handleLight_success e e' s s' c r H Hok) as (lightId & Heq & Hoff & He & Hs).
  assert (Heq' : equippedLight (Session.player s') = Some lightId) by (by rewrite Hs).
  assert (Hon : Player.flag (Session.player s') (lightId +:+ "_on") = true).
  { rewrite Hs. unfold Player.flag.
    cbn [Session.player Session.set_player Player.flags Player.set_flags].
    by rewrite lookup_insert_eq. }
  split; [exact He|]. split.
  { intros room. rewrite (equippedLight_hasLight room _ lightId Heq'), Hon.
    by destruct (Room.lighting_isLit room). }
  split.
  { intros room Hdark. by rewrite (equippedLight_hasLight room _ lightId Heq), Hdark, Hoff. }
  split; [rewrite Hs; by destruct (Session.player s)|].
  intros c'. unfold handleLight, resultOf. rewrite Heq', Hon.
  destruct (nounOf c'); [|reflexivity].
  by destruct (definitionMatches e' lightId s0).
Qed.

Lemma light_gives_light_everywhere_witness :
  hasLight Sample.cellar
    (Session.player
       (snd (Sample.play ["take flashlight"; "equip flashlight"; "light flashlight"])))
  = true.
Proof.
  assert (Hrun :
    handleLight
      (fst (Sample.play ["take flashlight"; "equip flashlight"]))
      (snd (Sample.play ["take flashlight"; "equip flashlight"]))
      {| verb := "light"; noun := Some "flashlight"; preposition := None;
         indirectObject := None; raw := "light flashlight"; valid := true;
         errorMessage := None |}
    = (fst (Sample.play ["take flashlight"; "equip flashlight"; "light flashlight"]),
       snd (Sample.play ["take flashlight"; "equip flashlight"; "light flashlight"]),
       resultWith true "You turn on the flashlight. A bright beam illuminates the area."
         (mkStateChanges None None None None None
            (Some (Player.flags (Session.player
               (snd (Sample.play ["take flashlight"; "equip flashlight";
                                  "light flashlight"])))))
            None None)))
    by (vm_compute; reflexivity).
  exact (proj1 (proj2 (light_gives_light_everywhere _ _ _ _ _ _ Hrun eq_refl))
           Sample.cellar).
Defined.

(** X15. After a successful extinguish the player has light exactly in the
    rooms that are lit themselves; the light was on before, only the flags of
    the player have changed, and a further extinguish command fails. *)
Theorem extinguish_leaves_room_light_only (e e' : GameEngine.t) (s s' : Session.t)
    (c : ParsedCommand) (r : CommandResult) :
  handleExtinguish e s c = (e', s', r) -> success r = true ->
  e' = e
  /\ (forall room, hasLight room (Session.player s') = Room.lighting_isLit room)
  /\ (forall room, hasLight room (Session.player s) = true)
  /\ Player.set_flags (Player.flags (Session.player s)) (Session.player s')
     = Session.player s
  /\ (forall c', success (resultOf (handleExtinguish e' s' c')) = false).
Proof.
  intros H Hok.
  destruct (handleExtinguish_success e e' s s' c r H Hok)
    as (lightId & Heq & Hon & He & Hs).
  assert (Heq' : equippedLight (Session.player s') = Some lightId) by (by rewrite Hs).
  assert (Hoff : Player.flag (Session.player s') (lightId +:+ "_on") = false).
  { rewrite Hs. unfold Player.flag.
    cbn [Session.player Session.set_player Player.flags Player.set_flags].
    by rewrite lookup_insert_eq. }
  split; [exact He|]. split.
  { intros room. rewrite (equippedLight_hasLight room _ lightId Heq'), Hoff.
    by destruct (Room.lighting_isLit room). }
  split.
  { intros room. rewrite (equippedLight_hasLight room _ lightId Heq), Hon.
    by destruct (Room.lighting_isLit room). }
  split; [rewrite Hs; by destruct (Session.player s)|].
  intros c'. unfold handleExtinguish, resultOf. rewrite Heq', Hoff.
  destruct (nounOf c'); [|reflexivity].
  by destruct (definitionMatches e' lightId s0).
Qed.

Lemma extinguish_leaves_room_light_only_witness :
  hasLight Sample.cellar
    (Session.player
       (snd (Sample.play ["take flashlight"; "equip flashlight"; "light flashlight";
                          "turn off flashlight"])))
  = false.
Proof.
  assert (Hrun :
    handleExtinguish
      (fst (Sample.play ["take flashlight"; "equip flashlight"; "light flashlight"]))
      (snd (Sample.play ["take flashlight"; "equip flashlight"; "light flashlight"]))
      {| verb := "extinguish"; noun := Some "flashlight"; preposition := None;
         indirectObject := None; raw := "extinguish flashlight"; valid := true;
         errorMessage := None |}
    = (fst (Sample.play ["take flashlight"; "equip flashlight"; "light flashlight";
                         "turn off flashlight"]),
       snd (Sample.play ["take flashlight"; "equip flashlight"; "light flashlight";
                         "turn off flashlight"]),
       resultWith true "You turn off the flashlight. The beam of light disappears."
         (mkStateChanges None None None None None
            (Some (Player.flags (Session.player
               (snd (Sample.play ["take flashlight"; "equip flashlight";
                                  "light flashlight"; "turn off flashlight"])))))
            None None)))
    by (vm_compute; reflexivity).
  exact (proj1 (proj2 (extinguish_leaves_room_light_only _ _ _ _ _ _ Hrun eq_refl))
           Sample.cellar).
Defined.

End RestAndLight.

(** ** Equipment *)

Section EquipmentMore.
Import JS CommandParser GameEngine.

Lemma Equipped_get_set (eq : EquippedItems) (slot slot' : EquipmentSlot) (v : string) :
  Equipped.get (Equipped.set eq slot v) slot'
  = if decide (slot' = slot) then Some v else Equipped.get eq slot'.
Proof.
  induction eq as [|[k w] eq IH]; cbn [Equipped.set Equipped.get].
  - destruct (decide (slot = slot')), (decide (slot' = slot)); congruence.
  - destruct (decide (k = slot)) as [->|Hk]; cbn [Equipped.get].
    + destruct (decide (slot = slot')), (decide (slot' = slot)); congruence.
    + destruct (decide (k = slot')) as [->|Hk'].
      * destruct (decide (slot' = slot)); congruence.
      * exact IH.
Qed.

Lemma Equipped_set_keys (eq : EquippedItems) (slot : EquipmentSlot) (v : string) :
  NoDup (map fst eq) -> NoDup (map fst (Equipped.set eq slot v)).
Proof.
  induction eq as [|[k w] eq IH]; cbn [Equipped.set map fst]; intros Hnd.
  - apply NoDup_singleton.
  - apply NoDup_cons in Hnd as [Hk Hnd].
    destruct (decide (k = slot)) as [->|Hne]; cbn [map fst]; [by constructor|].
    constructor; [|by apply IH].
    intros Hin. apply Hk. clear IH Hnd Hk.
    induction eq as [|[k' w'] eq IH]; cbn [Equipped.set map fst] in *.
    + apply list_elem_of_singleton in Hin. congruence.
    + destruct (decide (k' = slot)); cbn [map fst] in *; [exact Hin|].
      apply elem_of_cons in Hin as [->|Hin]; [by left|]. right. by apply IH.
Qed.

Lemma Equipped_get_remove (eq : EquippedItems) (slot slot' : EquipmentSlot) :
  Equipped.get (Equipped.remove eq slot) slot'
  = if decide (slot' = slot) then None else Equipped.get eq slot'.
Proof.
  unfold Equipped.remove, EquippedItems in *. induction eq as [|[k w] eq IH].
  - cbn. by destruct (decide (slot' = slot)).
  - rewrite filter_cons. cbn [fst]. destruct (decide (k <> slot)) as [Hk|Hk].
    + cbn [Equipped.get]. destruct (decide (k = slot')) as [->|Hk'].
      * by destruct (decide (slot' = slot)).
      * exact IH.
    + assert (k = slot) as -> by (by destruct (decide (k = slot))).
      rewrite IH. cbn [Equipped.get].
      destruct (decide (slot' = slot)) as [->|Hne]; [reflexivity|].
      by destruct (decide (slot = slot')).
Qed.

Lemma Equipped_remove_keys (eq : EquippedItems) (slot : EquipmentSlot) :
  NoDup (map fst eq) -> NoDup (map fst (Equipped.remove eq slot)).
Proof.
  intros H. unfold Equipped.remove, EquippedItems in *.
  eapply sublist_NoDup; [exact H|]. apply (fmap_sublist fst), sublist_filter.
Qed.

Lemma Equipped_free_set_remove (eq : EquippedItems) (slot : EquipmentSlot) (v : string) :
  Equipped.get eq slot = None ->
  Equipped.set eq slot v = eq ++ [(slot, v)]
  /\ Equipped.remove (Equipped.set eq slot v) slot = eq.
Proof.
  unfold Equipped.remove, EquippedItems in *.
  induction eq as [|[k w] eq IH]; cbn [Equipped.get Equipped.set].
  - intros _. split; [reflexivity|]. rewrite filter_cons. cbn [fst].
    by destruct (decide (slot <> slot)).
  - destruct (decide (k = slot)) as [->|Hk]; [discriminate|].
    intros H. destruct (IH H) as [Hset Hrem]. split; [by rewrite Hset|].
    rewrite filter_cons. cbn [fst]. destruct (decide (k <> slot)); [|done].
    by rewrite Hrem.
Qed.

(** What a successful equip has done. *)
Lemma handleEquip_success (e e' : GameEngine.t) (s s' : Session.t)
    (c : ParsedCommand) (r : CommandResult) :
  handleEquip e s c = (e', s', r) -> success r = true ->
  exists n itemIndex item slot,
    nounOf c = Some n
    /\ findIndex (itemMatches n) (Player.inventory (Session.player s)) = Some itemIndex
    /\ Player.inventory (Session.player s) !! itemIndex = Some item
    /\ Item.equipmentSlot item = Some slot /\ Item.equippable item = true
    /\ e' = e
    /\ s' = Session.set_player
              (Player.set_inventory (splice1 itemIndex (Player.inventory (Session.player s)))
                 (Player.set_equippedItems
                    (Equipped.set (Player.equippedItems (Session.player s)) slot
                                  (Item.id item))
                    (Session.player s))) s.
Proof.
  unfold handleEquip. intros H Hok.
  destruct (nounOf c) as [n|]; [|injection H as <- <- <-; discriminate].
  destruct (findIndex (itemMatches n) (Player.inventory (Session.player s)))
    as [itemIndex|] eqn:Hi; [|injection H as <- <- <-; discriminate].
  destruct (Player.inventory (Session.player s) !! itemIndex) as [item|] eqn:Hitem;
    [|injection H as <- <- <-; discriminate].
  destruct (Item.equipmentSlot item) as [slot|] eqn:Hslot;
    [|injection H as <- <- <-; discriminate].
  destruct (Item.equippable item) eqn:Heq; cbn [negb] in H;
    [|injection H as <- <- <-; discriminate].
  match type of H with
  | context [match ?x with Some _ => _ | None => _ end] => destruct x
  end; injection H as <- <- <-; [discriminate|].
  by exists n, itemIndex, item, slot.
Qed.

(** X16. A successful equip removes exactly the chosen entry from the
    inventory and records its id under the slot of the item; the other slots
    keep what they held, a record with one entry per slot keeps that shape,
    and nothing else of the player or of the engine changes. *)
Theorem equip_moves_item_to_slot (e e' : GameEngine.t) (s s' : Session.t)
    (c : ParsedCommand) (r : CommandResult) :
  handleEquip e s c = (e', s', r) -> success r = true ->
  exists itemIndex item slot,
    Player.inventory (Session.player s) !! itemIndex = Some item
    /\ Item.equipmentSlot item = Some slot
    /\ Player.inventory (Session.player s')
       = splice1 itemIndex (Player.inventory (Session.player s))
    /\ S (length (Player.inventory (Session.player s')))
       = length (Player.inventory (Session.player s))
    /\ Equipped.get (Player.equippedItems (Session.player s')) slot = Some (Item.id item)
    /\ (forall slot', slot' <> slot ->
          Equipped.get (Player.equippedItems (Session.player s')) slot'
          = Equipped.get (Player.equippedItems (Session.player s)) slot')
    /\ (NoDup (map fst (Player.equippedItems (Session.player s))) ->
        NoDup (map fst (Player.equippedItems (Session.player s'))))
    /\ e' = e
    /\ Player.set_inventory (Player.inventory (Session.player s))
         (Player.set_equippedItems (Player.equippedItems (Session.player s))
            (Session.player s')) = Session.player s.
Proof.
  intros H Hok.
  destruct (handleEquip_success e e' s s' c r H Hok)
    as (n & itemIndex & item & slot & _ & _ & Hitem & Hslot & _ & He & Hs).
  exists itemIndex, item, slot. rewrite Hs.
  cbn [Session.player Session.set_player Player.inventory Player.equippedItems
       Player.set_inventory Player.set_equippedItems].
  split; [exact Hitem|]. split; [exact Hslot|]. split; [reflexivity|].
  split.
  { unfold splice1. rewrite length_app, length_take, length_drop.
    apply lookup_lt_Some in Hitem. lia. }
  split; [rewrite Equipped_get_set; by destruct (decide (slot = slot))|].
  split; [intros slot' Hne; rewrite Equipped_get_set; by destruct (decide (slot' = slot))|].
  split; [apply Equipped_set_keys|]. split; [exact He|].
  by destruct (Session.player s).
Qed.

Lemma equip_moves_item_to_slot_witness :
  exists itemIndex item slot,
    Player.inventory (Session.player (snd (Sample.play ["take flashlight"]))) !! itemIndex
      = Some item
    /\ Equipped.get
         (Player.equippedItems
            (Session.player (snd (Sample.play ["take flashlight"; "equip flashlight"]))))
         slot = Some (Item.id item).
Proof.
  assert (Hrun :
    handleEquip (fst (Sample.play ["take flashlight"])) (snd (Sample.play ["take flashlight"]))
      {| verb := "equip"; noun := Some "flashlight"; preposition := None;
         indirectObject := None; raw := "equip flashlight"; valid := true;
         errorMessage := None |}
    = (fst (Sample.play ["take flashlight"; "equip flashlight"]),
       snd (Sample.play ["take flashlight"; "equip flashlight"]),
       resultOf (handleEquip (fst (Sample.play ["take flashlight"]))
         (snd (Sample.play ["take flashlight"]))
         {| verb := "equip"; noun := Some "flashlight"; preposition := None;
            indirectObject := None; raw := "equip flashlight"; valid := true;
            errorMessage := None |})))
    by (vm_compute; reflexivity).
  assert (Hok : success (resultOf (handleEquip (fst (Sample.play ["take flashlight"]))
         (snd (Sample.play ["take flashlight"]))
         {| verb := "equip"; noun := Some "flashlight"; preposition := None;
            indirectObject := None; raw := "equip flashlight"; valid := true;
            errorMessage := None |})) = true)
    by (vm_compute; reflexivity).
  destruct (equip_moves_item_to_slot _ _ _ _ _ _ Hrun Hok)
    as (itemIndex & item & slot & Hitem & _ & _ & _ & Hget & _).
  exists itemIndex, item, slot. split; [exact Hitem | exact Hget].
Defined.

Lemma find_weaker {A} (p q : A -> bool) (l : list A) (x : A) :
  (forall y, p y = true -> q y = true) -> find p l = Some x -> find q l <> None.
Proof.
  intros Hpq Hfind. apply find_some in Hfind as [Hin Hp].
  intros Hnone. pose proof (find_none _ _ Hnone x Hin) as Hq.
  rewrite (Hpq x Hp) in Hq. discriminate.
Qed.

(** A definition that answers to a name can also be found by its id. *)
Lemma definitionMatches_findDefinition (e : GameEngine.t) (itemId n : string) :
  definitionMatches e itemId n = true -> exists obj, findDefinition e itemId = Some obj.
Proof.
  unfold definitionMatches, findDefinition.
  induction (rooms e) as [|[k room] rs IH]; [discriminate|].
  cbn [existsb findDefinitionIn snd]. intros H.
  destruct (find (fun o => String.eqb (Obj.id o) itemId) (Room.objects room))
    as [obj|] eqn:Hfind; [by exists obj|].
  apply orb_true_iff in H as [H|H]; [|by apply IH].
  apply bool_decide_eq_true in H as [o Ho]. exfalso.
  apply (find_weaker _ (fun o => String.eqb (Obj.id o) itemId) _ _) in Ho;
    [contradiction|].
  intros y Hy. by apply andb_true_iff in Hy as [? _].
Qed.

Lemma findDefinitionIn_Some (rs : list (string * Room.t)) (itemId : string) (obj : Obj.t) :
  findDefinitionIn rs itemId = Some obj ->
  Obj.id obj = itemId /\ exists kr, In kr rs /\ In obj (Room.objects (snd kr)).
Proof.
  induction rs as [|[k room] rs IH]; [discriminate|].
  cbn [findDefinitionIn].
  destruct (find (fun o => String.eqb (Obj.id o) itemId) (Room.objects room))
    as [o|] eqn:Hfind.
  - intros [= <-]. apply find_some in Hfind as [Hin Heq].
    apply String.eqb_eq in Heq. split; [assumption|].
    exists (k, room). split; [by left | assumption].
  - intros H. destruct (IH H) as [Hid (kr & Hkr & Hobj)]. split; [assumption|].
    exists kr. split; [by right | assumption].
Qed.

(** What a successful unequip has done. *)
Lemma handleUnequip_cases (e : GameEngine.t) (s : Session.t) (c : ParsedCommand) :
  (exists n, nounOf c = None /\ handleUnequip e s c = (e, s, result false n)
             /\ n = "Unequip what?")
  \/ (exists n, nounOf c = Some n
        /\ handleUnequip e s c
           = (e, s, result false ("You don't have " +:+ quote +:+ n +:+ quote
                                  +:+ " equipped.")))
  \/ (exists n foundSlot equippedItemId obj,
        nounOf c = Some n
        /\ find (fun si => truthy (snd si) && definitionMatches e (snd si) n)
                (Player.equippedItems (Session.player s))
           = Some (foundSlot, equippedItemId)
        /\ findDefinition e equippedItemId = Some obj
        /\ handleUnequip e s c
           = (e,
              Session.set_player
                (Player.set_equippedItems
                   (Equipped.remove (Player.equippedItems (Session.player s)) foundSlot)
                   (Player.set_inventory
                      (Player.inventory (Session.player s) ++ [unequippedItem obj])
                      (Session.player s))) s,
              resultWith true ("You unequip the " +:+ Obj.name obj +:+ ".")
                (mkStateChanges None None None
                   (Some (Player.inventory (Session.player s) ++ [unequippedItem obj]))
                   (Some (Equipped.remove (Player.equippedItems (Session.player s))
                                          foundSlot))
                   None None None))).
Proof.
  unfold handleUnequip.
  destruct (nounOf c) as [n|]; [|left; by eexists].
  destruct (find _ (Player.equippedItems (Session.player s)))
    as [[foundSlot equippedItemId]|] eqn:Hfind; [|right; left; by exists n].
  right; right.
  pose proof (find_some _ _ Hfind) as [_ Hm]. cbn [snd] in Hm.
  apply andb_true_iff in Hm as [_ Hm].
  destruct (definitionMatches_findDefinition e equippedItemId n Hm) as [obj Hobj].
  rewrite Hobj. by exists n, foundSlot, equippedItemId, obj.
Qed.

(** X17. Unequip never answers [Error: Could not find item data.]: an
    equipped id that answers to the typed name always has a definition in
    some room. When it succeeds it has appended to the inventory an entry
    rebuilt from the first definition with the id of the equipped item, and
    has emptied the slot that held it; the other slots and the engine are
    untouched. *)
Theorem unequip_returns_item_from_definition (e e' : GameEngine.t) (s s' : Session.t)
    (c : ParsedCommand) (r : CommandResult) :
  handleUnequip e s c = (e', s', r) ->
  message r <> "Error: Could not find item data."
  /\ e' = e
  /\ (success r = true ->
      exists foundSlot equippedItemId obj,
        In (foundSlot, equippedItemId) (Player.equippedItems (Session.player s))
        /\ findDefinition e equippedItemId = Some obj
        /\ Obj.id obj = equippedItemId
        /\ Player.inventory (Session.player s')
           = Player.inventory (Session.player s) ++ [unequippedItem obj]
        /\ Equipped.get (Player.equippedItems (Session.player s')) foundSlot = None
        /\ (forall slot', slot' <> foundSlot ->
              Equipped.get (Player.equippedItems (Session.player s')) slot'
              = Equipped.get (Player.equippedItems (Session.player s)) slot')).
Proof.
  intros H.
  destruct (handleUnequip_cases e s c)
    as [(n & _ & Hrun & ->) | [(n & _ & Hrun) | (n & slot & itemId & obj & _ & Hfind & Hdef & Hrun)]];
    rewrite Hrun in H; injection H as <- <- <-.
  - split; [by intros [= ?]|]. split; [reflexivity | discriminate].
  - split; [by intros [= ?]|]. split; [reflexivity | discriminate].
  - split; [by intros [= ?]|]. split; [reflexivity|]. intros _.
    exists slot, itemId, obj. pose proof (find_some _ _ Hfind) as [Hin _].
    split; [exact Hin|]. split; [exact Hdef|].
    split; [by apply (findDefinitionIn_Some (rooms e))|].
    cbn [Session.player Session.set_player Player.inventory Player.equippedItems
         Player.set_inventory Player.set_equippedItems].
    split; [reflexivity|].
    split; [rewrite Equipped_get_remove; by destruct (decide (slot = slot))|].
    intros slot' Hne. rewrite Equipped_get_remove. by destruct (decide (slot' = slot)).
Qed.

Lemma unequip_returns_item_from_definition_witness :
  exists foundSlot equippedItemId obj,
    findDefinition (fst (Sample.play ["take flashlight"; "equip flashlight"])) equippedItemId
      = Some obj
    /\ Equipped.get
         (Player.equippedItems
            (Session.player
               (snd (Sample.play ["take flashlight"; "equip flashlight"; "doff flashlight"]))))
         foundSlot = None.
Proof.
  assert (Hrun :
    handleUnequip (fst (Sample.play ["take flashlight"; "equip flashlight"]))
      (snd (Sample.play ["take flashlight"; "equip flashlight"]))
      {| verb := "unequip"; noun := Some "flashlight"; preposition := None;
         indirectObject := None; raw := "doff flashlight"; valid := true;
         errorMessage := None |}
    = (fst (Sample.play ["take flashlight"; "equip flashlight"; "doff flashlight"]),
       snd (Sample.play ["take flashlight"; "equip flashlight"; "doff flashlight"]),
       resultOf (handleUnequip (fst (Sample.play ["take flashlight"; "equip flashlight"]))
         (snd (Sample.play ["take flashlight"; "equip flashlight"]))
         {| verb := "unequip"; noun := Some "flashlight"; preposition := None;
            indirectObject := None; raw := "doff flashlight"; valid := true;
            errorMessage := None |})))
    by (vm_compute; reflexivity).
  assert (Hok : success (resultOf (handleUnequip
         (fst (Sample.play ["take flashlight"; "equip flashlight"]))
         (snd (Sample.play ["take flashlight"; "equip flashlight"]))
         {| verb := "unequip"; noun := Some "flashlight"; preposition := None;
            indirectObject := None; raw := "doff flashlight"; valid := true;
            errorMessage := None |})) = true)
    by (vm_compute; reflexivity).
  destruct (unequip_returns_item_from_definition _ _ _ _ _ _ Hrun) as (_ & _ & Hsucc).
  destruct (Hsucc Hok) as (slot & itemId & obj & _ & Hdef & _ & _ & Hget & _).
  exists slot, itemId, obj. split; [exact Hdef | exact Hget].
Defined.

(** X18. With nothing equipped, an equip followed by a successful unequip
    leaves the equipment empty again and the engine untouched, but not the
    inventory as it was: the entry has moved to the end, and it is rebuilt
    from the first definition of the object in the rooms, not the entry
    that was equipped. *)
Theorem equip_unequip_round_trip (e e1 e2 : GameEngine.t) (s s1 s2 : Session.t)
    (c c' : ParsedCommand) (r1 r2 : CommandResult) :
  Player.equippedItems (Session.player s) = [] ->
  handleEquip e s c = (e1, s1, r1) -> success r1 = true ->
  handleUnequip e1 s1 c' = (e2, s2, r2) -> success r2 = true ->
  e2 = e
  /\ Player.equippedItems (Session.player s2) = []
  /\ exists idx item obj,
       Player.inventory (Session.player s) !! idx = Some item
       /\ findDefinition e (Item.id item) = Some obj
       /\ Obj.id obj = Item.id item
       /\ Player.inventory (Session.player s2)
          = splice1 idx (Player.inventory (Session.player s)) ++ [unequippedItem obj].
Proof.
  intros Hempty Hequip Hok1 Hunequip Hok2.
  destruct (handleEquip_success _ _ _ _ _ _ Hequip Hok1)
    as (n & idx & item & slot & _ & _ & Hitem & _ & _ & -> & ->).
  destruct (handleUnequip_cases e
              (Session.set_player
                 (Player.set_inventory (splice1 idx (Player.inventory (Session.player s)))
                    (Player.set_equippedItems
                       (Equipped.set (Player.equippedItems (Session.player s)) slot
                                     (Item.id item))
                       (Session.player s))) s) c')
    as [(m & _ & Hrun & _) | [(m & _ & Hrun) | (m & slot' & itemId & obj & _ & Hfind & Hdef & Hrun)]];
    rewrite Hrun in Hunequip; injection Hunequip as <- <- <-;
    try discriminate Hok2.
  cbn [Session.player Session.set_player Player.inventory Player.equippedItems
       Player.set_inventory Player.set_equippedItems] in *.
  rewrite Hempty in *. cbn [Equipped.set] in *.
  apply find_some in Hfind as [Hin _].
  destruct Hin as [[= <- <-] | []].
  split; [reflexivity|]. split.
  - unfold Equipped.remove, EquippedItems. rewrite filter_cons. cbn [fst].
    by destruct (decide (slot <> slot)).
  - exists idx, item, obj. split; [exact Hitem|]. split; [exact Hdef|].
    split; [by apply (findDefinitionIn_Some (rooms e))|reflexivity].
Qed.

Lemma equip_unequip_round_trip_witness :
  Player.equippedItems
    (Session.player
       (snd (Sample.play ["take flashlight"; "take lantern"; "equip flashlight";
                          "doff flashlight"]))) = []
  /\ exists idx item obj,
       Player.inventory
         (Session.player (snd (Sample.play ["take flashlight"; "take lantern"])))
         !! idx = Some item
       /\ Player.inventory
            (Session.player
               (snd (Sample.play ["take flashlight"; "take lantern"; "equip flashlight";
                                  "doff flashlight"])))
          = splice1 idx
              (Player.inventory
                 (Session.player (snd (Sample.play ["take flashlight"; "take lantern"]))))
            ++ [unequippedItem obj].
Proof.
  assert (Hequip :
    handleEquip (fst (Sample.play ["take flashlight"; "take lantern"]))
      (snd (Sample.play ["take flashlight"; "take lantern"]))
      {| verb := "equip"; noun := Some "flashlight"; preposition := None;
         indirectObject := None; raw := "equip flashlight"; valid := true;
         errorMessage := None |}
    = (fst (Sample.play ["take flashlight"; "take lantern"; "equip flashlight"]),
       snd (Sample.play ["take flashlight"; "take lantern"; "equip flashlight"]),
       resultOf (handleEquip (fst (Sample.play ["take flashlight"; "take lantern"]))
         (snd (Sample.play ["take flashlight"; "take lantern"]))
         {| verb := "equip"; noun := Some "flashlight"; preposition := None;
            indirectObject := None; raw := "equip flashlight"; valid := true;
            errorMessage := None |})))
    by (vm_compute; reflexivity).
  assert (Hunequip :
    handleUnequip (fst (Sample.play ["take flashlight"; "take lantern"; "equip flashlight"]))
      (snd (Sample.play ["take flashlight"; "take lantern"; "equip flashlight"]))
      {| verb := "unequip"; noun := Some "flashlight"; preposition := None;
         indirectObject := None; raw := "doff flashlight"; valid := true;
         errorMessage := None |}
    = (fst (Sample.play ["take flashlight"; "take lantern"; "equip flashlight";
                         "doff flashlight"]),
       snd (Sample.play ["take flashlight"; "take lantern"; "equip flashlight";
                         "doff flashlight"]),
       resultOf (handleUnequip
         (fst (Sample.play ["take flashlight"; "take lantern"; "equip flashlight"]))
         (snd (Sample.play ["take flashlight"; "take lantern"; "equip flashlight"]))
         {| verb := "unequip"; noun := Some "flashlight"; preposition := None;
            indirectObject := None; raw := "doff flashlight"; valid := true;
            errorMessage := None |})))
    by (vm_compute; reflexivity).
  assert (Hempty : Player.equippedItems
                     (Session.player (snd (Sample.play ["take flashlight"; "take lantern"])))
                   = [])
    by (vm_compute; reflexivity).
  assert (Hok1 : success (resultOf (handleEquip
            (fst (Sample.play ["take flashlight"; "take lantern"]))
            (snd (Sample.play ["take flashlight"; "take lantern"]))
            {| verb := "equip"; noun := Some "flashlight"; preposition := None;
               indirectObject := None; raw := "equip flashlight"; valid := true;
               errorMessage := None |})) = true)
    by (vm_compute; reflexivity).
  assert (Hok2 : success (resultOf (handleUnequip
            (fst (Sample.play ["take flashlight"; "take lantern"; "equip flashlight"]))
            (snd (Sample.play ["take flashlight"; "take lantern"; "equip flashlight"]))
            {| verb := "unequip"; noun := Some "flashlight"; preposition := None;
               indirectObject := None; raw := "doff flashlight"; valid := true;
               errorMessage := None |})) = true)
    by (vm_compute; reflexivity).
  destruct (equip_unequip_round_trip _ _ _ _ _ _ _ _ _ _ Hempty Hequip Hok1 Hunequip Hok2)
    as (_ & Hnone & idx & item & obj & Hitem & _ & _ & Hinv).
  split; [exact Hnone|]. exists idx, item, obj. split; [exact Hitem | exact Hinv].
Defined.

End EquipmentMore.

(** ** Taking and dropping *)

Section ItemsMore.
Import JS CommandParser GameEngine.

(** X19. Take never answers [You've already taken that.]: the object it
    picks is the first one of the room that is takeable, not yet taken and
    answers to the name, so the later test of its [taken] mark cannot fire.
    When take succeeds, that object alone is marked, in the current room
    alone, and its inventory entry is appended; when it fails although a
    room and a name were there, no object of the room qualified. *)
Theorem take_picks_first_available (e e' : GameEngine.t) (s s' : Session.t)
    (c : ParsedCommand) (r : CommandResult) :
  handleTake e s c = (e', s', r) ->
  message r <> "You've already taken that."
  /\ (success r = true ->
      exists room n i obj,
        getCurrentRoom e s = Some room /\ nounOf c = Some n
        /\ Room.objects room !! i = Some obj
        /\ takeable n obj = true
        /\ (forall j o, (j < i)%nat -> Room.objects room !! j = Some o ->
                        takeable n o = false)
        /\ Player.inventory (Session.player s')
           = Player.inventory (Session.player s) ++ [takenItem obj]
        /\ getRoom e' (Player.location (Session.player s))
           = Some (Room.set_objects
                     (alter (Obj.set_taken true) i (Room.objects room)) room)
        /\ (forall id, id <> Player.location (Session.player s) ->
                       getRoom e' id = getRoom e id))
  /\ (success r = false ->
      forall room n, getCurrentRoom e s = Some room -> nounOf c = Some n ->
        forall o, In o (Room.objects room) -> takeable n o = false).
Proof.
  unfold handleTake. intros H.
  destruct (getCurrentRoom e s) as [room|] eqn:Hroom;
    [|injection H as <- <- <-; split; [by intros [= ?]|]; split; [discriminate|];
      intros _ ? ? [= ]].
  destruct (nounOf c) as [n|];
    [|injection H as <- <- <-; split; [by intros [= ?]|]; split; [discriminate|];
      intros _ ? ? _ [= ]].
  destruct (findIndex (takeable n) (Room.objects room)) as [i|] eqn:Hi.
  - destruct (findIndex_lookup _ _ _ Hi) as (obj & Hobj & Hp & Hfirst).
    rewrite Hobj in H.
    assert (Htaken : Obj.taken obj = false).
    { unfold takeable in Hp. destruct (Obj.taken obj); [|reflexivity].
      by rewrite andb_false_r in Hp. }
    rewrite Htaken in H. injection H as <- <- <-.
    split; [by intros [= ?]|]. split; [|discriminate]. intros _.
    exists room, n, i, obj.
    split; [reflexivity|]. split; [reflexivity|]. split; [exact Hobj|].
    split; [exact Hp|]. split; [exact Hfirst|]. split; [reflexivity|].
    unfold getRoom. cbn [rooms set_rooms]. split.
    + rewrite assoc_mutateRoom, String.eqb_refl.
      unfold getCurrentRoom, getRoom in Hroom. by rewrite Hroom.
    + intros id Hid. rewrite assoc_mutateRoom.
      by destruct (String.eqb_spec id (Player.location (Session.player s))).
  - injection H as <- <- <-. split; [by intros [= ?]|]. split; [discriminate|].
    intros _ room' n' [= <-] [= <-]. by apply (findIndexFrom_None _ _ 0).
Qed.

Lemma take_picks_first_available_witness :
  exists obj,
    takeable "l" obj = true
    /\ Player.inventory (Session.player (snd (Sample.play ["take flashlight"; "take l"])))
       = Player.inventory (Session.player (snd (Sample.play ["take flashlight"])))
         ++ [takenItem obj].
Proof.
  assert (Hrun :
    handleTake (fst (Sample.play ["take flashlight"]))
      (snd (Sample.play ["take flashlight"]))
      {| verb := "take"; noun := Some "l"; preposition := None;
         indirectObject := None; raw := "take l"; valid := true;
         errorMessage := None |}
    = (fst (Sample.play ["take flashlight"; "take l"]),
       snd (Sample.play ["take flashlight"; "take l"]),
       resultWith true "You take the Old Lantern."
         (mkStateChanges None None None
            (Some (Player.inventory
                     (Session.player (snd (Sample.play ["take flashlight"; "take l"])))))
            None None None None)))
    by (vm_compute; reflexivity).
  destruct (take_picks_first_available _ _ _ _ _ _ Hrun) as (_ & Hok & _).
  destruct (Hok eq_refl) as (room & n & i & obj & _ & Hn & _ & Hp & _ & Hinv & _).
  injection Hn as <-. exists obj. split; [exact Hp | exact Hinv].
Defined.

(** X20. Drop removes from the inventory the first entry that answers to
    the name, and nothing else: the engine is untouched, so the object keeps
    its [taken] mark and does not come back to any room. It succeeds exactly
    when a name is given and some entry of the inventory answers to it. *)
Theorem drop_removes_first_match (e e' : GameEngine.t) (s s' : Session.t)
    (c : ParsedCommand) (r : CommandResult) :
  handleDrop e s c = (e', s', r) ->
  e' = e
  /\ (success r = true <->
      exists n item, nounOf c = Some n
                     /\ In item (Player.inventory (Session.player s))
                     /\ itemMatches n item = true)
  /\ (success r = true ->
      exists n idx item,
        nounOf c = Some n
        /\ Player.inventory (Session.player s) !! idx = Some item
        /\ itemMatches n item = true
        /\ (forall j o, (j < idx)%nat ->
                        Player.inventory (Session.player s) !! j = Some o ->
                        itemMatches n o = false)
        /\ Player.inventory (Session.player s')
           = take idx (Player.inventory (Session.player s))
             ++ drop (S idx) (Player.inventory (Session.player s))
        /\ S (length (Player.inventory (Session.player s')))
           = length (Player.inventory (Session.player s))
        /\ message r = "You drop the " +:+ Item.name item +:+ ".").
Proof.
  unfold handleDrop. intros H.
  destruct (nounOf c) as [n|].
  2:{ injection H as <- <- <-. split; [reflexivity|]. split; [|discriminate].
      split; [discriminate|]. by intros (? & ? & [= ] & _). }
  destruct (findIndex (itemMatches n) (Player.inventory (Session.player s)))
    as [idx|] eqn:Hidx.
  - destruct (findIndex_lookup _ _ _ Hidx) as (item & Hitem & Hp & Hfirst).
    rewrite Hitem in H. injection H as <- <- <-.
    split; [reflexivity|]. split.
    + split; [|reflexivity]. intros _. exists n, item.
      split; [reflexivity|]. split; [|exact Hp].
      apply list_elem_of_In. by eapply list_elem_of_lookup_2.
    + intros _. exists n, idx, item.
      split; [reflexivity|]. split; [exact Hitem|]. split; [exact Hp|].
      split; [exact Hfirst|].
      cbn [Session.player Session.set_player Player.inventory Player.set_inventory].
      split; [reflexivity|]. split; [|reflexivity].
      unfold splice1. rewrite length_app, length_take, length_drop.
      apply lookup_lt_Some in Hitem. lia.
  - injection H as <- <- <-. split; [reflexivity|]. split; [|discriminate].
    split; [discriminate|]. intros (n' & item & [= <-] & Hin & Hp).
    rewrite (findIndexFrom_None _ _ 0 Hidx item Hin) in Hp. discriminate Hp.
Qed.

Lemma drop_removes_first_match_witness :
  fst (Sample.play ["take flashlight"; "take lantern"; "drop l"])
  = fst (Sample.play ["take flashlight"; "take lantern"])
  /\ exists item, itemMatches "l" item = true
                  /\ "You drop the Flashlight." = "You drop the " +:+ Item.name item +:+ ".".
Proof.
  assert (Hrun :
    handleDrop (fst (Sample.play ["take flashlight"; "take lantern"]))
      (snd (Sample.play ["take flashlight"; "take lantern"]))
      {| verb := "drop"; noun := Some "l"; preposition := None;
         indirectObject := None; raw := "drop l"; valid := true;
         errorMessage := None |}
    = (fst (Sample.play ["take flashlight"; "take lantern"; "drop l"]),
       snd (Sample.play ["take flashlight"; "take lantern"; "drop l"]),
       resultWith true "You drop the Flashlight."
         (mkStateChanges None None None
            (Some (Player.inventory
                     (Session.player
                        (snd (Sample.play ["take flashlight"; "take lantern"; "drop l"])))))
            None None None None)))
    by (vm_compute; reflexivity).
  destruct (drop_removes_first_match _ _ _ _ _ _ Hrun) as (He & _ & Hok).
  split; [exact He|].
  destruct (Hok eq_refl) as (n & idx & item & Hn & _ & Hp & _ & _ & _ & Hmsg).
  injection Hn as <-. exists item. split; [exact Hp | exact Hmsg].
Defined.

End ItemsMore.

(** ** Loading rooms and the world state *)

Section WorldMore.
Import JS CommandParser GameEngine.

Lemma find_snoc {A} (p : A -> bool) (l : list A) (x : A) :
  find p (l ++ [x])
  = match find p l with
    | Some y => Some y
    | None => if p x then Some x else None
    end.
Proof.
  induction l as [|y l IH]; cbn [app find]; [reflexivity|].
  by destruct (p y).
Qed.

Lemma mapSet_keys (m : list (string * Room.t)) (k : string) (v : Room.t) :
  map fst (mapSet m k v)
  = if bool_decide (k ∈ map fst m) then map fst m else map fst m ++ [k].
Proof.
  induction m as [|[k' w] m IH]; cbn [mapSet map fst]; [reflexivity|].
  destruct (String.eqb_spec k k') as [<-|Hk]; cbn [map fst].
  - rewrite bool_decide_eq_true_2; [reflexivity | by left].
  - rewrite IH. case_bool_decide as Hin.
    + rewrite bool_decide_eq_true_2; [reflexivity | by right].
    + rewrite bool_decide_eq_false_2; [reflexivity|].
      intros Hin'. apply elem_of_cons in Hin' as [?|?]; [congruence | contradiction].
Qed.

Lemma mapSet_NoDup (m : list (string * Room.t)) (k : string) (v : Room.t) :
  NoDup (map fst m) -> NoDup (map fst (mapSet m k v)).
Proof.
  intros Hm. rewrite mapSet_keys. case_bool_decide as Hin; [assumption|].
  apply NoDup_app. split; [assumption|]. split; [|apply NoDup_singleton].
  intros x Hx Hx'. apply list_elem_of_singleton in Hx'. by subst.
Qed.

Lemma mapSet_prefix (m : list (string * Room.t)) (k : string) (v : Room.t) :
  map fst m `prefix_of` map fst (mapSet m k v).
Proof.
  rewrite mapSet_keys. case_bool_decide; [reflexivity | by apply prefix_app_r].
Qed.

Lemma assoc_loaded (roomData : list Room.t) (m : list (string * Room.t)) (id : string) :
  assoc (fold_left (fun m room => mapSet m (Room.identity_id room) room) roomData m) id
  = match lastWithId roomData id with
    | Some room => Some room
    | None => assoc m id
    end.
Proof.
  unfold lastWithId. revert m.
  induction roomData as [|room roomData IH]; intros m; [reflexivity|].
  cbn [fold_left rev]. rewrite IH, find_snoc, assoc_mapSet.
  destruct (find _ (rev roomData)); [reflexivity|].
  destruct (String.eqb_spec id (Room.identity_id room)) as [->|Hne].
  - by rewrite String.eqb_refl.
  - destruct (String.eqb_spec (Room.identity_id room) id); [congruence | reflexivity].
Qed.

(** X21. After [loadRooms] a room id answers with the last room of the data
    that carries it, and with what was loaded before when the data has none:
    a later room replaces an earlier one of the same id. The ids already
    loaded keep their place in the order of the map, no id occurs twice, and
    every room of the data is stored under its own id. *)
Theorem loadRooms_last_room_wins (e : GameEngine.t) (roomData : list Room.t) :
  (forall id,
     getRoom (loadRooms e roomData) id
     = match lastWithId roomData id with
       | Some room => Some room
       | None => getRoom e id
       end)
  /\ roomIds e `prefix_of` roomIds (loadRooms e roomData)
  /\ (NoDup (roomIds e) -> NoDup (roomIds (loadRooms e roomData)))
  /\ (forall room, In room roomData ->
        exists room', getRoom (loadRooms e roomData) (Room.identity_id room) = Some room'
                      /\ Room.identity_id room' = Room.identity_id room)
  /\ worldState (loadRooms e roomData) = worldState e
  /\ config (loadRooms e roomData) = config e.
Proof.
  assert (Hget : forall id,
     getRoom (loadRooms e roomData) id
     = match lastWithId roomData id with
       | Some room => Some room
       | None => getRoom e id
       end).
  { intros id. unfold getRoom, loadRooms. cbn [rooms set_rooms]. apply assoc_loaded. }
  split; [exact Hget|].
  unfold roomIds, loadRooms. cbn [rooms set_rooms worldState config].
  split; [|split; [|split; [|split; reflexivity]]].
  - clear Hget. generalize (rooms e).
    induction roomData as [|room roomData IH]; intros m; [reflexivity|].
    cbn [fold_left]. etrans; [apply (mapSet_prefix m (Room.identity_id room) room)|].
    apply IH.
  - clear Hget. generalize (rooms e).
    induction roomData as [|room roomData IH]; intros m Hm; [exact Hm|].
    cbn [fold_left]. by apply IH, mapSet_NoDup.
  - intros room Hin. rewrite Hget. unfold lastWithId.
    destruct (find _ (rev roomData)) as [room'|] eqn:Hfind.
    + exists room'. split; [reflexivity|].
      apply find_some in Hfind as [_ Heq]. by apply String.eqb_eq in Heq.
    + exfalso. apply in_rev in Hin.
      pose proof (find_none _ _ Hfind room Hin) as Hno. cbn beta in Hno.
      by rewrite String.eqb_refl in Hno.
Qed.

Lemma loadRooms_last_room_wins_witness :
  getRoom (loadRooms Sample.engine [Sample.cellar; Sample.chamber; Sample.corridor;
                                    Room.set_objects [] Sample.chamber])
          "ROOM_001"
  = Some (Room.set_objects [] Sample.chamber)
  /\ NoDup (roomIds (loadRooms Sample.engine
                       [Sample.cellar; Sample.chamber; Sample.corridor;
                        Room.set_objects [] Sample.chamber])).
Proof.
  destruct (loadRooms_last_room_wins Sample.engine
              [Sample.cellar; Sample.chamber; Sample.corridor;
               Room.set_objects [] Sample.chamber]) as (Hget & _ & Hnodup & _).
  split; [exact (Hget "ROOM_001")|].
  apply Hnodup. vm_compute.
  repeat (apply NoDup_cons; split; [by intros ?%list_elem_of_In; cbn in *; intuition discriminate|]).
  apply NoDup_nil_2.
Defined.

(** X22. A world-state flag reads back as it was last set and as [false]
    when it was never set; setting one flag touches no other flag and no
    room. An exit that requires a state flag is open to every player right
    after the flag is set to true and closed right after it is set to
    false. *)
Theorem setWorldState_round_trip (e : GameEngine.t) (key : string) (value : bool) :
  (forall key', getWorldState (setWorldState e key value) key'
                = if String.eqb key' key then value else getWorldState e key')
  /\ (forall key', worldState e !! key' = None -> getWorldState e key' = false)
  /\ rooms (setWorldState e key value) = rooms e
  /\ config (setWorldState e key value) = config e
  /\ (forall exit req player,
        Exit.requires exit = Some req ->
        Requirement.type req = req_state -> Requirement.id req = key ->
        fst (canUseExit (setWorldState e key value) exit player) = value).
Proof.
  split; [|split; [|split; [reflexivity|split; [reflexivity|]]]].
  - intros key'. unfold getWorldState, setWorldState. cbn [worldState].
    destruct (String.eqb_spec key' key) as [->|Hne].
    + by rewrite lookup_insert_eq.
    + by rewrite lookup_insert_ne.
  - intros key' Hnone. unfold getWorldState. by rewrite Hnone.
  - intros exit req player Hreq Hty Hid. unfold canUseExit, setWorldState.
    rewrite Hreq, Hty, Hid. cbn [worldState]. rewrite lookup_insert_eq.
    by destruct value.
Qed.

Lemma setWorldState_round_trip_witness :
  fst (canUseExit (setWorldState Sample.engine "power_on" false)
         {| Exit.to := "ROOM_002"; Exit.visible := true; Exit.oneWay := false;
            Exit.requires := Some {| Requirement.type := req_state;
                                     Requirement.id := "power_on";
                                     Requirement.value := None |};
            Exit.blockedMessage := None; Exit.travelText := "" |}
         (Session.player Sample.session))
  = false.
Proof.
  destruct (setWorldState_round_trip Sample.engine "power_on" false)
    as (_ & _ & _ & _ & Hexit).
  by apply (Hexit _ {| Requirement.type := req_state; Requirement.id := "power_on";
                       Requirement.value := None |}).
Defined.

End WorldMore.

(** ** Looking, learning and the object listing *)

Section LookMore.
Import JS CommandParser GameEngine.

(** A look at an object whose lesson the room has already given. *)
Lemma handleLook_already_taught (e : GameEngine.t) (s : Session.t) (c : ParsedCommand)
    (room : Room.t) (n k : string) (obj : Obj.t) :
  getCurrentRoom e s = Some room -> nounOf c = Some n ->
  find (objectMatches n) (Room.objects room) = Some obj ->
  abilityLearned obj = Some k -> Room.flag room k = true ->
  handleLook e s c = (e, s, result true (examineOrDescription obj)).
Proof.
  intros Hroom Hn Hobj Hk Hflag. unfold handleLook.
  by rewrite Hroom, Hn, Hobj, Hk, Hflag.
Qed.

Lemma player_skills_same (p : Player.t) : Player.set_skills (Player.skills p) p = p.
Proof. by destruct p. Qed.

(** What a look does to the skills and to the engine. *)
Lemma handleLook_cases (e e' : GameEngine.t) (s s' : Session.t)
    (c : ParsedCommand) (r : CommandResult) :
  handleLook e s c = (e', s', r) ->
  (e' = e /\ s' = s /\ r = result (success r) (message r)
   /\ forall room n obj k,
        getCurrentRoom e s = Some room -> nounOf c = Some n ->
        find (objectMatches n) (Room.objects room) = Some obj ->
        abilityLearned obj = Some k -> Room.flag room k = true)
  \/ (exists room n obj k,
        getCurrentRoom e s = Some room /\ nounOf c = Some n
        /\ find (objectMatches n) (Room.objects room) = Some obj
        /\ abilityLearned obj = Some k /\ Room.flag room k = false
        /\ e' = set_rooms
                  (mutateRoom (rooms e) (Player.location (Session.player s))
                     (fun r => Room.set_state (<[k := true]> (Room.state r)) r)) e
        /\ success r = true /\ message r = examineOrDescription obj
        /\ ((In k (Player.skills (Session.player s)) /\ s' = s)
            \/ (~ In k (Player.skills (Session.player s))
                /\ s' = Session.set_player
                          (Player.set_skills (Player.skills (Session.player s) ++ [k])
                                             (Session.player s)) s))).
Proof.
  unfold handleLook. intros H.
  destruct (getCurrentRoom e s) as [room|] eqn:Hroom;
    [|injection H as <- <- <-; left; repeat split; intros; congruence].
  destruct (nounOf c) as [n|] eqn:Hn;
    [|injection H as <- <- <-; left; repeat split; intros; congruence].
  destruct (find (objectMatches n) (Room.objects room)) as [obj|] eqn:Hobj.
  2:{ destruct (find (npcMatches n) (Room.npcs room));
        injection H as <- <- <-; left; repeat split; intros; congruence. }
  destruct (abilityLearned obj) as [k|] eqn:Hk;
    [|injection H as <- <- <-; left; repeat split; intros; congruence].
  destruct (Room.flag room k) eqn:Hflag; cbn [negb] in H;
    [injection H as <- <- <-; left; repeat split; intros; congruence|].
  right. exists room, n, obj, k.
  destruct (arrayIncludes (Player.skills (Session.player s)) k) eqn:Hskill;
    cbn [negb] in H; injection H as <- <- <-;
    (do 8 (split; [first [assumption | reflexivity]|])).
  - left. split; [by apply arrayIncludes_In | reflexivity].
  - right. split; [|reflexivity]. intros Hin. apply arrayIncludes_In in Hin. congruence.
Qed.

(** The skills after a look: as before, or with one skill appended that
    the room had not yet taught. *)
Lemma handleLook_skills (e e' : GameEngine.t) (s s' : Session.t)
    (c : ParsedCommand) (r : CommandResult) :
  handleLook e s c = (e', s', r) ->
  Player.skills (Session.player s') = Player.skills (Session.player s)
  \/ exists room k,
       getCurrentRoom e s = Some room /\ Room.flag room k = false
       /\ Player.skills (Session.player s') = Player.skills (Session.player s) ++ [k].
Proof.
  intros H.
  destruct (handleLook_cases _ _ _ _ _ _ H)
    as [(-> & -> & _)
       | (room & n & obj & k & Hroom & _ & _ & _ & Hflag & _ & _ & _ & Hs)];
    [by left|].
  destruct Hs as [[_ ->] | [_ ->]]; [by left|].
  right. exists room, k. by repeat split.
Qed.

(** X23. Looking at an object teaches its skill at most once per room: the
    skill is appended only when the room's flag for it is unset and the
    player does not have it, and the flag is set from then on. Nothing else
    of the player changes, a list of skills without repetition stays so,
    and a second look at once repeats the answer and changes nothing. *)
Theorem look_teaches_once (e e' : GameEngine.t) (s s' : Session.t)
    (c : ParsedCommand) (r : CommandResult) :
  handleLook e s c = (e', s', r) ->
  Player.set_skills (Player.skills (Session.player s)) (Session.player s')
  = Session.player s
  /\ (Player.skills (Session.player s') = Player.skills (Session.player s)
      \/ exists room k,
           getCurrentRoom e s = Some room /\ Room.flag room k = false
           /\ ~ In k (Player.skills (Session.player s))
           /\ Player.skills (Session.player s') = Player.skills (Session.player s) ++ [k]
           /\ exists room', getCurrentRoom e' s' = Some room' /\ Room.flag room' k = true)
  /\ (NoDup (Player.skills (Session.player s)) ->
      NoDup (Player.skills (Session.player s')))
  /\ handleLook e' s' c = (e', s', result (success r) (message r)).
Proof.
  intros H.
  destruct (handleLook_cases _ _ _ _ _ _ H)
    as [(-> & -> & Hr & _)
       | (room & n & obj & k & Hroom & Hn & Hobj & Hk & Hflag & -> & Hok & Hmsg & Hs)].
  { split; [apply player_skills_same|]. split; [by left|]. split; [tauto|].
    by rewrite <- Hr. }
  assert (Hroom' : forall t, Player.location (Session.player t)
                             = Player.location (Session.player s) ->
            getCurrentRoom
              (set_rooms
                 (mutateRoom (rooms e) (Player.location (Session.player s))
                    (fun r => Room.set_state (<[k := true]> (Room.state r)) r)) e) t
            = Some (Room.set_state (<[k := true]> (Room.state room)) room)).
  { intros t Ht. unfold getCurrentRoom, getRoom. cbn [rooms set_rooms].
    rewrite Ht, assoc_mutateRoom, String.eqb_refl.
    unfold getCurrentRoom, getRoom in Hroom. by rewrite Hroom. }
  assert (Hflag' : Room.flag (Room.set_state (<[k := true]> (Room.state room)) room) k
                   = true).
  { unfold Room.flag. cbn [Room.state Room.set_state]. by rewrite lookup_insert_eq. }
  assert (Hagain : forall t, Player.location (Session.player t)
                             = Player.location (Session.player s) ->
            handleLook
              (set_rooms
                 (mutateRoom (rooms e) (Player.location (Session.player s))
                    (fun r => Room.set_state (<[k := true]> (Room.state r)) r)) e) t c
            = (set_rooms
                 (mutateRoom (rooms e) (Player.location (Session.player s))
                    (fun r => Room.set_state (<[k := true]> (Room.state r)) r)) e,
               t, result (success r) (message r))).
  { intros t Ht. rewrite Hok, Hmsg.
    by apply (handleLook_already_taught _ _ _ _ n k obj (Hroom' t Ht)). }
  destruct Hs as [[Hin ->] | [Hnot ->]].
  - split; [apply player_skills_same|]. split; [by left|]. split; [tauto|].
    by apply Hagain.
  - cbn [Session.player Session.set_player Player.skills Player.set_skills].
    split; [by destruct (Session.player s)|]. split; [|split].
    + right. exists room, k. do 3 (split; [assumption|]). split; [reflexivity|].
      eexists. split; [|exact Hflag']. apply Hroom'.
      cbn [Session.player Session.set_player]. by destruct (Session.player s).
    + intros Hnodup. apply NoDup_app. split; [assumption|].
      split; [|apply NoDup_singleton].
      intros x Hx Hx'. apply list_elem_of_singleton in Hx'. subst x.
      by apply Hnot, list_elem_of_In.
    + apply Hagain. cbn [Session.player Session.set_player].
      by destruct (Session.player s).
Qed.

Lemma look_teaches_once_witness :
  Player.skills (Session.player (snd (Archive.play ["x terminal"]))) = ["hacking"]
  /\ NoDup (Player.skills (Session.player (snd (Archive.play ["x terminal"]))))
  /\ snd (Archive.play ["x terminal"; "x terminal"]) = snd (Archive.play ["x terminal"]).
Proof.
  assert (Hrun :
    handleLook Archive.engine Archive.session
      {| verb := "examine"; noun := Some "terminal"; preposition := None;
         indirectObject := None; raw := "x terminal"; valid := true;
         errorMessage := None |}
    = (fst (Archive.play ["x terminal"]), snd (Archive.play ["x terminal"]),
       resultWith true "Lines of code scroll by. You begin to follow them."
         (mkStateChanges (Some ["hacking"]) None None None None None None None)))
    by (vm_compute; reflexivity).
  destruct (look_teaches_once _ _ _ _ _ _ Hrun) as (_ & _ & Hnodup & Hagain).
  split; [vm_compute; reflexivity|]. split; [apply Hnodup; apply NoDup_nil_2|].
  assert (Hnext : snd (Archive.play ["x terminal"; "x terminal"])
                  = sessionOf (handleLook (fst (Archive.play ["x terminal"]))
                                 (snd (Archive.play ["x terminal"]))
                                 {| verb := "examine"; noun := Some "terminal";
                                    preposition := None; indirectObject := None;
                                    raw := "x terminal"; valid := true;
                                    errorMessage := None |}))
    by (vm_compute; reflexivity).
  rewrite Hnext, Hagain. reflexivity.
Defined.

(** X24. Restart empties the player's skills but keeps every room flag
    other than [visited]. A skill whose flag a room carries is therefore
    not taught again by looking in that room after a restart, to any
    player who lacks it. *)
Theorem restart_keeps_room_lessons (e e1 : GameEngine.t) (s s1 : Session.t)
    (c0 : ParsedCommand) (r1 : CommandResult) :
  handleRestart e s c0 = (e1, s1, r1) ->
  Player.skills (Session.player s1) = []
  /\ (forall id room, getRoom e id = Some room ->
        exists room1, getRoom e1 id = Some room1
                      /\ forall k, k <> "visited" -> Room.flag room1 k = Room.flag room k)
  /\ (forall t c k room e2 t2 r2,
        getCurrentRoom e t = Some room -> Room.flag room k = true -> k <> "visited" ->
        ~ In k (Player.skills (Session.player t)) ->
        handleLook e1 t c = (e2, t2, r2) ->
        ~ In k (Player.skills (Session.player t2))).
Proof.
  unfold handleRestart. intros H. injection H as <- <- <-.
  assert (Hrooms : forall id room, getRoom e id = Some room ->
            getRoom (set_rooms (map (fun kr => (fst kr, resetRoom (snd kr))) (rooms e)) e) id
            = Some (resetRoom room)).
  { intros id room Hroom. unfold getRoom in *. cbn [rooms set_rooms].
    by rewrite assoc_resetRooms, Hroom. }
  assert (Hflags : forall room k, k <> "visited" ->
            Room.flag (resetRoom room) k = Room.flag room k).
  { intros room k Hk. unfold Room.flag, resetRoom.
    cbn [Room.state Room.set_state Room.set_objects]. by rewrite lookup_insert_ne. }
  split; [reflexivity|]. split.
  - intros id room Hroom. exists (resetRoom room). split; [by apply Hrooms|].
    intros k Hk. by apply Hflags.
  - intros t c k room e2 t2 r2 Hroom Hflag Hk Hnot Hlook.
    destruct (handleLook_skills _ _ _ _ _ _ Hlook) as [Heq | (room' & k' & Hroom' & Hflag' & Heq)].
    + by rewrite Heq.
    + rewrite Heq. intros Hin. apply in_app_or in Hin as [Hin | [<- | []]];
        [contradiction|].
      unfold getCurrentRoom in Hroom, Hroom'. rewrite (Hrooms _ _ Hroom) in Hroom'.
      injection Hroom' as <-. rewrite Hflags in Hflag' by assumption. congruence.
Qed.

Lemma restart_keeps_room_lessons_witness :
  Player.skills (Session.player Archive.session) = []
  /\ ~ In "hacking"
        (Player.skills
           (Session.player
              (sessionOf
                 (handleLook (fst (Archive.play ["x terminal"; "restart"])) Archive.session
                    {| verb := "look"; noun := Some "terminal"; preposition := None;
                       indirectObject := None; raw := "look terminal"; valid := true;
                       errorMessage := None |})))).
Proof.
  split; [reflexivity|].
  assert (Hrun :
    handleRestart (fst (Archive.play ["x terminal"])) (snd (Archive.play ["x terminal"]))
      {| verb := "restart"; noun := None; preposition := None;
         indirectObject := None; raw := "restart"; valid := true;
         errorMessage := None |}
    = (fst (Archive.play ["x terminal"; "restart"]),
       snd (Archive.play ["x terminal"; "restart"]),
       resultOf (handleRestart (fst (Archive.play ["x terminal"]))
                   (snd (Archive.play ["x terminal"]))
                   {| verb := "restart"; noun := None; preposition := None;
                      indirectObject := None; raw := "restart"; valid := true;
                      errorMessage := None |})))
    by (vm_compute; reflexivity).
  destruct (restart_keeps_room_lessons _ _ _ _ _ _ Hrun) as (_ & _ & Hlook).
  destruct (handleLook (fst (Archive.play ["x terminal"; "restart"])) Archive.session
              {| verb := "look"; noun := Some "terminal"; preposition := None;
                 indirectObject := None; raw := "look terminal"; valid := true;
                 errorMessage := None |}) as [[e2 t2] r2] eqn:Hl.
  unfold sessionOf. cbn [fst snd].
  refine (Hlook Archive.session _ "hacking" _ e2 t2 r2 _ _ _ _ Hl).
  - vm_compute. reflexivity.
  - vm_compute. reflexivity.
  - discriminate.
  - intros [].
Defined.

Lemma filter_map_same {A} (p : A -> bool) (g : A -> A) (l : list A) :
  (forall x, p (g x) = p x) -> List.filter p (map g l) = map g (List.filter p l).
Proof.
  intros Hp. induction l as [|x l IH]; [reflexivity|].
  cbn [map List.filter]. rewrite Hp. destruct (p x); cbn [map]; by rewrite IH.
Qed.

Lemma dynamicVariant_objects (room : Room.t) (objs : list Obj.t)
    (variants : list (string * string)) :
  dynamicVariant (Room.set_objects objs room) variants = dynamicVariant room variants.
Proof.
  induction variants as [|[variant text] rest IH]; [reflexivity|].
  cbn [dynamicVariant]. rewrite IH. reflexivity.
Qed.

Lemma objectVisible_requiresLight (b : bool) (o : Obj.t) :
  objectVisible true (set_requiresLight b o) = objectVisible true o.
Proof.
  unfold objectVisible. cbn [set_requiresLight Obj.taken Obj.visibility Obj.requiresLight].
  destruct (Obj.visibility o); by rewrite ?orb_true_r.
Qed.

(** X25. The [requiresLight] mark of an object has no effect on what
    [getRoomDescription] returns: the listing is only reached with light,
    so every object that is not taken and not hidden is listed whatever its
    mark, and without light the dark text is returned with no listing at
    all. *)
Theorem requiresLight_never_hides (f : Obj.t -> bool) (room : Room.t)
    (player : Player.t) (verbose : bool) :
  getRoomDescription (withRequiresLight f room) player verbose
  = getRoomDescription room player verbose
  /\ visibleObjects room true
     = List.filter (fun o => negb (Obj.taken o)
                             && match Obj.visibility o with
                                | vis_hidden => false
                                | _ => true
                                end)
                   (Room.objects room).
Proof.
  split.
  - unfold getRoomDescription, withRequiresLight.
    assert (Hlight : forall objs, hasLight (Room.set_objects objs room) player
                                  = hasLight room player) by reflexivity.
    rewrite Hlight. destruct (hasLight room player) eqn:Hl; [|reflexivity].
    cbn [negb]. rewrite dynamicVariant_objects.
    cbn [Room.descriptions Room.set_objects Room.lighting_isLit Room.identity_id].
    generalize (match dynamicVariant room (Descriptions.dynamicVariants (Room.descriptions room)) with
                | Some text => text
                | None =>
                    if negb (Room.lighting_isLit room) && true
                    then Descriptions.long (Room.descriptions room)
                    else if verbose || negb (visitedIncludes (Player.visitedRooms player)
                                               (Room.identity_id room))
                         then (if visitedIncludes (Player.visitedRooms player)
                                    (Room.identity_id room)
                               then Descriptions.long (Room.descriptions room)
                               else Descriptions.initial (Room.descriptions room))
                         else visitedOrShort (Room.descriptions room)
                end).
    intros d. unfold appendListings, visibleObjects.
    cbn [Room.objects Room.set_objects Room.exits Room.npcs].
    rewrite filter_map_same by (intros o; apply objectVisible_requiresLight).
    rewrite !length_map, map_map. reflexivity.
  - unfold visibleObjects. apply filter_ext. intros o.
    unfold objectVisible. destruct (Obj.visibility o); cbn;
      by rewrite ?orb_true_r.
Qed.

End LookMore.

(** ** The dispatch of verbs *)

Section DispatchMore.
Import JS CommandParser GameEngine.

Lemma not_listed (l : list string) (v : string) :
  ~ In v l -> arrayIncludes l v = false.
Proof.
  intros H. apply not_true_is_false. intros Hin. by apply H, arrayIncludes_In.
Qed.

Ltac inert_case tac :=
  match goal with
  | |- fst (if String.eqb (verb ?c) ?v then _ else _) = _ =>
      destruct (String.eqb_spec (verb c) v) as [Hverb | _]; [ tac | ]
  end.

Ltac is_listed :=
  idtac;
  match goal with
  | Hverb : verb _ = _, H : arrayIncludes _ _ = false |- _ =>
      rewrite Hverb in H; vm_compute in H; discriminate H
  end.

Lemma dispatch_inert (e : GameEngine.t) (s : Session.t) (c : ParsedCommand) :
  arrayIncludes changingVerbs (verb c) = false -> fst (dispatch e s c) = (e, s).
Proof.
  intros H. unfold dispatch. cbv zeta.
  inert_case is_listed. inert_case is_listed. inert_case is_listed.
  inert_case is_listed. inert_case is_listed.
  inert_case ltac:(unfold handleInventory; by repeat case_match).
  inert_case ltac:(unfold handleUse; by repeat case_match).
  inert_case is_listed. inert_case is_listed. inert_case is_listed.
  inert_case ltac:(unfold handleOpen; by repeat case_match).
  inert_case ltac:(unfold handleClose; by repeat case_match).
  inert_case ltac:(unfold handleAttack; by repeat case_match).
  inert_case ltac:(unfold handleCast; by repeat case_match).
  inert_case is_listed.
  inert_case ltac:(reflexivity).
  inert_case is_listed. inert_case is_listed. inert_case is_listed.
  reflexivity.
Qed.

Ltac unhandled_case :=
  match goal with
  | |- (if String.eqb (verb ?c) ?v then _ else _) = _ =>
      destruct (String.eqb_spec (verb c) v) as [Hverb | _]; [ is_listed | ]
  end.

Lemma dispatch_unhandled (e : GameEngine.t) (s : Session.t) (c : ParsedCommand) :
  arrayIncludes handledVerbs (verb c) = false ->
  dispatch e s c
  = (e, s, result false ("I don't know how to " +:+ quote +:+ verb c +:+ quote +:+ ".")).
Proof.
  intros H. unfold dispatch. cbv zeta. do 19 unhandled_case. reflexivity.
Qed.

Lemma dispatch_verb (e : GameEngine.t) (s : Session.t) (c : ParsedCommand) :
  (verb c = "open" -> dispatch e s c = handleOpen e s c)
  /\ (verb c = "close" -> dispatch e s c = handleClose e s c)
  /\ (verb c = "cast" -> dispatch e s c = handleCast e s c)
  /\ (verb c = "turn" -> dispatch e s c = handleTurn e s c)
  /\ (verb c = "light" -> dispatch e s c = handleLight e s c)
  /\ (verb c = "extinguish" -> dispatch e s c = handleExtinguish e s c).
Proof.
  unfold dispatch. cbv zeta. repeat split; intros ->; reflexivity.
Qed.

(** X26. Only look, examine, go, take, drop, turn, light, extinguish, rest,
    restart, equip and unequip can change anything: every other input that
    is answered leaves the engine and the session exactly as they were. A
    valid command whose verb has no case in [processCommand] is answered
    with [I don't know how to], naming the canonical verb and not the word
    typed; open, close and cast never succeed. Every case of
    [processCommand] can be reached by some word of the table, and the table
    accepts verbs that have no case. *)
Theorem commands_without_effect (e e' : GameEngine.t) (s s' : Session.t)
    (input : string) (c : ParsedCommand) (r : CommandResult) :
  parse input = Returns c ->
  processCommand e s input = Returns (e', s', r) ->
  (~ In (verb c) changingVerbs -> e' = e /\ s' = s)
  /\ (valid c = true -> ~ In (verb c) handledVerbs ->
      r = result false ("I don't know how to " +:+ quote +:+ verb c +:+ quote +:+ "."))
  /\ (In (verb c) ["open"; "close"; "cast"] -> success r = false)
  /\ Forall (fun v => In v canonicalVerbs) handledVerbs
  /\ exists v, In v canonicalVerbs /\ ~ In v handledVerbs.
Proof.
  intros Hparse Hrun. unfold processCommand in Hrun. rewrite Hparse in Hrun.
  split; [|split; [|split; [|split]]].
  - intros Hno. apply not_listed in Hno.
    destruct (valid c); cbn [negb] in Hrun.
    + injection Hrun as Hrun.
      pose proof (dispatch_inert e s c Hno) as Hd. rewrite Hrun in Hd.
      cbn [fst] in Hd. by injection Hd as -> ->.
    + by injection Hrun as <- <- _.
  - intros Hvalid Hno. apply not_listed in Hno. rewrite Hvalid in Hrun.
    cbn [negb] in Hrun. injection Hrun as Hrun.
    rewrite (dispatch_unhandled e s c Hno) in Hrun. by injection Hrun as _ _ <-.
  - intros Hin. destruct (valid c); cbn [negb] in Hrun.
    + injection Hrun as Hrun.
      destruct (dispatch_verb e s c) as (Hopen & Hclose & Hcast & _).
      destruct Hin as [Hv | [Hv | [Hv | []]]]; symmetry in Hv.
      * rewrite (Hopen Hv) in Hrun. unfold handleOpen in Hrun.
        destruct (nounOf c); by injection Hrun as _ _ <-.
      * rewrite (Hclose Hv) in Hrun. unfold handleClose in Hrun.
        destruct (nounOf c); by injection Hrun as _ _ <-.
      * rewrite (Hcast Hv) in Hrun. unfold handleCast in Hrun.
        repeat case_match; by injection Hrun as _ _ <-.
    + by injection Hrun as _ _ <-.
  - unfold handledVerbs.
    repeat (constructor; [apply arrayIncludes_In; vm_compute; reflexivity|]).
    constructor.
  - exists "save". split; [apply arrayIncludes_In; vm_compute; reflexivity|].
    intros Hin. apply arrayIncludes_In in Hin. vm_compute in Hin. discriminate Hin.
Qed.

Lemma commands_without_effect_witness :
  processCommand Sample.engine Sample.session "toss the flashlight"
  = Returns (Sample.engine, Sample.session,
             result false ("I don't know how to " +:+ quote +:+ "throw" +:+ quote +:+ ".")).
Proof.
  assert (Hparse : parse "toss the flashlight"
                   = Returns {| verb := "throw"; noun := Some "flashlight";
                                preposition := None; indirectObject := None;
                                raw := "toss the flashlight"; valid := true;
                                errorMessage := None |})
    by (vm_compute; reflexivity).
  destruct (processCommand Sample.engine Sample.session "toss the flashlight")
    as [[[e' s'] r]|] eqn:Hrun.
  - destruct (commands_without_effect _ _ _ _ _ _ _ Hparse Hrun) as (Hsame & Hmsg & _).
    assert (Hc : ~ In "throw" changingVerbs).
    { intros Hin. apply arrayIncludes_In in Hin. vm_compute in Hin. discriminate Hin. }
    assert (Hh : ~ In "throw" handledVerbs).
    { intros Hin. apply arrayIncludes_In in Hin. vm_compute in Hin. discriminate Hin. }
    destruct (Hsame Hc) as [-> ->]. by rewrite (Hmsg eq_refl Hh).
  - exfalso. unfold processCommand in Hrun. rewrite Hparse in Hrun. discriminate Hrun.
Defined.

End DispatchMore.

(** ** Turning a light on and off *)

Section TurnMore.
Import JS CommandParser GameEngine.

Lemma filter_notPreposition (l : list string) :
  Forall notPreposition l -> Forall notPreposition (filter notArticle l).
Proof.
  intros H. apply list.Forall_forall. intros t Ht.
  apply list_elem_of_filter in Ht as [_ Ht].
  by apply (proj1 (list.Forall_forall _ _) H).
Qed.

Lemma filter_truthy (l : list string) :
  Forall (fun t => truthy t = true) l ->
  Forall (fun t => truthy t = true) (filter notArticle l).
Proof.
  intros H. apply list.Forall_forall. intros t Ht.
  apply list_elem_of_filter in Ht as [_ Ht].
  by apply (proj1 (list.Forall_forall _ _) H).
Qed.

Lemma handleLight_noun (e : GameEngine.t) (s : Session.t) (c c' : ParsedCommand) :
  nounOf c = nounOf c' -> handleLight e s c = handleLight e s c'.
Proof. intros H. unfold handleLight. by rewrite H. Qed.

Lemma handleExtinguish_noun (e : GameEngine.t) (s : Session.t) (c c' : ParsedCommand) :
  nounOf c = nounOf c' -> handleExtinguish e s c = handleExtinguish e s c'.
Proof. intros H. unfold handleExtinguish. by rewrite H. Qed.

(** A turn command that carries a preposition and a name. *)
Lemma handleTurn_given (e : GameEngine.t) (s : Session.t) (c : ParsedCommand)
    (p n : string) :
  noun c = Some n -> truthy n = true -> preposition c = Some p -> truthy p = true ->
  handleTurn e s c
  = if String.eqb p "on" then handleLight e s (withNoun c n)
    else if String.eqb p "off" then handleExtinguish e s (withNoun c n)
    else (e, s, result false "You can only turn things on or off.").
Proof.
  intros Hn Htn Hp Htp. unfold handleTurn, nounOf. by rewrite Hn, Htn, Hp, Htp.
Qed.

(** The two shapes of a turn command with its preposition, and the plain
    command with the same name. *)
Lemma parse_turn_forms (a a' b p v : string) (toks : list string) :
  arrayIncludes PREPOSITIONS p = true -> arrayIncludes ARTICLES p = false ->
  assoc VERB_SYNONYMS v = Some v -> startsWith v "go " = false ->
  tokenize (trim (toLowerCase a)) = "turn" :: p :: toks ->
  tokenize (trim (toLowerCase a')) = "turn" :: toks ++ [p] ->
  tokenize (trim (toLowerCase b)) = v :: toks ->
  Forall notPreposition toks ->
  filter notArticle toks <> [] ->
  exists n,
    truthy n = true
    /\ parse a = Returns {| verb := "turn"; noun := Some n; preposition := Some p;
                            indirectObject := None; raw := a; valid := true;
                            errorMessage := None |}
    /\ parse a' = Returns {| verb := "turn"; noun := Some n; preposition := Some p;
                             indirectObject := None; raw := a'; valid := true;
                             errorMessage := None |}
    /\ parse b = Returns {| verb := v; noun := Some n; preposition := None;
                            indirectObject := None; raw := b; valid := true;
                            errorMessage := None |}.
Proof.
  intros Hp Hart Hv Hgo Ha Ha' Hb Hprep Hne.
  assert (Htruthy : truthy (join " " (filter notArticle toks)) = true).
  { apply join_truthy; [assumption|]. apply filter_truthy.
    pose proof (tokenize_truthy (trim (toLowerCase b))) as Ht. rewrite Hb in Ht.
    by apply Forall_cons in Ht as [_ Ht]. }
  exists (join " " (filter notArticle toks)). split; [exact Htruthy|].
  pose proof (filter_notPreposition toks Hprep) as Hfprep.
  split; [|split].
  - rewrite (parse_own a "turn" "turn" (p :: toks) Ha eq_refl eq_refl).
    rewrite filter_cons_True by exact Hart.
    unfold parseObjects. cbn [prepositionLoop]. rewrite Hp.
    change (drop 1 (p :: filter notArticle toks)) with (filter notArticle toks).
    change ((p :: filter notArticle toks) !! 0%nat) with (Some p).
    unfold orUndefined. by rewrite Htruthy.
  - rewrite (parse_own a' "turn" "turn" (toks ++ [p]) Ha' eq_refl eq_refl).
    rewrite filter_app, filter_cons_True by exact Hart. rewrite filter_nil.
    destruct (filter notArticle toks) as [|o objs] eqn:Hf; [congruence|].
    unfold parseObjects. cbn [app].
    change (o :: objs ++ [p]) with ((o :: objs) ++ [p]).
    rewrite (prepositionLoop_first (o :: objs) [] p 0 Hfprep Hp).
    cbn [length Nat.add].
    change (S (length objs)) with (length (o :: objs)).
    rewrite take_app_length.
    rewrite drop_ge by (rewrite length_app; cbn [length]; lia).
    change (orUndefined (join " " [])) with (@None string).
    unfold orUndefined. by rewrite Htruthy.
  - rewrite (parse_own b v v toks Hb Hv Hgo).
    destruct (filter notArticle toks) as [|o objs] eqn:Hf; [congruence|].
    unfold parseObjects. rewrite (prepositionLoop_none _ 0 Hfprep).
    unfold orUndefined. by rewrite Htruthy.
Qed.

(** X27. [turn on NAME], [turn NAME on] and [light NAME] are answered alike
    and have the same effect, and so are [turn off NAME], [turn NAME off]
    and [extinguish NAME], for every name that has a word left once the
    articles are removed and that holds no preposition. *)
Theorem turn_on_is_light (e : GameEngine.t) (s : Session.t) (a a' b p v : string)
    (toks : list string) :
  In (p, v) [("on", "light"); ("off", "extinguish")] ->
  tokenize (trim (toLowerCase a)) = "turn" :: p :: toks ->
  tokenize (trim (toLowerCase a')) = "turn" :: toks ++ [p] ->
  tokenize (trim (toLowerCase b)) = v :: toks ->
  Forall notPreposition toks ->
  filter notArticle toks <> [] ->
  processCommand e s a = processCommand e s b
  /\ processCommand e s a' = processCommand e s b.
Proof.
  intros Hpv Ha Ha' Hb Hprep Hne.
  assert (Hp : arrayIncludes PREPOSITIONS p = true /\ arrayIncludes ARTICLES p = false
               /\ assoc VERB_SYNONYMS v = Some v /\ startsWith v "go " = false).
  { destruct Hpv as [[= <- <-] | [[= <- <-] | []]]; by vm_compute. }
  destruct Hp as (Hp & Hart & Hv & Hgo).
  destruct (parse_turn_forms a a' b p v toks Hp Hart Hv Hgo Ha Ha' Hb Hprep Hne)
    as (n & Hn & Hpa & Hpa' & Hpb).
  unfold processCommand. rewrite Hpa, Hpa', Hpb. cbn [valid negb].
  destruct (dispatch_verb e s
              {| verb := "turn"; noun := Some n; preposition := Some p;
                 indirectObject := None; raw := a; valid := true;
                 errorMessage := None |}) as (_ & _ & _ & Hturn & _).
  destruct (dispatch_verb e s
              {| verb := "turn"; noun := Some n; preposition := Some p;
                 indirectObject := None; raw := a'; valid := true;
                 errorMessage := None |}) as (_ & _ & _ & Hturn' & _).
  destruct (dispatch_verb e s
              {| verb := v; noun := Some n; preposition := None;
                 indirectObject := None; raw := b; valid := true;
                 errorMessage := None |}) as (_ & _ & _ & _ & Hlight & Hext).
  rewrite (Hturn eq_refl), (Hturn' eq_refl).
  assert (Htp : truthy p = true)
    by (destruct Hpv as [[= <- <-] | [[= <- <-] | []]]; reflexivity).
  rewrite (handleTurn_given e s
             {| verb := "turn"; noun := Some n; preposition := Some p;
                indirectObject := None; raw := a; valid := true;
                errorMessage := None |} p n eq_refl Hn eq_refl Htp).
  rewrite (handleTurn_given e s
             {| verb := "turn"; noun := Some n; preposition := Some p;
                indirectObject := None; raw := a'; valid := true;
                errorMessage := None |} p n eq_refl Hn eq_refl Htp).
  destruct Hpv as [[= <- <-] | [[= <- <-] | []]].
  - rewrite (Hlight eq_refl). cbn [String.eqb Ascii.eqb Bool.eqb].
    split; apply f_equal, handleLight_noun; reflexivity.
  - rewrite (Hext eq_refl). cbn [String.eqb Ascii.eqb Bool.eqb].
    split; apply f_equal, handleExtinguish_noun; reflexivity.
Qed.

Lemma turn_on_is_light_witness :
  processCommand (fst (Sample.play ["take flashlight"; "equip flashlight"]))
    (snd (Sample.play ["take flashlight"; "equip flashlight"]))
    "Turn  on the Flashlight"
  = processCommand (fst (Sample.play ["take flashlight"; "equip flashlight"]))
      (snd (Sample.play ["take flashlight"; "equip flashlight"]))
      "light the flashlight"
  /\ processCommand (fst (Sample.play ["take flashlight"; "equip flashlight"]))
       (snd (Sample.play ["take flashlight"; "equip flashlight"]))
       "turn the flashlight on"
     = processCommand (fst (Sample.play ["take flashlight"; "equip flashlight"]))
         (snd (Sample.play ["take flashlight"; "equip flashlight"]))
         "light the flashlight".
Proof.
  apply (turn_on_is_light _ _ _ _ _ "on" "light" ["the"; "flashlight"]).
  - left. reflexivity.
  - vm_compute. reflexivity.
  - vm_compute. reflexivity.
  - vm_compute. reflexivity.
  - repeat constructor.
  - vm_compute. discriminate.
Defined.

End TurnMore.

(** ** The entries of the inventory *)

Section InventoryMore.
Import JS CommandParser GameEngine.

Lemma splice1_Forall {A} (P : A -> Prop) (i : nat) (l : list A) :
  Forall P l -> Forall P (splice1 i l).
Proof.
  intros H. unfold splice1. apply Forall_app. split.
  - by apply Forall_take.
  - by apply Forall_drop.
Qed.

Lemma snoc_stocked (l : list Item.t) (item : Item.t) :
  Forall engineMade l -> engineMade item -> Forall engineMade (l ++ [item]).
Proof.
  intros Hl Hitem. apply Forall_app. split; [assumption|]. by constructor.
Qed.

Ltac stock_cases :=
  intros e s c Hs; unfold stocked, sessionOf in *;
  repeat case_match;
  cbn [fst snd Session.player Session.set_player Player.inventory Player.set_inventory
       Player.set_equippedItems Player.set_skills Player.set_flags Player.set_hp
       Player.set_mp Player.set_location Player.set_visitedRooms];
  first [ assumption
        | by apply splice1_Forall
        | by apply snoc_stocked ].

Lemma handleLook_keepsStock : keepsStock handleLook.
Proof. unfold handleLook. stock_cases. Qed.

Lemma handleGo_keepsStock : keepsStock handleGo.
Proof. unfold handleGo. stock_cases. Qed.

Lemma handleTake_keepsStock : keepsStock handleTake.
Proof. unfold handleTake. stock_cases. Qed.

Lemma handleDrop_keepsStock : keepsStock handleDrop.
Proof. unfold handleDrop. stock_cases. Qed.

Lemma handleInventory_keepsStock : keepsStock handleInventory.
Proof. unfold handleInventory. stock_cases. Qed.

Lemma handleUse_keepsStock : keepsStock handleUse.
Proof. unfold handleUse. stock_cases. Qed.

Lemma handleLight_keepsStock : keepsStock handleLight.
Proof. unfold handleLight. stock_cases. Qed.

Lemma handleExtinguish_keepsStock : keepsStock handleExtinguish.
Proof. unfold handleExtinguish. stock_cases. Qed.

Lemma handleTurn_keepsStock : keepsStock handleTurn.
Proof.
  intros e s c Hs. unfold handleTurn.
  repeat case_match;
    first [ by apply handleLight_keepsStock
          | by apply handleExtinguish_keepsStock
          | exact Hs ].
Qed.

Lemma handleOpen_keepsStock : keepsStock handleOpen.
Proof. unfold handleOpen. stock_cases. Qed.

Lemma handleClose_keepsStock : keepsStock handleClose.
Proof. unfold handleClose. stock_cases. Qed.

Lemma handleAttack_keepsStock : keepsStock handleAttack.
Proof. unfold handleAttack. stock_cases. Qed.

Lemma handleCast_keepsStock : keepsStock handleCast.
Proof. unfold handleCast. stock_cases. Qed.

Lemma handleRest_keepsStock : keepsStock handleRest.
Proof. unfold handleRest. stock_cases. Qed.

Lemma handleHelp_keepsStock : keepsStock handleHelp.
Proof. unfold handleHelp. stock_cases. Qed.

Lemma handleRestart_keepsStock : keepsStock handleRestart.
Proof. intros e s c _. unfold handleRestart, stocked, sessionOf. constructor. Qed.

Lemma handleEquip_keepsStock : keepsStock handleEquip.
Proof. unfold handleEquip. stock_cases. Qed.

Lemma handleUnequip_keepsStock : keepsStock handleUnequip.
Proof. unfold handleUnequip. stock_cases. Qed.

Ltac stock_case lem :=
  match goal with
  | |- stocked (sessionOf (if String.eqb (verb ?c) ?v then _ else _)) =>
      destruct (String.eqb (verb c) v); [ by apply lem | ]
  end.

Lemma dispatch_keepsStock : keepsStock dispatch.
Proof.
  intros e s c Hs. unfold dispatch. cbv zeta.
  stock_case handleLook_keepsStock. stock_case handleGo_keepsStock.
  stock_case handleTake_keepsStock. stock_case handleDrop_keepsStock.
  stock_case handleLook_keepsStock. stock_case handleInventory_keepsStock.
  stock_case handleUse_keepsStock. stock_case handleTurn_keepsStock.
  stock_case handleLight_keepsStock. stock_case handleExtinguish_keepsStock.
  stock_case handleOpen_keepsStock. stock_case handleClose_keepsStock.
  stock_case handleAttack_keepsStock. stock_case handleCast_keepsStock.
  stock_case handleRest_keepsStock. stock_case handleHelp_keepsStock.
  stock_case handleRestart_keepsStock. stock_case handleEquip_keepsStock.
  stock_case handleUnequip_keepsStock.
  exact Hs.
Qed.

(** X28. Every entry the engine puts in an inventory is usable and counts
    one piece of weight one. A new player carries nothing, and no command
    breaks this, so it holds in every state reached from a new player by
    commands. In such a state use
    succeeds exactly when a name is given and an entry of the inventory
    answers to it (the answer [You can't use the ...] is never given), and
    the inventory listing is the header followed by one line per entry with
    the bare name, never a count. *)
Theorem inventory_entries_stay_engine_made (e e' : GameEngine.t) (s s' : Session.t)
    (input : string) (r : CommandResult) :
  stocked s ->
  processCommand e s input = Returns (e', s', r) ->
  stocked s'
  /\ (forall name startingRoom,
        stocked (Session.mk (createNewPlayer e name startingRoom) false None))
  /\ (forall c,
        success (resultOf (handleUse e s c)) = true
        <-> exists n item, nounOf c = Some n
                           /\ In item (Player.inventory (Session.player s))
                           /\ itemMatches n item = true)
  /\ (forall c, Player.inventory (Session.player s) <> [] ->
        message (resultOf (handleInventory e s c))
        = "You are carrying:" +:+ nl
          +:+ join nl (map (fun item => "  - " +:+ Item.name item)
                           (Player.inventory (Session.player s)))).
Proof.
  intros Hs Hrun. split; [|split; [|split]].
  - unfold processCommand in Hrun. destruct (parse input) as [c|]; [|discriminate].
    destruct (valid c); cbn [negb] in Hrun.
    + injection Hrun as Hrun. pose proof (dispatch_keepsStock e s c Hs) as Hd.
      by rewrite Hrun in Hd.
    + by injection Hrun as <- <- _.
  - intros name startingRoom. constructor.
  - intros c. unfold handleUse, resultOf. destruct (nounOf c) as [n|].
    2:{ cbn. split; [discriminate|]. by intros (? & ? & [= ] & _). }
    destruct (find (itemMatches n) (Player.inventory (Session.player s)))
      as [item|] eqn:Hfind.
    + apply find_some in Hfind as [Hin Hm].
      pose proof (proj1 (list.Forall_forall _ _) Hs item
                    (proj2 (list_elem_of_In _ _) Hin)) as (Husable & _).
      rewrite Husable. cbn. split; [|reflexivity]. intros _. by exists n, item.
    + cbn. split; [discriminate|]. intros (n' & item & [= <-] & Hin & Hm).
      by rewrite (find_none _ _ Hfind item Hin) in Hm.
  - intros c Hne. unfold handleInventory, resultOf.
    destruct (Player.inventory (Session.player s)) as [|i l] eqn:Hinv; [congruence|].
    cbn [length Nat.eqb snd message result]. do 2 f_equal.
    apply (f_equal (join nl)). apply map_ext_in. intros item Hin.
    pose proof (proj1 (list.Forall_forall _ _) Hs item) as Hitem.
    rewrite Hinv in Hitem.
    destruct (Hitem (proj2 (list_elem_of_In _ _) Hin)) as (_ & Hq & _).
    rewrite Hq. cbn. by rewrite append_empty_r.
Qed.

Lemma inventory_entries_stay_engine_made_witness :
  stocked (snd (Sample.play ["take flashlight"; "take lantern"; "drop l"]))
  /\ message (resultOf (handleInventory
                (fst (Sample.play ["take flashlight"; "take lantern"]))
                (snd (Sample.play ["take flashlight"; "take lantern"]))
                (bareCommand "inventory" "i")))
     = "You are carrying:" +:+ nl
       +:+ join nl (map (fun item => "  - " +:+ Item.name item)
                        (Player.inventory
                           (Session.player
                              (snd (Sample.play ["take flashlight"; "take lantern"]))))).
Proof.
  assert (Hrun :
    processCommand (fst (Sample.play ["take flashlight"; "take lantern"]))
      (snd (Sample.play ["take flashlight"; "take lantern"])) "drop l"
    = Returns (fst (Sample.play ["take flashlight"; "take lantern"; "drop l"]),
               snd (Sample.play ["take flashlight"; "take lantern"; "drop l"]),
               resultWith true "You drop the Flashlight."
                 (mkStateChanges None None None
                    (Some (Player.inventory
                       (Session.player
                          (snd (Sample.play ["take flashlight"; "take lantern";
                                             "drop l"])))))
                    None None None None)))
    by (vm_compute; reflexivity).
  assert (Hs : stocked (snd (Sample.play ["take flashlight"; "take lantern"])))
    by (vm_compute; repeat constructor).
  destruct (inventory_entries_stay_engine_made _ _ _ _ _ _ Hs Hrun)
    as (Hs' & _ & _ & Hlist).
  split; [exact Hs'|]. apply Hlist. vm_compute. discriminate.
Defined.

End InventoryMore.
